(** * webgl-ar-viewer: a shallow embedding of the viewer's controller code

    The repository is a browser application: [WebGLARApp] (src/main.js) wires
    DOM events to three helpers, [ModelLoader] (file validation and format
    dispatch), [ModelViewer] (the scene and the current model) and [ARMode]
    (the WebXR session, the reticle and the placed model).

    What is modelled, and how:
    - JavaScript strings are [string]s, the code units of their UTF-8
      form; every literal the code compares against is ASCII, and
      [toLowerCase] is modelled on the ASCII letters: a letter outside
      ASCII, which JavaScript lower-cases too, is left as it is.  No such
      letter lower-cases to a character of '.glb', '.gltf', '.stl', so
      [endsWith] on these suffixes, and with it every branch taken, is not
      affected; the name echoed in the message of [ModelLoader.loadModel]
      is, for a name with such a capital.
    - A thrown value is an [Exn] carrying what [error.message] reads.
    - The promise of an async function is fulfilled, rejected, or never
      settled: a [Completion] is [Normal], [Throw] or [Unsettled].
    - Objects of the scene graph are identified by a [uuid] drawn from an
      allocation counter, so that aliasing between [scene.children],
      [modelViewer.currentModel], [arMode.placedModel] and [arMode.reticle]
      is by identity as in the source.
    - An [async] function is a resumable computation [Task]: it runs until
      its next [await], where it hands back the world and a continuation
      that is resumed, later, on whatever the world has become meanwhile.
    - The calls into the browser and into three.js whose results the code
      awaits are [Call]s, answered by the environment.
    - [trace] is ghost state: the calls issued and settled, the methods
      entered and the messages shown, the most recent first.
    Numeric rendering parameters (colours, the camera, the bounding box
    of a model) are handed to three.js unchanged and are not part of the
    world; the intensities of the lights, the materials of a model, the
    listeners of [window] and the position and scale of the loaded model
    are modelled on their own, next to it. *)

From Stdlib Require Import String Ascii List NArith ZArith Arith Bool Lia.
From Stdlib Require QArith.
From ExtLib Require Import Structures.Monad Structures.MonadExc Structures.MonadState.
Import ListNotations.
Import MonadNotation.
Local Open Scope string_scope.
Local Open Scope monad_scope.

(** ** JavaScript strings *)

Module JsString.

(** [String.prototype.toLowerCase], on one code unit: an ASCII capital
    becomes its small letter; every other code unit stays. *)
Definition toLowerCase_ascii (c : ascii) : ascii :=
  let n := nat_of_ascii c in
  if ((65 <=? n) && (n <=? 90))%nat then ascii_of_nat (n + 32) else c.

Fixpoint toLowerCase (s : string) : string :=
  match s with
  | EmptyString => EmptyString
  | String c r => String (toLowerCase_ascii c) (toLowerCase r)
  end.

(** [String.prototype.endsWith(searchString)]: with [start = len -
    searchLength], the result is false when [start < 0] and otherwise
    says whether the code units from [start] on are those of
    [searchString]. *)
Definition endsWith (s searchString : string) : bool :=
  let len := String.length s in
  let searchLength := String.length searchString in
  if (len <? searchLength)%nat then false
  else String.eqb (substring (len - searchLength) searchLength s) searchString.

(** [String.prototype.startsWith(searchString)] at position 0. *)
Definition startsWith (s searchString : string) : bool :=
  String.prefix searchString s.

(** [String.prototype.includes(searchString)]. *)
Definition includes (s searchString : string) : bool :=
  match String.index 0 searchString s with
  | Some _ => true
  | None => false
  end.

(** [Array.prototype.join(sep)] on an array of strings. *)
Definition join (sep : string) (parts : list string) : string :=
  String.concat sep parts.

(** [/a|b|c/i.test(s)] for a pattern that is an alternation of ASCII
    literals: some alternative occurs in [s], letter case ignored. *)
Definition test_alternatives_i (alternatives : list string) (s : string) : bool :=
  existsb (fun alt => includes (toLowerCase s) (toLowerCase alt)) alternatives.

End JsString.

(** ** Thrown values and completions *)

(** What a [catch (error)] clause can observe of the value it caught:
  [error.message], which is [undefined] for a value that is not an
  [Error] (a [ProgressEvent] passed to [reject], for instance). *)
Record Exn : Type := mkExn { message : option string }.

(** [new Error(msg)] *)
Definition Error (msg : string) : Exn := mkExn (Some msg).

(** [new TypeError(...)], raised by the engine on a property access on
  [null] or [undefined]. *)
Definition TypeError (what : string) : Exn :=
mkExn (Some ("Cannot read properties of null or undefined: " ++ what)).

(** [`${error.message}`] inside a template literal. *)
Definition render_message (e : Exn) : string :=
match message e with
| Some m => m
| None => "undefined"
end.

(** [error.message || fallback] *)
Definition message_or (e : Exn) (fallback : string) : string :=
match message e with
| Some EmptyString => fallback
| Some m => m
| None => fallback
end.

(** How a piece of code ends: it returns, it throws, or, for the promise
    of an async function, it is never settled (whoever awaits it is not
    resumed). *)
Inductive Completion (A : Type) : Type :=
| Normal (a : A)
| Throw (e : Exn)
| Unsettled.
Arguments Normal {A} a.
Arguments Throw {A} e.
Arguments Unsettled {A}.

(** ** Files *)

(** The two properties of a DOM [File] the code reads. *)
Record File : Type := mkFile { name : string; size : N }.

Definition ArrayBuffer : Type := list Byte.byte.

(** ** ModelLoader: static helpers (utils/ModelLoader.js) *)

Module ModelLoaderStatic.

Definition supportedExtensions : list string := [".glb"; ".gltf"; ".stl"].

Definition maxSize : N := 50 * 1024 * 1024.

(** [static validateFile(file)] *)
Definition validateFile (file : File) : Completion bool :=
  let fileName := JsString.toLowerCase (name file) in
  let isSupported :=
    existsb (fun ext => JsString.endsWith fileName ext) supportedExtensions in
  if negb isSupported then
    Throw (Error ("Unsupported file format. Supported formats: "
                  ++ JsString.join ", " supportedExtensions))
  else if (maxSize <? size file)%N then
    Throw (Error "File too large. Maximum size: 50MB")
  else Normal true.

End ModelLoaderStatic.

(** ** What the specification calls a supported file *)

(** [s] ends with [suffix]: some string followed by [suffix] is [s]. *)
Definition ends_with (s suffix : string) : Prop :=
exists front : string, s = front ++ suffix.

Definition has_supported_extension (file : File) : Prop :=
let lowered := JsString.toLowerCase (name file) in
ends_with lowered ".glb" \/ ends_with lowered ".gltf" \/ ends_with lowered ".stl".

Definition at_most_50MB (file : File) : Prop := (size file <= 50 * 1024 * 1024)%N.

(** ** The scene graph (three.js [Object3D], [Scene]) *)

Inductive ObjectKind : Type :=
| AmbientLight
| DirectionalLight
| PointLight
| ReticleMesh      (* the ring mesh of [ARMode.createReticle] *)
| ModelRoot.       (* the root of a loaded model, or a clone of one *)

(** An object of the scene graph, as far as identity goes. *)
Record Object3D : Type := mkObject { uuid : nat; kind : ObjectKind }.

(** [a === b] on object references. *)
Definition same_object (a b : Object3D) : bool := (uuid a =? uuid b)%nat.

Definition is_model (o : Object3D) : bool :=
  match kind o with
  | ModelRoot => true
  | _ => false
  end.

Module Scene.

(** [scene.children] *)
Definition t : Type := list Object3D.

(** [Object3D.remove(object)]: splice the child out at its [indexOf],
    when it has one. *)
Fixpoint remove (object : Object3D) (children : t) : t :=
  match children with
  | [] => []
  | child :: rest =>
      if same_object child object then rest
      else child :: remove object rest
  end.

(** [Object3D.add(object)]: detach the object from its parent, then push
    it.  Every object this program adds is either new or a child of this
    same scene. *)
Definition add (object : Object3D) (children : t) : t :=
  (remove object children ++ [object])%list.

(** The model roots among the children. *)
Definition models (children : t) : list Object3D := filter is_model children.

End Scene.

(** ** Handles of platform objects *)

Definition XRSession : Type := nat.
Definition XRReferenceSpace : Type := nat.
Definition XRHitTestSource : Type := nat.
Definition XRPose : Type := nat.
Definition MediaStream : Type := nat.

(** What [GLTFLoader.parse] hands to its [onLoad] callback: whether
    [gltf.scene] is an object (it is [undefined] for a file that declares
    no scene), and [gltf.animations]. *)
Record GLTF : Type := mkGLTF { gltf_scene : bool; gltf_animations : list string }.

(** How a call of [GLTFLoader.parse(data, path, onLoad, onError)] goes on
    when it does not call [onError]: the parser hands what it parsed to
    [onLoad], or it throws on the spot, having called neither callback
    ([JSON.parse] on text that is not JSON, for one). *)
Inductive Parse : Type :=
| Parsed (parsed : GLTF)
| Threw (e : Exn).

Inductive ModelType : Type := gltf | stl.

(** The object [ModelLoader.loadGLTF] and [loadSTL] resolve with. *)
Record LoadResult : Type :=
  mkLoadResult { model : Object3D; animations : list string; type : ModelType }.

(** ** Calls whose result the code awaits *)

Inductive Call : Type :=
| Microtask
    (* the turn of the job queue between the settling of an async
       function's promise and the resumption of who awaits it *)
| IsSessionSupported (mode : string)
| RequestSession (mode : string) (requiredFeatures optionalFeatures : list string)
| RequestReferenceSpace (session : XRSession) (spaceType : string)
| RequestHitTestSource (session : XRSession) (space : XRReferenceSpace)
| GetUserMedia (facingMode : string)
| ReadAsArrayBuffer (file : File)
| GLTFParse (data : ArrayBuffer)
    (* [GLTFLoader.parse]: rejected when the parser calls [onError] *)
| STLParse (data : ArrayBuffer).

Definition answer (c : Call) : Type :=
  match c with
  | Microtask => unit
  | IsSessionSupported _ => bool
  | RequestSession _ _ _ => XRSession
  | RequestReferenceSpace _ _ => XRReferenceSpace
  | RequestHitTestSource _ _ => XRHitTestSource
  | GetUserMedia _ => MediaStream
  | ReadAsArrayBuffer _ => ArrayBuffer
  | GLTFParse _ => Parse
  | STLParse _ => unit
  end.

Inductive Settled (A : Type) : Type :=
| Fulfilled (value : A)
| Rejected (reason : Exn).
Arguments Fulfilled {A} value.
Arguments Rejected {A} reason.

(** ** The ghost trace *)

Inductive Method : Type :=
| loadGLTF_
| loadSTL_
| enterAR_
| exitAR_
| startARSession_
| startARSimulation_
| startBasicARSimulation_
| placeModel_
| onSessionEnd_.

Inductive Event : Type :=
| Issued (c : Call)                        (* the call was made *)
| Resumed (c : Call) (fulfilled : bool)    (* its awaiter went on *)
| Entered (m : Method)
| ShowError (msg : string)
| GetHitTestResults (source : XRHitTestSource)
| SessionEnd (session : XRSession)         (* [xrSession.end()] *)
| StopTracks (stream : MediaStream)
| EnableDeviceOrientation.

(** ** The DOM elements the controller writes *)

Module Button.
Record t : Type := mk { disabled : bool; textContent : string; title : string }.
Definition set_disabled (v : bool) (b : t) : t := mk v (textContent b) (title b).
Definition set_textContent (v : string) (b : t) : t := mk (disabled b) v (title b).
Definition set_title (v : string) (b : t) : t := mk (disabled b) (textContent b) v.
End Button.

Module Div.
Record t : Type := mk { textContent : string; display : string }.
Definition set_textContent (v : string) (d : t) : t := mk v (display d).
Definition set_display (v : string) (d : t) : t := mk (textContent d) v.
End Div.

(** [navigator] and [window], as far as the code inspects them. *)
Record Navigator : Type := mkNavigator {
  userAgent : string;
  xrInNavigator : bool;                 (* ['xr' in navigator] *)
  hasDeviceOrientationEvent : bool      (* [window.DeviceOrientationEvent] *)
}.

(** ** ModelViewer (components/ModelViewer.js): fields *)

(** The callback given to [renderer.setAnimationLoop]: the only one the
    code installs is the AR frame loop of [enterAR]. *)
Inductive AnimationLoop : Type := ARFrameLoop.

Module ModelViewer.
Record t : Type := mk {
  scene : Scene.t;
  currentModel : option Object3D;
  lights : list Object3D;
  xr_enabled : bool;                       (* [renderer.xr.enabled] *)
  xr_session : option XRSession;           (* [renderer.xr.setSession] *)
  animationLoop : option AnimationLoop     (* [renderer.setAnimationLoop] *)
}.
Definition set_scene (v : Scene.t) (m : t) : t :=
  mk v (currentModel m) (lights m) (xr_enabled m) (xr_session m) (animationLoop m).
Definition set_currentModel (v : option Object3D) (m : t) : t :=
  mk (scene m) v (lights m) (xr_enabled m) (xr_session m) (animationLoop m).
Definition set_xr_enabled (v : bool) (m : t) : t :=
  mk (scene m) (currentModel m) (lights m) v (xr_session m) (animationLoop m).
Definition set_xr_session (v : option XRSession) (m : t) : t :=
  mk (scene m) (currentModel m) (lights m) (xr_enabled m) v (animationLoop m).
Definition set_animationLoop (v : option AnimationLoop) (m : t) : t :=
  mk (scene m) (currentModel m) (lights m) (xr_enabled m) (xr_session m) v.

(** [clearCurrentModel()] *)
Definition clearCurrentModel (m : t) : t :=
  match currentModel m with
  | Some current => set_currentModel None (set_scene (Scene.remove current (scene m)) m)
  | None => m
  end.
End ModelViewer.

(** ** ARMode (components/ARMode.js): fields *)

(** The reticle mesh with its [visible] flag. *)
Record Reticle : Type := mkReticle { mesh : Object3D; visible : bool }.

Module ARMode.
Record t : Type := mk {
  xrSession : option XRSession;
  xrRefSpace : option XRReferenceSpace;
  xrHitTestSource : option XRHitTestSource;
  placedModel : option Object3D;
  reticle : option Reticle;
  isARSupported : bool
}.
Definition set_xrSession (v : option XRSession) (a : t) : t :=
  mk v (xrRefSpace a) (xrHitTestSource a) (placedModel a) (reticle a) (isARSupported a).
Definition set_xrRefSpace (v : option XRReferenceSpace) (a : t) : t :=
  mk (xrSession a) v (xrHitTestSource a) (placedModel a) (reticle a) (isARSupported a).
Definition set_xrHitTestSource (v : option XRHitTestSource) (a : t) : t :=
  mk (xrSession a) (xrRefSpace a) v (placedModel a) (reticle a) (isARSupported a).
Definition set_placedModel (v : option Object3D) (a : t) : t :=
  mk (xrSession a) (xrRefSpace a) (xrHitTestSource a) v (reticle a) (isARSupported a).
Definition set_reticle (v : option Reticle) (a : t) : t :=
  mk (xrSession a) (xrRefSpace a) (xrHitTestSource a) (placedModel a) v (isARSupported a).
Definition set_isARSupported (v : bool) (a : t) : t :=
  mk (xrSession a) (xrRefSpace a) (xrHitTestSource a) (placedModel a) (reticle a) v.
End ARMode.

(** ** The world: the [WebGLARApp] instance, the document, the ghost state

    [ARMode] holds a reference to the same [ModelViewer] the application
    holds, so the methods of both act on this one record. *)
Record World : Type := mkWorld {
  (* fields of WebGLARApp *)
  modelViewer : ModelViewer.t;
  arMode : ARMode.t;
  currentModel : option LoadResult;
  isARActive : bool;
  hasWebXR : bool;
  isIOS : bool;
  arButton : Button.t;
  loadingDiv : Div.t;
  errorDiv : Div.t;
  arVideoElement : option MediaStream;   (* the video element, by its [srcObject] *)
  (* the document and the platform *)
  body_ar_mode : bool;                   (* [document.body.classList] has 'ar-mode' *)
  body_videos : list MediaStream;        (* video elements appended to the body *)
  endListeners : list XRSession;         (* sessions with an 'end' listener *)
  navigator : Navigator;
  (* ghost state *)
  nextUuid : nat;
  trace : list Event                     (* the most recent event first *)
}.

(** Field updates ([this.f = v]). *)
Definition set_modelViewer (v : ModelViewer.t) (w : World) : World :=
  mkWorld v (arMode w) (currentModel w) (isARActive w) (hasWebXR w) (isIOS w)
    (arButton w) (loadingDiv w) (errorDiv w) (arVideoElement w) (body_ar_mode w)
    (body_videos w) (endListeners w) (navigator w) (nextUuid w) (trace w).
Definition set_arMode (v : ARMode.t) (w : World) : World :=
  mkWorld (modelViewer w) v (currentModel w) (isARActive w) (hasWebXR w) (isIOS w)
    (arButton w) (loadingDiv w) (errorDiv w) (arVideoElement w) (body_ar_mode w)
    (body_videos w) (endListeners w) (navigator w) (nextUuid w) (trace w).
Definition set_currentModel (v : option LoadResult) (w : World) : World :=
  mkWorld (modelViewer w) (arMode w) v (isARActive w) (hasWebXR w) (isIOS w)
    (arButton w) (loadingDiv w) (errorDiv w) (arVideoElement w) (body_ar_mode w)
    (body_videos w) (endListeners w) (navigator w) (nextUuid w) (trace w).
Definition set_isARActive (v : bool) (w : World) : World :=
  mkWorld (modelViewer w) (arMode w) (currentModel w) v (hasWebXR w) (isIOS w)
    (arButton w) (loadingDiv w) (errorDiv w) (arVideoElement w) (body_ar_mode w)
    (body_videos w) (endListeners w) (navigator w) (nextUuid w) (trace w).
Definition set_hasWebXR (v : bool) (w : World) : World :=
  mkWorld (modelViewer w) (arMode w) (currentModel w) (isARActive w) v (isIOS w)
    (arButton w) (loadingDiv w) (errorDiv w) (arVideoElement w) (body_ar_mode w)
    (body_videos w) (endListeners w) (navigator w) (nextUuid w) (trace w).
Definition set_arButton (v : Button.t) (w : World) : World :=
  mkWorld (modelViewer w) (arMode w) (currentModel w) (isARActive w) (hasWebXR w) (isIOS w)
    v (loadingDiv w) (errorDiv w) (arVideoElement w) (body_ar_mode w)
    (body_videos w) (endListeners w) (navigator w) (nextUuid w) (trace w).
Definition set_loadingDiv (v : Div.t) (w : World) : World :=
  mkWorld (modelViewer w) (arMode w) (currentModel w) (isARActive w) (hasWebXR w) (isIOS w)
    (arButton w) v (errorDiv w) (arVideoElement w) (body_ar_mode w)
    (body_videos w) (endListeners w) (navigator w) (nextUuid w) (trace w).
Definition set_errorDiv (v : Div.t) (w : World) : World :=
  mkWorld (modelViewer w) (arMode w) (currentModel w) (isARActive w) (hasWebXR w) (isIOS w)
    (arButton w) (loadingDiv w) v (arVideoElement w) (body_ar_mode w)
    (body_videos w) (endListeners w) (navigator w) (nextUuid w) (trace w).
Definition set_arVideoElement (v : option MediaStream) (w : World) : World :=
  mkWorld (modelViewer w) (arMode w) (currentModel w) (isARActive w) (hasWebXR w) (isIOS w)
    (arButton w) (loadingDiv w) (errorDiv w) v (body_ar_mode w)
    (body_videos w) (endListeners w) (navigator w) (nextUuid w) (trace w).
Definition set_body_ar_mode (v : bool) (w : World) : World :=
  mkWorld (modelViewer w) (arMode w) (currentModel w) (isARActive w) (hasWebXR w) (isIOS w)
    (arButton w) (loadingDiv w) (errorDiv w) (arVideoElement w) v
    (body_videos w) (endListeners w) (navigator w) (nextUuid w) (trace w).
Definition set_body_videos (v : list MediaStream) (w : World) : World :=
  mkWorld (modelViewer w) (arMode w) (currentModel w) (isARActive w) (hasWebXR w) (isIOS w)
    (arButton w) (loadingDiv w) (errorDiv w) (arVideoElement w) (body_ar_mode w)
    v (endListeners w) (navigator w) (nextUuid w) (trace w).
Definition set_endListeners (v : list XRSession) (w : World) : World :=
  mkWorld (modelViewer w) (arMode w) (currentModel w) (isARActive w) (hasWebXR w) (isIOS w)
    (arButton w) (loadingDiv w) (errorDiv w) (arVideoElement w) (body_ar_mode w)
    (body_videos w) v (navigator w) (nextUuid w) (trace w).
Definition set_nextUuid (v : nat) (w : World) : World :=
  mkWorld (modelViewer w) (arMode w) (currentModel w) (isARActive w) (hasWebXR w) (isIOS w)
    (arButton w) (loadingDiv w) (errorDiv w) (arVideoElement w) (body_ar_mode w)
    (body_videos w) (endListeners w) (navigator w) v (trace w).
Definition set_trace (v : list Event) (w : World) : World :=
  mkWorld (modelViewer w) (arMode w) (currentModel w) (isARActive w) (hasWebXR w) (isIOS w)
    (arButton w) (loadingDiv w) (errorDiv w) (arVideoElement w) (body_ar_mode w)
    (body_videos w) (endListeners w) (navigator w) (nextUuid w) v.

Definition on_modelViewer (f : ModelViewer.t -> ModelViewer.t) (w : World) : World :=
  set_modelViewer (f (modelViewer w)) w.
Definition on_arMode (f : ARMode.t -> ARMode.t) (w : World) : World :=
  set_arMode (f (arMode w)) w.
Definition on_arButton (f : Button.t -> Button.t) (w : World) : World :=
  set_arButton (f (arButton w)) w.
Definition on_scene (f : Scene.t -> Scene.t) (w : World) : World :=
  on_modelViewer (fun m => ModelViewer.set_scene (f (ModelViewer.scene m)) m) w.

(** Ghost: note an event in the trace. *)
Definition record_event (e : Event) (w : World) : World :=
  set_trace (e :: trace w) w.

(** ** Asynchronous computations *)

(** A computation started on a world either has finished, with the world
    it left and its completion, or is suspended at an [await] of a call,
    or runs next to a computation that was started and not awaited (whose
    completion nobody reads). *)
Inductive Task (A : Type) : Type :=
| Finished (w : World) (r : Completion A)
| Awaiting (w : World) (c : Call) (k : Settled (answer c) -> World -> Task A)
| Spawned (c : Call) (detached : Settled (answer c) -> World -> Task unit) (t : Task A).
Arguments Finished {A} w r.
Arguments Awaiting {A} w c k.
Arguments Spawned {A} c detached t.

Definition Async (A : Type) : Type := World -> Task A.

Fixpoint Task_bind {A B : Type} (t : Task A) (f : A -> Async B) : Task B :=
  match t with
  | Finished w (Normal a) => f a w
  | Finished w (Throw e) => Finished w (Throw e)
  | Finished w Unsettled => Finished w Unsettled
  | Awaiting w c k => Awaiting w c (fun o w' => Task_bind (k o w') f)
  | Spawned c d t' => Spawned c d (Task_bind t' f)
  end.

(** [try { t } catch (error) { h error }] *)
Fixpoint Task_catch {A : Type} (t : Task A) (h : Exn -> Async A) : Task A :=
  match t with
  | Finished w (Normal a) => Finished w (Normal a)
  | Finished w (Throw e) => h e w
  | Finished w Unsettled => Finished w Unsettled
  | Awaiting w c k => Awaiting w c (fun o w' => Task_catch (k o w') h)
  | Spawned c d t' => Spawned c d (Task_catch t' h)
  end.

(** The completion of a computation, as a value, once there is one. *)
Fixpoint Task_attempt {A : Type} (t : Task A) : Task (Completion A) :=
  match t with
  | Finished w Unsettled => Finished w Unsettled
  | Finished w r => Finished w (Normal r)
  | Awaiting w c k => Awaiting w c (fun o w' => Task_attempt (k o w'))
  | Spawned c d t' => Spawned c d (Task_attempt t')
  end.

(** A call of an async function whose promise is dropped: the callee runs
    to its first [await]; what remains of it is detached, and a rejection
    of its promise goes unhandled. *)
Fixpoint Task_spawn (t : Task unit) : Task unit :=
  match t with
  | Finished w _ => Finished w (Normal tt)
  | Awaiting w c k => Spawned c k (Finished w (Normal tt))
  | Spawned c d t' => Spawned c d (Task_spawn t')
  end.

#[global] Instance Monad_Async : Monad Async := {
  ret := fun A (a : A) (w : World) => Finished w (Normal a);
  bind := fun A B (m : Async A) (f : A -> Async B) (w : World) => Task_bind (m w) f
}.

#[global] Instance MonadExc_Async : MonadExc Exn Async := {
  raise := fun A (e : Exn) (w : World) => Finished w (Throw e);
  catch := fun A (m : Async A) (h : Exn -> Async A) (w : World) => Task_catch (m w) h
}.

#[global] Instance MonadState_Async : MonadState World Async := {
  get := fun w => Finished w (Normal w);
  put := fun w' _ => Finished w' (Normal tt)
}.

(** A synchronous, non-throwing piece of code. *)
Definition update (f : World -> World) : Async unit :=
  fun w => Finished (f w) (Normal tt).

Definition complete {A : Type} (r : Completion A) : Async A :=
  fun w => Finished w r.

Definition attempt {A : Type} (m : Async A) : Async (Completion A) :=
  fun w => Task_attempt (m w).

Definition spawn (m : Async unit) : Async unit :=
  fun w => Task_spawn (m w).

Definition void {A : Type} (m : Async A) : Async unit :=
  _ <- m ;; ret tt.

(** [await p] for the promise [p] of a call: suspend; resume with the
    value, or with the reason thrown. *)
Definition await (c : Call) : Async (answer c) :=
  fun w =>
    Awaiting (record_event (Issued c) w) c
      (fun o w' =>
         match o with
         | Fulfilled v => Finished (record_event (Resumed c true) w') (Normal v)
         | Rejected e => Finished (record_event (Resumed c false) w') (Throw e)
         end).

(** One turn of the job queue. *)
Definition yield : Async unit :=
  fun w => Awaiting w Microtask (fun _ w' => Finished w' (Normal tt)).

(** [await f(...)] for an async function (or a promise-returning method)
    [f] of this program: [f] runs; once its promise has settled the
    awaiter is resumed in a later job. *)
Definition awaitAsync {A : Type} (m : Async A) : Async A :=
  r <- attempt m ;; yield ;; complete r.

(** Ghost: note that a method was entered. *)
Definition entered (m : Method) : Async unit := update (record_event (Entered m)).

(** A fresh object of the given kind ([new THREE.Mesh], [clone()], the
    scene a parser builds). *)
Definition allocate (k : ObjectKind) : Async Object3D :=
  w <- get ;;
  put (set_nextUuid (S (nextUuid w)) w) ;;
  ret (mkObject (nextUuid w) k).

(** [loader.parse(data, '', onLoad, onError)] as the last statement of a
    [reader.onload] handler inside [new Promise(...)], where [onLoad] and
    [onError] end by resolving or rejecting that promise.  The parser
    calls [onError] also with what [onLoad] throws.  When the parser
    itself throws, nothing catches it: neither callback runs and the
    promise is never settled. *)
Definition GLTFLoader_parse {A : Type} (data : ArrayBuffer)
           (onLoad : GLTF -> Async A) (onError : Exn -> Async A) : Async A :=
  fun w =>
    Awaiting (record_event (Issued (GLTFParse data)) w) (GLTFParse data)
      (fun outcome w' =>
         match outcome with
         | Fulfilled (Parsed parsed) =>
             catch (onLoad parsed) onError
                   (record_event (Resumed (GLTFParse data) true) w')
         | Fulfilled (Threw _) => Finished w' Unsettled
         | Rejected error =>
             onError error (record_event (Resumed (GLTFParse data) false) w')
         end).

(** ** ModelLoader (utils/ModelLoader.js): instance methods *)

Module ModelLoader.

(** [processModel(model)] rescales and recentres the model and flags its
    meshes for shadows; it returns the same object. *)
Definition processModel (model : Object3D) : Object3D := model.

(** [loadGLTF(file)]: a promise around a [FileReader] and
    [GLTFLoader.parse]; the parser runs inside the reader's [onload]
    callback, outside any [try].  [processModel(gltf.scene)] throws a
    [TypeError] when [gltf.scene] is [undefined]. *)
Definition loadGLTF (file : File) : Async LoadResult :=
  entered loadGLTF_ ;;
  data <- catch (await (ReadAsArrayBuffer file))
                (fun _ => raise (Error "Failed to read file")) ;;
  GLTFLoader_parse data
    (fun parsed =>
       if gltf_scene parsed then
         model <- allocate ModelRoot ;;
         ret (mkLoadResult (processModel model) (gltf_animations parsed) gltf)
       else raise (TypeError "updateWorldMatrix"))
    (fun error => raise (Error ("Failed to parse glTF file: "
                                ++ message_or error "Unknown error"))).

(** [loadSTL(file)]: a promise around a [FileReader] and [STLLoader.parse];
    the parser runs inside the reader's [onload] callback, and whatever it
    or the reader fails with is the rejection reason. *)
Definition loadSTL (file : File) : Async LoadResult :=
  entered loadSTL_ ;;
  data <- await (ReadAsArrayBuffer file) ;;
  _ <- await (STLParse data) ;;
  mesh <- allocate ModelRoot ;;
  ret (mkLoadResult (processModel mesh) [] stl).

(** [async loadModel(file)] *)
Definition loadModel (file : File) : Async LoadResult :=
  let fileName := JsString.toLowerCase (name file) in
  if JsString.endsWith fileName ".glb" || JsString.endsWith fileName ".gltf" then
    loadGLTF file
  else if JsString.endsWith fileName ".stl" then
    loadSTL file
  else
    raise (Error ("Unsupported file format: " ++ fileName)).

End ModelLoader.

(** ** WebXRUtils (utils/WebXRUtils.js) *)

Module WebXRUtils.

(** The object [checkWebXRSupport] resolves with; [ar] and [vr] are absent
    from two of its three shapes. *)
Record Support : Type :=
  mkSupport { supported : bool; ar : option bool; vr : option bool; reason : string }.

(** [static async checkWebXRSupport()] *)
Definition checkWebXRSupport : Async Support :=
  w <- get ;;
  if negb (xrInNavigator (navigator w)) then
    ret (mkSupport false None None "WebXR not available in this browser")
  else
    catch
      (isARSupported <- await (IsSessionSupported "immersive-ar") ;;
       isVRSupported <- await (IsSessionSupported "immersive-vr") ;;
       ret (mkSupport (isARSupported || isVRSupported)
                      (Some isARSupported) (Some isVRSupported)
                      (if isARSupported || isVRSupported
                       then "WebXR supported" else "No XR sessions supported")))
      (fun error =>
         ret (mkSupport false None None
                        ("WebXR check failed: " ++ render_message error))).

End WebXRUtils.

(** Truthiness of a property that may be absent. *)
Definition truthy (b : option bool) : bool :=
  match b with
  | Some true => true
  | _ => false
  end.

(** ** ARMode (components/ARMode.js): methods *)

(** [this.reticle.visible = v]; a [TypeError] when [this.reticle] is null. *)
Definition set_reticle_visible (v : bool) : Async unit :=
  w <- get ;;
  match ARMode.reticle (arMode w) with
  | Some r => update (on_arMode (ARMode.set_reticle (Some (mkReticle (mesh r) v))))
  | None => raise (TypeError "visible")
  end.

(** [async checkARSupport()] *)
Definition checkARSupport : Async bool :=
  w <- get ;;
  (if xrInNavigator (navigator w) then
     catch
       (isSupported <- await (IsSessionSupported "immersive-ar") ;;
        update (on_arMode (ARMode.set_isARSupported isSupported)))
       (fun _ => update (on_arMode (ARMode.set_isARSupported false)))
   else ret tt) ;;
  w' <- get ;;
  ret (ARMode.isARSupported (arMode w')).

(** [setupARLighting()]: it dims the lights; it reads
    [this.xrSession.environmentBlendMode]. *)
Definition setupARLighting : Async unit :=
  w <- get ;;
  match ARMode.xrSession (arMode w) with
  | Some _ => ret tt
  | None => raise (TypeError "environmentBlendMode")
  end.

(** [async setupXRSession()] *)
Definition setupXRSession : Async unit :=
  w <- get ;;
  match ARMode.xrSession (arMode w) with
  | Some session =>
      space <- await (RequestReferenceSpace session "local-floor") ;;
      update (on_arMode (ARMode.set_xrRefSpace (Some space))) ;;
      setupARLighting
  | None => raise (TypeError "requestReferenceSpace")
  end.

(** [createReticle()] *)
Definition createReticle : Async unit :=
  ring <- allocate ReticleMesh ;;
  update (on_arMode (ARMode.set_reticle (Some (mkReticle ring false)))) ;;
  update (on_scene (Scene.add ring)).

(** [async setupHitTest()] *)
Definition setupHitTest : Async unit :=
  w <- get ;;
  match ARMode.xrSession (arMode w) with
  | Some session =>
      viewerSpace <- await (RequestReferenceSpace session "viewer") ;;
      source <- await (RequestHitTestSource session viewerSpace) ;;
      update (on_arMode (ARMode.set_xrHitTestSource (Some source)))
  | None => raise (TypeError "requestReferenceSpace")
  end.

(** [navigator.xr.requestSession('immersive-ar', { requiredFeatures:
    ['hit-test'], optionalFeatures: ['dom-overlay'], ... })] *)
Definition requestARSession : Async XRSession :=
  w <- get ;;
  if xrInNavigator (navigator w) then
    await (RequestSession "immersive-ar" ["hit-test"] ["dom-overlay"])
  else raise (TypeError "requestSession").

(** [this.xrSession.addEventListener('end', () => this.onSessionEnd())] *)
Definition addEndListener : Async unit :=
  w <- get ;;
  match ARMode.xrSession (arMode w) with
  | Some session => update (set_endListeners (endListeners w ++ [session])%list)
  | None => raise (TypeError "addEventListener")
  end.

(** [async startARSession()] *)
Definition startARSession : Async bool :=
  entered startARSession_ ;;
  w <- get ;;
  if negb (ARMode.isARSupported (arMode w)) then
    raise (Error "AR not supported on this device")
  else
    catch
      (session <- requestARSession ;;
       update (on_arMode (ARMode.set_xrSession (Some session))) ;;
       awaitAsync setupXRSession ;;
       update (on_modelViewer (ModelViewer.set_xr_enabled true)) ;;
       w1 <- get ;;
       update (on_modelViewer (ModelViewer.set_xr_session (ARMode.xrSession (arMode w1)))) ;;
       createReticle ;;
       awaitAsync setupHitTest ;;
       addEndListener ;;
       ret true)
      (fun error => raise error).

(** What [placeModel] is given: the [XRPose] of a hit-test result, whose
    [transform.matrix] is a [Float32Array], or an object whose
    [transform.matrix] is a three.js [Matrix4]. *)
Inductive HitPose : Type :=
| PoseOfHit (pose : XRPose)
| PoseWithMatrix4.

(** [modelClone.position.setFromMatrixPosition(m)] reads [m.elements[12]]:
    a [Matrix4] has [elements], a [Float32Array] has not. *)
Definition setFromMatrixPosition (hitPose : HitPose) : Async unit :=
  match hitPose with
  | PoseOfHit _ => raise (TypeError "12")
  | PoseWithMatrix4 => ret tt
  end.

(** [placeModel(hitPose)] *)
Definition placeModel (hitPose : HitPose) : Async unit :=
  entered placeModel_ ;;
  w <- get ;;
  match ModelViewer.currentModel (modelViewer w) with
  | None => ret tt
  | Some current =>
      modelClone <- allocate (kind current) ;;
      setFromMatrixPosition hitPose ;;
      w1 <- get ;;
      match ARMode.placedModel (arMode w1) with
      | Some placed => update (on_scene (Scene.remove placed))
      | None => ret tt
      end ;;
      update (on_scene (Scene.add modelClone)) ;;
      update (on_arMode (ARMode.set_placedModel (Some modelClone))) ;;
      set_reticle_visible false
  end.

(** [onSessionEnd()] *)
Definition onSessionEnd (w : World) : World :=
  let w := record_event (Entered onSessionEnd_) w in
  let w := on_arMode (ARMode.set_xrSession None) w in
  let w := on_arMode (ARMode.set_xrRefSpace None) w in
  let w := on_arMode (ARMode.set_xrHitTestSource None) w in
  let w :=
    match ARMode.reticle (arMode w) with
    | Some r => on_arMode (ARMode.set_reticle None) (on_scene (Scene.remove (mesh r)) w)
    | None => w
    end in
  let w :=
    match ARMode.placedModel (arMode w) with
    | Some placed =>
        on_arMode (ARMode.set_placedModel None) (on_scene (Scene.remove placed) w)
    | None => w
    end in
  on_modelViewer (ModelViewer.set_xr_enabled false) w.

(** [endARSession()] *)
Definition endARSession (w : World) : World :=
  match ARMode.xrSession (arMode w) with
  | Some session => record_event (SessionEnd session) w
  | None => w
  end.

(** What a frame tells [onXRFrame]: the poses of the hit-test results
    ([hit.getPose(...)], null when there is none), and for each input
    source the [pressed] flags of its gamepad's buttons, if it has a
    gamepad. *)
Record XRFrame : Type := mkXRFrame {
  hitTestResults : list (option XRPose);
  inputSources : list (option (list bool))
}.

(** The loop over [inputSources] of [onXRFrame]. *)
Fixpoint tap_to_place (pose : XRPose) (sources : list (option (list bool))) : Async unit :=
  match sources with
  | [] => ret tt
  | Some (pressed :: _) :: rest =>
      if pressed then placeModel (PoseOfHit pose) else tap_to_place pose rest
  | Some [] :: _ => raise (TypeError "pressed")
  | None :: rest => tap_to_place pose rest
  end.

(** [onXRFrame(frame)] *)
Definition onXRFrame (frame : XRFrame) : Async unit :=
  w <- get ;;
  match ARMode.xrHitTestSource (arMode w) with
  | None => ret tt
  | Some source =>
      update (record_event (GetHitTestResults source)) ;;
      match hitTestResults frame with
      | hit :: _ =>
          match hit with
          | Some pose =>
              set_reticle_visible true ;;
              w1 <- get ;;
              match ARMode.xrSession (arMode w1) with
              | Some _ => tap_to_place pose (inputSources frame)
              | None => raise (TypeError "inputSources")
              end
          | None => ret tt
          end
      | [] => set_reticle_visible false
      end
  end.

(** ** WebGLARApp (main.js): methods *)

(** The four characters that open the messages of the AR simulation in
    main.js as it is stored, U+F8FF, U+00FC, U+00EC and U+00B1 (what is
    left of a pictograph read in another encoding). *)
Definition garbled_pictograph : string :=
  String "239"%char (String "163"%char (String "191"%char
    (String "195"%char (String "188"%char
      (String "195"%char (String "172"%char
        (String "194"%char (String "177"%char EmptyString)))))))).

(** [showLoading(message)] *)
Definition showLoading (msg : string) (w : World) : World :=
  set_loadingDiv (Div.set_display "block" (Div.set_textContent msg (loadingDiv w))) w.

(** [hideLoading()] *)
Definition hideLoading (w : World) : World :=
  set_loadingDiv (Div.set_display "none" (loadingDiv w)) w.

(** [showError(message)] *)
Definition showError (msg : string) (w : World) : World :=
  record_event (ShowError msg)
    (set_errorDiv (Div.set_display "block" (Div.set_textContent msg (errorDiv w))) w).

(** [hideError()] *)
Definition hideError (w : World) : World :=
  set_errorDiv (Div.set_display "none" (errorDiv w)) w.

(** [async checkWebXRSupport()] *)
Definition checkWebXRSupport : Async unit :=
  catch
    (support <- awaitAsync WebXRUtils.checkWebXRSupport ;;
     if truthy (WebXRUtils.ar support) then
       update (set_hasWebXR true) ;;
       update (on_arButton (Button.set_disabled false)) ;;
       update (on_arButton (Button.set_textContent "Enter AR Mode"))
     else
       update (set_hasWebXR false) ;;
       w <- get ;;
       match isIOS w, currentModel w with
       | true, Some _ =>
           update (on_arButton (Button.set_disabled false)) ;;
           update (on_arButton (Button.set_textContent "AR Simulation")) ;;
           update (on_arButton (Button.set_title "Fallback AR mode for iOS (no WebXR)"))
       | true, None =>
           update (on_arButton (Button.set_disabled true)) ;;
           update (on_arButton (Button.set_textContent "Load Model First")) ;;
           update (on_arButton (Button.set_title (WebXRUtils.reason support)))
       | false, _ =>
           update (on_arButton (Button.set_disabled true)) ;;
           update (on_arButton (Button.set_textContent "AR Not Supported")) ;;
           update (on_arButton (Button.set_title (WebXRUtils.reason support)))
       end ;;
       if JsString.test_alternatives_i ["Mobi"; "Android"] (userAgent (navigator w)) then
         update (showError ("AR Debug: " ++ WebXRUtils.reason support ++ ". Device: "
                            ++ substring 0 50 (userAgent (navigator w)) ++ "..."))
       else ret tt)
    (fun error =>
       update (on_arButton (Button.set_disabled true)) ;;
       update (on_arButton (Button.set_textContent "AR Check Failed")) ;;
       update (showError ("WebXR support check failed: " ++ render_message error))).

(** [async loadModel(file)] *)
Definition loadModel (file : File) : Async unit :=
  catch
    (_ <- complete (ModelLoaderStatic.validateFile file) ;;
     update (showLoading "Loading model...") ;;
     update hideError ;;
     result <- awaitAsync (ModelLoader.loadModel file) ;;
     update (on_modelViewer ModelViewer.clearCurrentModel) ;;
     update (on_scene (Scene.add (model result))) ;;
     update (on_modelViewer (ModelViewer.set_currentModel (Some (model result)))) ;;
     update (set_currentModel (Some result)) ;;
     w <- get ;;
     (if hasWebXR w then
        update (on_arButton (Button.set_disabled false)) ;;
        update (on_arButton (Button.set_textContent "Enter AR Mode"))
      else if isIOS w then
        update (on_arButton (Button.set_disabled false)) ;;
        update (on_arButton (Button.set_textContent "AR Simulation")) ;;
        update (on_arButton (Button.set_title "iOS AR simulation mode (no WebXR)"))
      else ret tt) ;;
     update hideLoading)
    (fun error =>
       update (showError ("Failed to load model: " ++ render_message error)) ;;
       update hideLoading).

(** [async setupCameraBackground()] *)
Definition setupCameraBackground : Async unit :=
  catch
    (stream <- await (GetUserMedia "environment") ;;
     w <- get ;;
     update (set_body_videos (body_videos w ++ [stream])%list) ;;
     update (set_arVideoElement (Some stream)))
    (fun error => raise (Error ("Camera access failed: " ++ render_message error))).

(** [enableDeviceOrientation()]: it registers a listener that turns the
    camera with the device. *)
Definition enableDeviceOrientation (w : World) : World :=
  record_event EnableDeviceOrientation w.

(** [startBasicARSimulation()] *)
Definition startBasicARSimulation (w : World) : World :=
  let w := record_event (Entered startBasicARSimulation_) w in
  let w := set_isARActive true w in
  let w := on_arButton (Button.set_textContent "Exit AR Simulation") w in
  let w := set_body_ar_mode true w in
  let w := showError (garbled_pictograph ++ " Basic AR Simulation: Move your device to view the model from different angles.") w in
  if hasDeviceOrientationEvent (navigator w) then enableDeviceOrientation w else w.

(** [async startARSimulation()] *)
Definition startARSimulation : Async unit :=
  entered startARSimulation_ ;;
  catch
    (awaitAsync setupCameraBackground ;;
     update (set_isARActive true) ;;
     update (on_arButton (Button.set_textContent "Exit AR Simulation")) ;;
     update (set_body_ar_mode true) ;;
     update (showError (garbled_pictograph ++ " iOS AR Simulation: Camera active! Move your device to view the model. The model appears on a virtual surface.")) ;;
     w <- get ;;
     if hasDeviceOrientationEvent (navigator w) then update enableDeviceOrientation
     else ret tt)
    (fun error =>
       update (showError (garbled_pictograph ++ " Camera access denied. Using basic AR simulation without camera.")) ;;
       update startBasicARSimulation).

(** [async enterAR()] *)
Definition enterAR : Async unit :=
  entered enterAR_ ;;
  w <- get ;;
  match currentModel w with
  | None => update (showError "Please load a 3D model first")
  | Some _ =>
      catch
        (update (showLoading "Starting AR session...") ;;
         w1 <- get ;;
         (if hasWebXR w1 then
            _ <- awaitAsync startARSession ;;
            update (set_isARActive true) ;;
            update (on_arButton (Button.set_textContent "Exit AR")) ;;
            update (set_body_ar_mode true) ;;
            update (on_modelViewer (ModelViewer.set_animationLoop (Some ARFrameLoop)))
          else
            spawn startARSimulation) ;;
         update hideLoading)
        (fun error =>
           update (showError ("AR failed: " ++ render_message error)) ;;
           update hideLoading)
  end.

(** [element.remove()] on a video element of the body. *)
Fixpoint remove_element (stream : MediaStream) (elements : list MediaStream)
  : list MediaStream :=
  match elements with
  | [] => []
  | e :: rest => if (e =? stream)%nat then rest else e :: remove_element stream rest
  end.

(** [exitAR()] *)
Definition exitAR (w : World) : World :=
  let w := record_event (Entered exitAR_) w in
  let w :=
    if hasWebXR w then
      on_modelViewer (ModelViewer.set_animationLoop None) (endARSession w)
    else
      let w :=
        match arVideoElement w with
        | Some stream =>
            let w := record_event (StopTracks stream) w in
            let w := set_body_videos (remove_element stream (body_videos w)) w in
            set_arVideoElement None w
        | None => w
        end in
      hideError w in
  let w := set_isARActive false w in
  let w := on_arButton (Button.set_textContent
                          (if hasWebXR w then "Enter AR Mode" else "AR Simulation")) w in
  set_body_ar_mode false w.

(** ** Event listeners ([setupEventListeners], [enterAR], [startARSession]) *)

(** 'change' on the file input, 'drop' on the container: [file] is
    [files[0]], absent when the list is empty. *)
Definition onFileChosen (file : option File) : Async unit :=
  match file with
  | Some f => spawn (loadModel f)
  | None => ret tt
  end.

(** 'click' on the AR button. *)
Definition onARButtonClick : Async unit :=
  w <- get ;;
  if isARActive w then update exitAR else spawn enterAR.

(** The callback [enterAR] gives to [renderer.setAnimationLoop]. *)
Definition animationLoopCallback (frame : option XRFrame) : Async unit :=
  match frame with
  | Some f => onXRFrame f
  | None => ret tt
  end.

(** 'end' on a session [startARSession] put its listener on. *)
Definition onEndEvent (session : XRSession) : Async unit :=
  w <- get ;;
  update (set_endListeners (remove Nat.eq_dec session (endListeners w))) ;;
  update onSessionEnd.

(** A click on the AR button as the browser delivers it: a disabled
    button dispatches no 'click'. *)
Definition click_arButton : Async unit :=
  w <- get ;;
  if Button.disabled (arButton w) then ret tt else onARButtonClick.

(** ** Construction ([new WebGLARApp()]) *)

(** The world before the constructor's asynchronous checks have been
    started: the scene holds the three lights of [setupLighting]; the
    three elements are as the page declares them. *)
Definition initial_world (nav : Navigator) (button : Button.t) (loading error : Div.t) : World :=
  let ambientLight := mkObject 0 AmbientLight in
  let directionalLight := mkObject 1 DirectionalLight in
  let pointLight := mkObject 2 PointLight in
  let lights := [ambientLight; directionalLight; pointLight] in
  {| modelViewer := ModelViewer.mk lights None lights false None None;
     arMode := ARMode.mk None None None None None false;
     currentModel := None;
     isARActive := false;
     hasWebXR := false;
     isIOS := JsString.test_alternatives_i ["iPhone"; "iPad"; "iPod"] (userAgent nav);
     arButton := button;
     loadingDiv := loading;
     errorDiv := error;
     arVideoElement := None;
     body_ar_mode := false;
     body_videos := [];
     endListeners := [];
     navigator := nav;
     nextUuid := 3;
     trace := [] |}.

(** [init()]: [new ARMode(...)] starts [checkARSupport()], then
    [checkWebXRSupport()] is started; neither is awaited. *)
Definition init : Async unit :=
  spawn (void checkARSupport) ;;
  spawn checkWebXRSupport.

(** ** Running a computation *)

(** The environment's answers. *)
Definition Oracle : Type := forall c : Call, Settled (answer c).

(** Run to the end with nothing else happening in between: every call is
    answered at once, a detached computation goes on after the one that
    started it. *)
Fixpoint run {A : Type} (env : Oracle) (t : Task A) : World * Completion A :=
  match t with
  | Finished w r => (w, r)
  | Awaiting w c k => run env (k (env c) w)
  | Spawned c d t' =>
      let (w1, r) := run env t' in
      (fst (run env (d (env c) w1)), r)
  end.

(** The calls a computation can come to make, whatever the answers and
    whatever the world does meanwhile. *)
Fixpoint can_issue {A : Type} (t : Task A) (c' : Call) : Prop :=
  match t with
  | Finished _ _ => False
  | Awaiting _ c k => c = c' \/ exists o w', can_issue (k o w') c'
  | Spawned c d t' =>
      c = c' \/ (exists o w', can_issue (d o w') c') \/ can_issue t' c'
  end.

(** ** The event loop *)

(** A suspended computation: the call it waits for and what it does next. *)
Record Pending : Type :=
  mkPending { call : Call; resume : Settled (answer call) -> World -> Task unit }.

Record System : Type := mkSystem { world : World; pending : list Pending }.

(** What is left when a handler returns to the event loop. *)
Fixpoint install {A : Type} (t : Task A) (others : list Pending) : System :=
  match t with
  | Finished w _ => mkSystem w others
  | Awaiting w c k =>
      mkSystem w (mkPending c (fun o w' => Task_bind (k o w') (fun _ => ret tt)) :: others)
  | Spawned c d t' => install t' (mkPending c d :: others)
  end.

Definition dispatch (handler : Async unit) (sys : System) : System :=
  install (handler (world sys)) (pending sys).

(** [new WebGLARApp()] on a freshly loaded page. *)
Definition boot (nav : Navigator) (button : Button.t) (loading error : Div.t) : System :=
  install (init (initial_world nav button loading error)) [].

(** One turn of the event loop. *)
Inductive step : System -> System -> Prop :=
| step_file sys file :
    step sys (dispatch (onFileChosen file) sys)
| step_click sys :
    step sys (dispatch click_arButton sys)
| step_frame sys frame :
    ModelViewer.animationLoop (modelViewer (world sys)) = Some ARFrameLoop ->
    step sys (dispatch (animationLoopCallback frame) sys)
| step_end sys session :
    In session (endListeners (world sys)) ->
    step sys (dispatch (onEndEvent session) sys)
| step_settle w before p after o :
    step (mkSystem w (before ++ p :: after))
         (install (resume p o w) (before ++ after)).

Inductive reachable (nav : Navigator) (button : Button.t) (loading error : Div.t)
  : System -> Prop :=
| reach_boot : reachable nav button loading error (boot nav button loading error)
| reach_step s s' :
    reachable nav button loading error s -> step s s' ->
    reachable nav button loading error s'.

(** ** Notions used to state the properties *)

(** The last character of a string. *)
Fixpoint last_char (s : string) : option ascii :=
  match s with
  | EmptyString => None
  | String c EmptyString => Some c
  | String _ rest => last_char rest
  end.

(** The branch [ModelLoader.loadModel] takes for a file. *)
Definition is_gltf_name (file : File) : bool :=
  let fileName := JsString.toLowerCase (name file) in
  JsString.endsWith fileName ".glb" || JsString.endsWith fileName ".gltf".

Definition is_stl_name (file : File) : bool :=
  negb (is_gltf_name file)
  && JsString.endsWith (JsString.toLowerCase (name file)) ".stl".

(** The ways a load fails, by what the environment answers, each with the
    error that reaches the [catch] of [WebGLARApp.loadModel]: the file is
    refused by [validateFile]; the reader fails; the parser reports a
    failure; the glTF parsed has no scene. *)
Inductive load_failure (env : Oracle) (file : File) : Exn -> Prop :=
| refused e :
    ModelLoaderStatic.validateFile file = Throw e ->
    load_failure env file e
| gltf_unreadable e :
    ModelLoaderStatic.validateFile file = Normal true ->
    is_gltf_name file = true ->
    env (ReadAsArrayBuffer file) = Rejected e ->
    load_failure env file (Error "Failed to read file")
| gltf_unparsable data e :
    ModelLoaderStatic.validateFile file = Normal true ->
    is_gltf_name file = true ->
    env (ReadAsArrayBuffer file) = Fulfilled data ->
    env (GLTFParse data) = Rejected e ->
    load_failure env file
      (Error ("Failed to parse glTF file: " ++ message_or e "Unknown error"))
| gltf_without_scene data parsed :
    ModelLoaderStatic.validateFile file = Normal true ->
    is_gltf_name file = true ->
    env (ReadAsArrayBuffer file) = Fulfilled data ->
    env (GLTFParse data) = Fulfilled (Parsed parsed) ->
    gltf_scene parsed = false ->
    load_failure env file
      (Error ("Failed to parse glTF file: "
              ++ message_or (TypeError "updateWorldMatrix") "Unknown error"))
| stl_unreadable e :
    ModelLoaderStatic.validateFile file = Normal true ->
    is_stl_name file = true ->
    env (ReadAsArrayBuffer file) = Rejected e ->
    load_failure env file e
| stl_unparsable data e :
    ModelLoaderStatic.validateFile file = Normal true ->
    is_stl_name file = true ->
    env (ReadAsArrayBuffer file) = Fulfilled data ->
    env (STLParse data) = Rejected e ->
    load_failure env file e.

(** A load succeeds: the file is accepted, read and parsed; what the
    loader resolves with, but for the model object itself. *)
Inductive load_success (env : Oracle) (file : File) : list string -> ModelType -> Prop :=
| gltf_loaded data parsed :
    ModelLoaderStatic.validateFile file = Normal true ->
    is_gltf_name file = true ->
    env (ReadAsArrayBuffer file) = Fulfilled data ->
    env (GLTFParse data) = Fulfilled (Parsed parsed) ->
    gltf_scene parsed = true ->
    load_success env file (gltf_animations parsed) gltf
| stl_loaded data :
    ModelLoaderStatic.validateFile file = Normal true ->
    is_stl_name file = true ->
    env (ReadAsArrayBuffer file) = Fulfilled data ->
    env (STLParse data) = Fulfilled tt ->
    load_success env file [] stl.

(** A load stalls: the file is accepted and read, and the glTF parser
    throws with [e] inside the reader's [onload] callback. *)
Inductive load_stalls (env : Oracle) (file : File) : Exn -> Prop :=
| gltf_parser_throws data e :
    ModelLoaderStatic.validateFile file = Normal true ->
    is_gltf_name file = true ->
    env (ReadAsArrayBuffer file) = Fulfilled data ->
    env (GLTFParse data) = Fulfilled (Threw e) ->
    load_stalls env file e.

(** The last lines of the [try] block of [WebGLARApp.loadModel], from
    [clearCurrentModel()] on. *)
Definition display_result (result : LoadResult) (w : World) : World :=
  let w := on_modelViewer ModelViewer.clearCurrentModel w in
  let w := on_scene (Scene.add (model result)) w in
  let w := on_modelViewer (ModelViewer.set_currentModel (Some (model result))) w in
  let w := set_currentModel (Some result) w in
  let w :=
    if hasWebXR w then
      on_arButton (Button.set_textContent "Enter AR Mode")
        (on_arButton (Button.set_disabled false) w)
    else if isIOS w then
      on_arButton (Button.set_title "iOS AR simulation mode (no WebXR)")
        (on_arButton (Button.set_textContent "AR Simulation")
           (on_arButton (Button.set_disabled false) w))
    else w in
  hideLoading w.

(** Ghost: note several events, in the order they happen. *)
Definition record_events (evs : list Event) (w : World) : World :=
  fold_left (fun w e => record_event e w) evs w.

(** Between [w] and [w'] the events [evs] were recorded, in this order,
    and no other. *)
Definition happened (w w' : World) (evs : list Event) : Prop :=
  trace w' = (rev evs ++ trace w)%list.


(** The calls issued, as a trace shows them. *)
Fixpoint issued (evs : list Event) : list Call :=
  match evs with
  | [] => []
  | Issued c :: rest => c :: issued rest
  | _ :: rest => issued rest
  end.

(** The messages shown, as a trace shows them. *)
Fixpoint shown (evs : list Event) : list string :=
  match evs with
  | [] => []
  | ShowError msg :: rest => msg :: shown rest
  | _ :: rest => shown rest
  end.

(** The methods entered, as a trace shows them. *)
Fixpoint entries (evs : list Event) : list Method :=
  match evs with
  | [] => []
  | Entered m :: rest => m :: entries rest
  | _ :: rest => entries rest
  end.

(** A request that starts an AR session or the camera of the simulation. *)
Definition starts_session (c : Call) : bool :=
  match c with
  | RequestSession _ _ _ => true
  | GetUserMedia _ => true
  | _ => false
  end.

(** ** Scenarios *)

(** The page's markup is not among the sources; the scenarios start from
    a disabled AR button and two hidden boxes. *)
Definition page_button : Button.t := Button.mk true "Enter AR Mode" "".
Definition hidden_box : Div.t := Div.mk "" "none".

Definition android_phone : Navigator :=
  mkNavigator "Mozilla/5.0 (Linux; Android 13; Pixel 7) AppleWebKit/537.36 Chrome/120.0 Mobile Safari/537.36"
              true true.

Definition iphone : Navigator :=
  mkNavigator "Mozilla/5.0 (iPhone; CPU iPhone OS 16_0 like Mac OS X) AppleWebKit/605.1.15 Version/16.0 Mobile/15E148 Safari/604.1"
              false true.

Definition laptop : Navigator :=
  mkNavigator "Mozilla/5.0 (X11; Linux x86_64; rv:120.0) Gecko/20100101 Firefox/120.0"
              false false.

Definition duck : File := mkFile "Duck.glb" 120484.
Definition bracket : File := mkFile "bracket.STL" 68084.
Definition notes : File := mkFile "notes.txt" 12.
Definition huge : File := mkFile "city.gltf" 52428801.

(** An environment in which every call succeeds. *)
Definition cooperative : Oracle :=
  fun c =>
    match c return Settled (answer c) with
    | Microtask => Fulfilled tt
    | IsSessionSupported _ => Fulfilled true
    | RequestSession _ _ _ => Fulfilled 100
    | RequestReferenceSpace _ spaceType =>
        Fulfilled (if String.eqb spaceType "viewer" then 201 else 200)
    | RequestHitTestSource _ _ => Fulfilled 300
    | GetUserMedia _ => Fulfilled 400
    | ReadAsArrayBuffer _ => Fulfilled []
    | GLTFParse _ => Fulfilled (Parsed (mkGLTF true ["Walk"]))
    | STLParse _ => Fulfilled tt
    end.


(** The same, but the glTF parser reports a failure. *)
Definition broken_gltf : Oracle :=
  fun c =>
    match c return Settled (answer c) with
    | GLTFParse _ =>
        Rejected (Error "THREE.GLTFLoader: Unsupported asset. glTF versions >=2.0 are supported.")
    | c' => cooperative c'
    end.

(** The same, but the glTF parser throws: the file is not JSON. *)
Definition malformed_gltf : Oracle :=
  fun c =>
    match c return Settled (answer c) with
    | GLTFParse _ => Fulfilled (Threw (Error "Unexpected token h in JSON at position 0"))
    | c' => cooperative c'
    end.

(** The same, but the glTF file declares no scene. *)
Definition sceneless_gltf : Oracle :=
  fun c =>
    match c return Settled (answer c) with
    | GLTFParse _ => Fulfilled (Parsed (mkGLTF false []))
    | c' => cooperative c'
    end.


(** The same, but the platform refuses the AR session. *)
Definition session_refused : Oracle :=
  fun c =>
    match c return Settled (answer c) with
    | RequestSession _ _ _ => Rejected (Error "The specified session configuration is not supported.")
    | c' => cooperative c'
    end.

(** The application once its support checks have come back. *)
Definition started (nav : Navigator) : World :=
  fst (run cooperative (init (initial_world nav page_button hidden_box hidden_box))).

(** ... and a model has been loaded. *)
Definition with_model (nav : Navigator) : World :=
  fst (run cooperative (loadModel duck (started nav))).

(** ... and AR has been entered on the phone with WebXR. *)
Definition in_ar : World :=
  fst (run cooperative (click_arButton (with_model android_phone))).

(** A frame with one hit on a surface while the screen is tapped. *)
Definition tap_frame : XRFrame := mkXRFrame [Some 7] [Some [true]].

(** ... and the frame loop has run on that frame. *)
Definition tapped : World :=
  fst (run cooperative (animationLoopCallback (Some tap_frame) in_ar)).

(** [scene.remove(x)] under [if (x)]. *)
Definition remove_if_set (x : option Object3D) (children : Scene.t) : Scene.t :=
  match x with
  | Some object => Scene.remove object children
  | None => children
  end.

(** The scene of a world, and the two references to models. *)
Definition scene_of (w : World) : Scene.t := ModelViewer.scene (modelViewer w).
Definition shown_model (w : World) : option Object3D :=
  ModelViewer.currentModel (modelViewer w).
Definition placed_model (w : World) : option Object3D := ARMode.placedModel (arMode w).

Definition is_microtask (c : Call) : bool :=
  match c with
  | Microtask => true
  | _ => false
  end.

(** A computation makes its calls in a fixed order, each one only once the
    one before has been fulfilled: whatever the answers and whatever the
    world has become at each resumption, the calls it suspends at (turns
    of the job queue apart) are, one after the other, as [expected]
    describes them; after a rejection it makes no further call; it
    detaches nothing. *)
Fixpoint in_order {A : Type} (t : Task A) (expected : list (Call -> Prop)) : Prop :=
  match t with
  | Finished _ _ => True
  | Awaiting _ c k =>
      if is_microtask c then forall o w', in_order (k o w') expected
      else
        match expected with
        | [] => False
        | next :: later =>
            next c
            /\ (forall v w', in_order (k (Fulfilled v) w') later)
            /\ (forall e w', in_order (k (Rejected e) w') [])
        end
  | Spawned _ _ _ => False
  end.

(** The four platform calls of the AR session setup. *)
Definition requests_ar_session (c : Call) : Prop :=
  c = RequestSession "immersive-ar" ["hit-test"] ["dom-overlay"].
Definition requests_reference_space (c : Call) : Prop :=
  exists session spaceType, c = RequestReferenceSpace session spaceType.
Definition requests_hit_test_source (c : Call) : Prop :=
  exists session space, c = RequestHitTestSource session space.

(** The hit-test results read, as a trace shows them. *)
Fixpoint hit_test_reads (evs : list Event) : list XRHitTestSource :=
  match evs with
  | [] => []
  | GetHitTestResults source :: rest => source :: hit_test_reads rest
  | _ :: rest => hit_test_reads rest
  end.

(** ** Invariants of the event loop

    [Inv] is to hold whenever the event loop has control; [Seg s w] is
    what an uninterrupted stretch of code, started in [s] and come to [w],
    guarantees.  A computation started in [s] is safe for a postcondition
    [Q] when it reaches its end with [Q], leaves the loop a world with
    [Inv] and [Seg] at every suspension, and stays safe when resumed in
    any world with [Inv]; what it detaches is safe likewise. *)
Section Safety.

Variable Inv : World -> Prop.
Variable Seg : World -> World -> Prop.

Definition settled {A : Type} (s w : World) (_ : Completion A) : Prop :=
  Inv w /\ Seg s w.

Fixpoint safe {A : Type} (Q : World -> World -> Completion A -> Prop)
         (s : World) (t : Task A) : Prop :=
  match t with
  | Finished w r => Q s w r
  | Awaiting w c k =>
      (Inv w /\ Seg s w) /\ forall o w', Inv w' -> safe Q w' (k o w')
  | Spawned c d t' =>
      (forall o w', Inv w' -> safe (@settled unit) w' (d o w')) /\ safe Q s t'
  end.

(** A suspended computation that is safe to resume. *)
Definition resumable (p : Pending) : Prop :=
  forall o w', Inv w' -> safe (@settled unit) w' (resume p o w').

(** The invariant of the event loop. *)
Definition stable (sys : System) : Prop :=
  Inv (world sys) /\ Forall resumable (pending sys).

End Safety.

(** What the scene holds: distinct children, and no model root but the
    viewer's current model; the application's [currentModel] is the
    result whose model the viewer shows; no clone is placed. *)
Definition scene_ok (w : World) : Prop :=
  NoDup (map uuid (scene_of w))
  /\ (forall o, In o (scene_of w) -> is_model o = true -> shown_model w = Some o)
  /\ option_map model (currentModel w) = shown_model w
  /\ placed_model w = None.

(** A hit-test source has been obtained: some request for one was
    fulfilled. *)
Definition hit_test_ready (evs : list Event) : Prop :=
  exists session space, In (Resumed (RequestHitTestSource session space) true) evs.

(** Hit-test results are read only once a hit-test source has been
    obtained ([evs] has the most recent event first). *)
Fixpoint reads_after_ready (evs : list Event) : Prop :=
  match evs with
  | [] => True
  | GetHitTestResults _ :: older => hit_test_ready older /\ reads_after_ready older
  | _ :: older => reads_after_ready older
  end.

Definition reads_ok (w : World) : Prop :=
  (ARMode.xrHitTestSource (arMode w) <> None -> hit_test_ready (trace w))
  /\ reads_after_ready (trace w).

Definition app_ok (w : World) : Prop := scene_ok w /\ reads_ok w.

(** [newer] is what was recorded on top of [older]. *)
Inductive extends (older : list Event) : list Event -> list Event -> Prop :=
| extends_none : extends older older []
| extends_more e tr evs : extends older tr evs -> extends older (e :: tr) (e :: evs).

(** No request for an AR session or for the camera among the events. *)
Definition quiet (evs : list Event) : Prop :=
  forallb (fun c => negb (starts_session c)) (issued evs) = true.

(** While AR is active, a stretch of code requests no session and no
    camera. *)
Definition no_reentry (s w : World) : Prop :=
  isARActive s = true -> exists evs, extends (trace s) (trace w) evs /\ quiet evs.

(** ** Scenarios of the event loop *)

(** The environment settles the computation suspended last. *)
Definition settle_newest (env : Oracle) (sys : System) : System :=
  match pending sys with
  | [] => sys
  | p :: rest => install (resume p (env (call p)) (world sys)) rest
  end.

(** ... and goes on doing so, [n] times. *)
Fixpoint drain (env : Oracle) (n : nat) (sys : System) : System :=
  match n with
  | 0 => sys
  | S n' => drain env n' (settle_newest env sys)
  end.



(** ** ModelLoader: the formats it lists *)

(** [static getSupportedFormats()] *)
Record Format : Type := mkFormat { extension : string; description : string }.

Definition getSupportedFormats : list Format :=
  [ mkFormat ".glb" "Binary glTF";
    mkFormat ".gltf" "glTF JSON";
    mkFormat ".stl" "STL (3D Printing)" ].

(** A computation that has suspended at the call [c]. *)
Definition suspends_at {A : Type} (t : Task A) (c : Call) : Prop :=
  exists w k, t = Awaiting w c k.

(** ** Notions used to state the further properties *)

(** The body of the [try] block of [WebGLARApp.checkWebXRSupport] once
    [support] is there. *)
Definition apply_support (support : WebXRUtils.Support) (w : World) : World :=
  if truthy (WebXRUtils.ar support) then
    on_arButton (Button.set_textContent "Enter AR Mode")
      (on_arButton (Button.set_disabled false) (set_hasWebXR true w))
  else
    let w := set_hasWebXR false w in
    let w :=
      match isIOS w, currentModel w with
      | true, Some _ =>
          on_arButton (Button.set_title "Fallback AR mode for iOS (no WebXR)")
            (on_arButton (Button.set_textContent "AR Simulation")
               (on_arButton (Button.set_disabled false) w))
      | true, None =>
          on_arButton (Button.set_title (WebXRUtils.reason support))
            (on_arButton (Button.set_textContent "Load Model First")
               (on_arButton (Button.set_disabled true) w))
      | false, _ =>
          on_arButton (Button.set_title (WebXRUtils.reason support))
            (on_arButton (Button.set_textContent "AR Not Supported")
               (on_arButton (Button.set_disabled true) w))
      end in
    if JsString.test_alternatives_i ["Mobi"; "Android"] (userAgent (navigator w)) then
      showError ("AR Debug: " ++ WebXRUtils.reason support ++ ". Device: "
                 ++ substring 0 50 (userAgent (navigator w)) ++ "...") w
    else w.

(** Both probes of [WebXRUtils.checkWebXRSupport] are answered, and the
    first with [true]. *)
Definition ar_is_reported (env : Oracle) (nav : Navigator) : Prop :=
  xrInNavigator nav = true
  /\ env (IsSessionSupported "immersive-ar") = Fulfilled true
  /\ exists vr, env (IsSessionSupported "immersive-vr") = Fulfilled vr.

(** The ways the setup of a granted AR session fails, each with the error
    that reaches the [catch] of [enterAR] and with whether the reticle had
    been created by then. *)
Inductive setup_failure (env : Oracle) (session : XRSession) : bool -> Exn -> Prop :=
| floor_refused e :
    env (RequestReferenceSpace session "local-floor") = Rejected e ->
    setup_failure env session false e
| viewer_refused floor e :
    env (RequestReferenceSpace session "local-floor") = Fulfilled floor ->
    env (RequestReferenceSpace session "viewer") = Rejected e ->
    setup_failure env session true e
| source_refused floor viewer e :
    env (RequestReferenceSpace session "local-floor") = Fulfilled floor ->
    env (RequestReferenceSpace session "viewer") = Fulfilled viewer ->
    env (RequestHitTestSource session viewer) = Rejected e ->
    setup_failure env session true e.

(** The AR helper before any session: nothing held, AR supported. *)
Definition idle_helper : ARMode.t := ARMode.mk None None None None None true.

(** No call of [xrSession.end()] among the events. *)
Definition ends_no_session (evs : list Event) : Prop :=
  forall session, ~ In (SessionEnd session) evs.

(** The first button of an input source's gamepad is pressed. *)
Definition primary_pressed (source : option (list bool)) : bool :=
  match source with
  | Some (pressed :: _) => pressed
  | _ => false
  end.

(** The input source has no gamepad, or a gamepad with a button. *)
Definition has_primary_button (source : option (list bool)) : Prop :=
  source <> Some [].

(** ** ModelViewer.loadModel (components/ModelViewer.js)

    [loadModel(file)] of the viewer itself: a promise around a
    [FileReader] and [GLTFLoader.parse].  Its [onLoad] callback first
    clears the current model, then measures [gltf.scene], which throws a
    [TypeError] when [gltf.scene] is [undefined], then adds it to the
    scene; [onError] is [reject], as is the reader's [onerror].  The viewer
    of the single-page version, [SimpleModelViewer], has the same
    method. *)
Definition ModelViewer_loadModel (file : File) : Async Object3D :=
  data <- await (ReadAsArrayBuffer file) ;;
  GLTFLoader_parse data
    (fun parsed =>
       update (on_modelViewer ModelViewer.clearCurrentModel) ;;
       if gltf_scene parsed then
         model <- allocate ModelRoot ;;
         update (on_scene (Scene.add model)) ;;
         update (on_modelViewer (ModelViewer.set_currentModel (Some model))) ;;
         ret model
       else raise (TypeError "updateWorldMatrix"))
    (fun error => raise error).

(** ** SimpleApp (the single-page version) *)

Module SimpleApp.

(** [fileName.match(/\.(glb|gltf)$/)] is not null: the pattern has no
    flag, so [$] is the end of the input. *)
Definition matches_gltf (fileName : string) : bool :=
  JsString.endsWith fileName ".glb" || JsString.endsWith fileName ".gltf".

(** [checkARSupport()]: the promise of [isSessionSupported] gets a [then]
    callback and no [catch]. *)
Definition checkARSupport : Async unit :=
  w <- get ;;
  if xrInNavigator (navigator w) then
    spawn (supported <- await (IsSessionSupported "immersive-ar") ;;
           if (supported : bool) then
             update (on_arButton (Button.set_disabled false)) ;;
             update (on_arButton (Button.set_textContent "AR Available (use dev server)"))
           else
             update (on_arButton (Button.set_textContent "AR Not Supported")))
  else
    update (on_arButton (Button.set_textContent "WebXR Not Available")).

(** [async loadModel(file)] *)
Definition loadModel (file : File) : Async unit :=
  catch
    ((if negb (matches_gltf (JsString.toLowerCase (name file))) then
        raise (Error "Only glTF (.glb, .gltf) files supported in simple version")
      else ret tt) ;;
     update (showLoading "Loading model...") ;;
     update hideError ;;
     _ <- awaitAsync (ModelViewer_loadModel file) ;;
     update hideLoading)
    (fun error =>
       update (showError ("Failed to load model: " ++ render_message error)) ;;
       update hideLoading).

(** 'change' on the file input, 'drop' on the container. *)
Definition onFileChosen (file : option File) : Async unit :=
  match file with
  | Some f => spawn (loadModel f)
  | None => ret tt
  end.

(** [new SimpleApp()] on a freshly loaded page. *)
Definition boot (nav : Navigator) (button : Button.t) (loading error : Div.t) : System :=
  install (checkARSupport (initial_world nav button loading error)) [].

(** One turn of the event loop of the single-page version. *)
Inductive step : System -> System -> Prop :=
| step_file sys file :
    step sys (dispatch (onFileChosen file) sys)
| step_settle w before p after o :
    step (mkSystem w (before ++ p :: after))
         (install (resume p o w) (before ++ after)).

Inductive reachable (nav : Navigator) (button : Button.t) (loading error : Div.t)
  : System -> Prop :=
| reach_boot : reachable nav button loading error (boot nav button loading error)
| reach_step s s' :
    reachable nav button loading error s -> step s s' ->
    reachable nav button loading error s'.

End SimpleApp.

(** What the scene of the single-page version holds: distinct children,
    and no model root but the viewer's current model. *)
Definition one_model (w : World) : Prop :=
  NoDup (map uuid (scene_of w))
  /\ (forall o, In o (scene_of w) -> is_model o = true -> shown_model w = Some o).

(** Nothing is asked of a stretch of code. *)
Definition any_stretch (s w : World) : Prop := True.

(** ** The lights and their intensities
    ([ModelViewer.setupLighting], [ARMode.setupARLighting],
    [ARMode.resetLighting]) *)

Module Lighting.

Definition Number : Type := QArith_base.Q.

(** [n / d], for the decimal literals of the source. *)
Definition decimal (n : Z) (d : positive) : Number := QArith_base.Qmake n d.

(** A light of [modelViewer.lights]: the object, whose [kind] is what
    [light.type] reads, and its [intensity]. *)
Record Light : Type := mkLight { object : Object3D; intensity : Number }.

(** [light.type === k] *)
Definition has_type (k : ObjectKind) (l : Light) : bool :=
  match kind (object l), k with
  | AmbientLight, AmbientLight => true
  | DirectionalLight, DirectionalLight => true
  | PointLight, PointLight => true
  | ReticleMesh, ReticleMesh => true
  | ModelRoot, ModelRoot => true
  | _, _ => false
  end.

(** [const l = lights.find(light => light.type === k); if (l) l.intensity = v] *)
Fixpoint set_intensity (k : ObjectKind) (v : Number) (lights : list Light) : list Light :=
  match lights with
  | [] => []
  | l :: rest =>
      if has_type k l then mkLight (object l) v :: rest
      else l :: set_intensity k v rest
  end.

(** [ModelViewer.setupLighting()]: the lights it creates, in the order it
    pushes them. *)
Definition setupLighting : list Light :=
  [ mkLight (mkObject 0 AmbientLight) (decimal 6%Z 10%positive);
    mkLight (mkObject 1 DirectionalLight) (decimal 8%Z 10%positive);
    mkLight (mkObject 2 PointLight) (decimal 3%Z 10%positive) ].

(** [ARMode.setupARLighting()], given [this.xrSession] by its
    [environmentBlendMode]: the lights it leaves and its completion. *)
Definition setupARLighting (xrSession : option string) (lights : list Light)
  : list Light * Completion unit :=
  let lights := set_intensity AmbientLight (decimal 3%Z 10%positive) lights in
  match xrSession with
  | None => (lights, Throw (TypeError "environmentBlendMode"))
  | Some environmentBlendMode =>
      if String.eqb environmentBlendMode "additive" then
        (set_intensity DirectionalLight (decimal 5%Z 10%positive) lights, Normal tt)
      else (lights, Normal tt)
  end.

(** [ARMode.resetLighting()] *)
Definition resetLighting (lights : list Light) : list Light :=
  set_intensity DirectionalLight (decimal 8%Z 10%positive)
    (set_intensity AmbientLight (decimal 6%Z 10%positive) lights).

End Lighting.

(** ** WebXRUtils: the session requests and the button *)

(** A property of an options object: the key is absent, or it is there
    with the value [undefined], or with a value. *)
Inductive Property (A : Type) : Type :=
| Absent
| Undefined
| Value (a : A).
Arguments Absent {A}.
Arguments Undefined {A}.
Arguments Value {A} a.

Module WebXRUtilsStatic.

(** The feature lists of an [XRSessionInit] object.  (The [domOverlay]
    key is merged in the same way; it is not part of a [Call].) *)
Record SessionInit : Type := mkSessionInit {
  requiredFeatures : Property (list string);
  optionalFeatures : Property (list string)
}.

(** One key of [{ ...defaults, ...options }]. *)
Definition spread_key {A : Type} (default option : Property A) : Property A :=
  match option with
  | Absent => default
  | _ => option
  end.

(** [{ ...defaultOptions, ...options }] *)
Definition spread (defaultOptions options : SessionInit) : SessionInit :=
  mkSessionInit
    (spread_key (requiredFeatures defaultOptions) (requiredFeatures options))
    (spread_key (optionalFeatures defaultOptions) (optionalFeatures options)).

(** The features the platform is asked for: a key that is absent or
    [undefined] is an empty list. *)
Definition features (p : Property (list string)) : list string :=
  match p with
  | Value l => l
  | _ => []
  end.

(** [navigator.xr.requestSession(mode, sessionOptions)] *)
Definition requestSession (mode : string) (sessionOptions : SessionInit) : Async XRSession :=
  w <- get ;;
  if xrInNavigator (navigator w) then
    await (RequestSession mode (features (requiredFeatures sessionOptions))
                               (features (optionalFeatures sessionOptions)))
  else raise (TypeError "requestSession").

(** [static async requestARSession(options = {})] *)
Definition requestARSession (options : SessionInit) : Async XRSession :=
  let defaultOptions :=
    mkSessionInit (Value ["hit-test"]) (Value ["dom-overlay"; "light-estimation"]) in
  let sessionOptions := spread defaultOptions options in
  catch (session <- requestSession "immersive-ar" sessionOptions ;; ret session)
        (fun error =>
           raise (Error ("Failed to request AR session: " ++ render_message error))).

(** [static async requestVRSession(options = {})] *)
Definition requestVRSession (options : SessionInit) : Async XRSession :=
  let defaultOptions :=
    mkSessionInit Absent (Value ["local-floor"; "bounded-floor"; "hand-tracking"]) in
  let sessionOptions := spread defaultOptions options in
  catch (session <- requestSession "immersive-vr" sessionOptions ;; ret session)
        (fun error =>
           raise (Error ("Failed to request VR session: " ++ render_message error))).

(** [static getXRSupportedFeatures()] *)
Record SupportedFeatures : Type :=
  mkSupportedFeatures { required : list string; optional : list string }.

Definition getXRSupportedFeatures : SupportedFeatures :=
  mkSupportedFeatures
    ["hit-test"]
    ["dom-overlay"; "light-estimation"; "local-floor"; "bounded-floor"; "hand-tracking";
     "anchors"; "depth-sensing"].

End WebXRUtilsStatic.

(** What a caller's key comes to, given the default. *)
Definition requested (default : list string) (option : Property (list string)) : list string :=
  match option with
  | Absent => default
  | Undefined => []
  | Value l => l
  end.

(** ** The listeners of [window]

    A listener is found again by its type and by the identity of its
    callback; every evaluation of a function expression makes a new
    function object. *)

Module Window.

Record Listener : Type := mkListener { type : string; callback : nat }.

Record t : Type := mk { listeners : list Listener; nextFunction : nat }.

Definition same_listener (a b : Listener) : bool :=
  String.eqb (type a) (type b) && (callback a =? callback b)%nat.

(** The evaluation of a function expression. *)
Definition function_expression (win : t) : nat * t :=
  (nextFunction win, mk (listeners win) (S (nextFunction win))).

(** [window.addEventListener(type, callback)]: nothing is added when the
    same callback is there for the type. *)
Definition addEventListener (ty : string) (f : nat) (win : t) : t :=
  if existsb (same_listener (mkListener ty f)) (listeners win) then win
  else mk (listeners win ++ [mkListener ty f]) (nextFunction win).

Fixpoint remove_listener (l : Listener) (ls : list Listener) : list Listener :=
  match ls with
  | [] => []
  | l' :: rest => if same_listener l' l then rest else l' :: remove_listener l rest
  end.

(** [window.removeEventListener(type, callback)]; the callback may be
    [undefined]. *)
Definition removeEventListener (ty : string) (f : option nat) (win : t) : t :=
  match f with
  | Some f => mk (remove_listener (mkListener ty f) (listeners win)) (nextFunction win)
  | None => win
  end.

(** The listeners for a type. *)
Definition listening (ty : string) (win : t) : list Listener :=
  filter (fun l => String.eqb (type l) ty) (listeners win).

End Window.

(** [ModelViewer.init()], as far as [window] goes. *)
Definition ModelViewer_init_window (win : Window.t) : Window.t :=
  let (onResize, win) := Window.function_expression win in
  Window.addEventListener "resize" onResize win.

(** [ModelViewer.dispose()]: the viewer and [window]. *)
Definition ModelViewer_dispose (w : World) (win : Window.t) : World * Window.t :=
  let w := on_modelViewer ModelViewer.clearCurrentModel w in
  let (onResize, win) := Window.function_expression win in
  (w, Window.removeEventListener "resize" (Some onResize) win).

(** [WebGLARApp.enableDeviceOrientation()], as far as [window] goes, once
    the promise of [DeviceOrientationEvent.requestPermission()] has
    settled, where there is such a function. *)
Definition enableDeviceOrientation_window
           (requestPermission : option (Settled string)) (win : Window.t) : Window.t :=
  let (handleOrientation, win) := Window.function_expression win in
  match requestPermission with
  | Some (Fulfilled response) =>
      if String.eqb response "granted" then
        Window.addEventListener "deviceorientation" handleOrientation win
      else win
  | Some (Rejected _) => win
  | None => Window.addEventListener "deviceorientation" handleOrientation win
  end.

(** [WebGLARApp.exitAR()] without WebXR, as far as [window] goes: it
    passes [this.handleOrientation], a property the class never sets. *)
Definition exitAR_window (win : Window.t) : Window.t :=
  Window.removeEventListener "deviceorientation" None win.

(** Every function object in use was made before. *)
Definition functions_known (win : Window.t) : Prop :=
  Forall (fun l => Window.callback l < Window.nextFunction win) (Window.listeners win).

(** The simulation entered and left [n] times over. *)
Fixpoint simulation_rounds (n : nat) (win : Window.t) : Window.t :=
  match n with
  | 0 => win
  | S n' => simulation_rounds n' (exitAR_window (enableDeviceOrientation_window None win))
  end.

(** ** The position and scale of the loaded model
    ([startARSimulation], [startBasicARSimulation], [exitAR])

    [this.currentModel.model.position] and [.scale]: the loader leaves
    them as [processModel] computed them from the bounding box. *)

Module Placement.

Definition Number : Type := Lighting.Number.

Record Vector3 : Type := mkVector3 { x : Number; y : Number; z : Number }.

(** [position] and [scale] of the model of [currentModel]. *)
Record t : Type := mk { position : Vector3; scale : Vector3 }.

(** [v.set(x, y, z)] with the literals of the source. *)
Definition on_surface : t :=
  mk (mkVector3 (Lighting.decimal 0%Z 1%positive) (Lighting.decimal (-5)%Z 10%positive)
                (Lighting.decimal 0%Z 1%positive))
     (mkVector3 (Lighting.decimal 3%Z 10%positive) (Lighting.decimal 3%Z 10%positive)
                (Lighting.decimal 3%Z 10%positive)).

Definition at_origin : t :=
  mk (mkVector3 (Lighting.decimal 0%Z 1%positive) (Lighting.decimal 0%Z 1%positive)
                (Lighting.decimal 0%Z 1%positive))
     (mkVector3 (Lighting.decimal 1%Z 1%positive) (Lighting.decimal 1%Z 1%positive)
                (Lighting.decimal 1%Z 1%positive)).

(** [startARSimulation()] once the camera is granted, and
    [startBasicARSimulation()]:
    [if (this.currentModel) { position.set(0, -0.5, 0); scale.set(0.3, 0.3, 0.3) }] *)
Definition startARSimulation (currentModel : option t) : option t :=
  match currentModel with
  | Some _ => Some on_surface
  | None => None
  end.

(** [exitAR()]: without WebXR,
    [if (this.currentModel) { position.set(0, 0, 0); scale.set(1, 1, 1) }] *)
Definition exitAR (hasWebXR : bool) (currentModel : option t) : option t :=
  if hasWebXR then currentModel
  else match currentModel with
       | Some _ => Some at_origin
       | None => None
       end.

End Placement.

(** ** Further scenarios *)

(** The same as [cooperative], but the platform refuses the hit-test
    source. *)
Definition hit_test_refused : Oracle :=
  fun c =>
    match c return Settled (answer c) with
    | RequestHitTestSource _ _ => Rejected (Error "Hit test is not supported.")
    | c' => cooperative c'
    end.

(** The single-page version: the page is loaded and the support check
    comes back; a model is chosen and loaded; then another one. *)
Definition simple_started : System :=
  drain cooperative 1 (SimpleApp.boot laptop page_button hidden_box hidden_box).
Definition simple_with_model : System :=
  drain cooperative 3 (dispatch (SimpleApp.onFileChosen (Some duck)) simple_started).
Definition simple_with_second_model : System :=
  drain cooperative 3 (dispatch (SimpleApp.onFileChosen (Some duck)) simple_with_model).

(** ** ModelLoader: the meshes of a model and their materials
    ([processModel], [setupMaterial])

    Materials are objects that meshes may share: they live in a heap and
    are referred to by identity. *)

Module Materials.

Definition MaterialId : Type := nat.

(** A material, as far as [setupMaterial] looks at it. *)
Record Material : Type := mkMaterial {
  isMeshStandardMaterial : bool;
  isMeshPhongMaterial : bool;
  isMeshBasicMaterial : bool;
  isMeshLambertMaterial : bool;
  needsUpdate : bool;                 (* [needsUpdate = true] was assigned *)
  color : nat;
  map : option nat;                   (* the texture, by identity *)
  transparent : bool;
  opacity : Lighting.Number
}.

Definition set_needsUpdate (v : bool) (m : Material) : Material :=
  mkMaterial (isMeshStandardMaterial m) (isMeshPhongMaterial m) (isMeshBasicMaterial m)
             (isMeshLambertMaterial m) v (color m) (map m) (transparent m) (opacity m).

(** The material objects, and the identity the next new one gets. *)
Record Heap : Type := mkHeap {
  material_at : MaterialId -> Material;
  nextMaterial : MaterialId
}.

Definition store (id : MaterialId) (m : Material) (h : Heap) : Heap :=
  mkHeap (fun i => if (i =? id)%nat then m else material_at h i) (nextMaterial h).

(** [new THREE.MeshLambertMaterial({ color, map, transparent, opacity })] *)
Definition new_MeshLambertMaterial
           (color : nat) (map : option nat) (transparent : bool) (opacity : Lighting.Number)
           (h : Heap) : MaterialId * Heap :=
  let m := mkMaterial false false false true false color map transparent opacity in
  (nextMaterial h, mkHeap (material_at (store (nextMaterial h) m h)) (S (nextMaterial h))).

(** [setupMaterial(material)]: the material it returns. *)
Definition setupMaterial (material : MaterialId) (h : Heap) : MaterialId * Heap :=
  let h :=
    if isMeshStandardMaterial (material_at h material)
       || isMeshPhongMaterial (material_at h material)
    then store material (set_needsUpdate true (material_at h material)) h
    else h in
  if isMeshBasicMaterial (material_at h material) then
    new_MeshLambertMaterial (color (material_at h material)) (map (material_at h material))
                            (transparent (material_at h material))
                            (opacity (material_at h material)) h
  else (material, h).

(** [child.material]: absent, one material, or an array of them. *)
Inductive MaterialSlot : Type :=
| NoMaterial
| OneMaterial (material : MaterialId)
| MaterialArray (materials : list MaterialId).

(** An object of the model's tree. *)
#[local] Unset Elimination Schemes.
Inductive Node : Type :=
| mkNode (isMesh castShadow receiveShadow : bool) (material : MaterialSlot)
         (children : list Node).
#[local] Set Elimination Schemes.

(** The [if (child.material) { ... }] of the callback: [setupMaterial] is
    called for its effect, what it returns is dropped. *)
Definition setup_materials (slot : MaterialSlot) (h : Heap) : Heap :=
  match slot with
  | NoMaterial => h
  | OneMaterial material => snd (setupMaterial material h)
  | MaterialArray materials => fold_left (fun h mat => snd (setupMaterial mat h)) materials h
  end.

(** [model.traverse(callback)] with the callback of [processModel]: the
    object itself, then its children in order, each with its subtree. *)
Fixpoint traverse (child : Node) (h : Heap) : Node * Heap :=
  match child with
  | mkNode isMesh castShadow receiveShadow material children =>
      let h := if isMesh then setup_materials material h else h in
      let '(children', h') :=
        (fix each (nodes : list Node) (h : Heap) : list Node * Heap :=
           match nodes with
           | [] => ([], h)
           | n :: rest =>
               let '(n', h1) := traverse n h in
               let '(rest', h2) := each rest h1 in
               (n' :: rest', h2)
           end) children h in
      (mkNode isMesh (if isMesh then true else castShadow)
              (if isMesh then true else receiveShadow) material children', h')
  end.

(** The loop over the children. *)
Fixpoint traverse_each (nodes : list Node) (h : Heap) : list Node * Heap :=
  match nodes with
  | [] => ([], h)
  | n :: rest =>
      let '(n', h1) := traverse n h in
      let '(rest', h2) := traverse_each rest h1 in
      (n' :: rest', h2)
  end.

(** [processModel(model)], on the tree of the model: the object
    [ModelLoader.processModel] returns is the one it was given, and this is
    what the call does to the objects below it and to their materials.
    (How it rescales and recentres the model is arithmetic on the bounding
    box and is not tracked.) *)
Definition processModel (model : Node) (h : Heap) : Node * Heap := traverse model h.

(** The objects of a tree, in the order [traverse] visits them. *)
Fixpoint nodes (n : Node) : list Node :=
  match n with
  | mkNode _ _ _ _ children => n :: flat_map nodes children
  end.

Definition isMesh (n : Node) : bool :=
  match n with mkNode b _ _ _ _ => b end.
Definition castShadow (n : Node) : bool :=
  match n with mkNode _ b _ _ _ => b end.
Definition receiveShadow (n : Node) : bool :=
  match n with mkNode _ _ b _ _ => b end.
Definition material (n : Node) : MaterialSlot :=
  match n with mkNode _ _ _ slot _ => slot end.

(** The materials a slot holds. *)
Definition slot_materials (slot : MaterialSlot) : list MaterialId :=
  match slot with
  | NoMaterial => []
  | OneMaterial m => [m]
  | MaterialArray ms => ms
  end.

(** The materials of the meshes of a tree, one entry for every mesh that
    holds the material, in the order they are met. *)
Definition mesh_materials (n : Node) : list MaterialId :=
  flat_map (fun c => if isMesh c then slot_materials (material c) else []) (nodes n).

(** All the materials a tree refers to. *)
Definition all_materials (n : Node) : list MaterialId :=
  flat_map (fun c => slot_materials (material c)) (nodes n).

(** One call of [setupMaterial], for its effect on the heap. *)
Definition touch (h : Heap) (mat : MaterialId) : Heap := snd (setupMaterial mat h).

(** The Lambert material [setupMaterial] makes of a basic one. *)
Definition lambert_copy (m : Material) : Material :=
  mkMaterial false false false true false (color m) (map m) (transparent m) (opacity m).

(** Whether [setupMaterial] marks the material for an update. *)
Definition is_updated (m : Material) : bool :=
  isMeshStandardMaterial m || isMeshPhongMaterial m.

(** Induction on a tree: the property holds of an object when it holds of
    its children. *)
Section NodeInduction.

Variable P : Node -> Prop.
Hypothesis step :
  forall isMesh castShadow receiveShadow material children,
    Forall P children -> P (mkNode isMesh castShadow receiveShadow material children).

Fixpoint Node_induction (n : Node) : P n :=
  match n with
  | mkNode isMesh castShadow receiveShadow material children =>
      step isMesh castShadow receiveShadow material children
           ((fix all (cs : list Node) : Forall P cs :=
               match cs with
               | [] => Forall_nil P
               | c :: rest => Forall_cons c (Node_induction c) (all rest)
               end) children)
  end.

End NodeInduction.

(** The heap after [setupMaterial] was called on [done], one after the
    other, starting from [h0]. *)
Definition after_setup (h0 : Heap) (done : list MaterialId) (h1 : Heap) : Prop :=
  nextMaterial h1
  = nextMaterial h0
    + length (filter (fun m => isMeshBasicMaterial (material_at h0 m)) done)
  /\ (forall id, id < nextMaterial h0 ->
        material_at h1 id
        = if is_updated (material_at h0 id) && existsb (Nat.eqb id) done
          then set_needsUpdate true (material_at h0 id)
          else material_at h0 id)
  /\ (forall id, nextMaterial h0 <= id < nextMaterial h1 ->
        exists source, In source done
                       /\ isMeshBasicMaterial (material_at h0 source) = true
                       /\ material_at h1 id = lambert_copy (material_at h0 source)).

End Materials.

(** * Properties *)

(** ** Strings *)

Lemma length_append (a b : string) :
  String.length (a ++ b) = String.length a + String.length b.
Proof.
  induction a as [|c a IH]; simpl; [reflexivity | now rewrite IH].
Qed.

Lemma substring_all (s : string) : substring 0 (String.length s) s = s.
Proof.
  induction s as [|c s IH]; simpl; [reflexivity | now rewrite IH].
Qed.

Lemma substring_skip_front (front suffix : string) :
  substring (String.length front) (String.length suffix) (front ++ suffix) = suffix.
Proof.
  induction front as [|c front IH]; simpl.
  - apply substring_all.
  - exact IH.
Qed.

Lemma substring_split (s : string) :
  forall n, n <= String.length s ->
  s = substring 0 n s ++ substring n (String.length s - n) s.
Proof.
  induction s as [|c s IH]; intros n Hn.
  - destruct n; reflexivity.
  - destruct n as [|n]; simpl.
    + now rewrite substring_all.
    + simpl in Hn. f_equal. apply IH. lia.
Qed.

(** The code's [endsWith] decides the suffix relation. *)
Lemma endsWith_ends_with (s suffix : string) :
  JsString.endsWith s suffix = true <-> ends_with s suffix.
Proof.
  unfold JsString.endsWith, ends_with. split.
  - destruct (Nat.ltb_spec (String.length s) (String.length suffix)) as [Hlt|Hge];
      [discriminate|].
    intros H. apply String.eqb_eq in H.
    exists (substring 0 (String.length s - String.length suffix) s).
    pose proof (substring_split s (String.length s - String.length suffix)) as Hs.
    replace (String.length s - (String.length s - String.length suffix))
      with (String.length suffix) in Hs by lia.
    rewrite H in Hs. apply Hs. lia.
  - intros [front ->]. rewrite length_append.
    destruct (Nat.ltb_spec (String.length front + String.length suffix)
                           (String.length suffix)) as [Hlt|Hge]; [lia|].
    replace (String.length front + String.length suffix - String.length suffix)
      with (String.length front) by lia.
    rewrite substring_skip_front. apply String.eqb_refl.
Qed.

Lemma endsWith_false (s suffix : string) :
  JsString.endsWith s suffix = false <-> ~ ends_with s suffix.
Proof.
  rewrite <- endsWith_ends_with. destruct (JsString.endsWith s suffix); split;
    intros H; try reflexivity; try discriminate; try (intro; discriminate).
  exfalso. apply H. reflexivity.
Qed.

(** The test [supportedExtensions.some(ext => fileName.endsWith(ext))]
    says whether the file has a supported extension. *)
Lemma isSupported_iff (file : File) :
  existsb (fun ext => JsString.endsWith (JsString.toLowerCase (name file)) ext)
          ModelLoaderStatic.supportedExtensions = true
  <-> has_supported_extension file.
Proof.
  unfold has_supported_extension, ModelLoaderStatic.supportedExtensions.
  cbn [existsb]. rewrite Bool.orb_false_r, !Bool.orb_true_iff, !endsWith_ends_with.
  tauto.
Qed.

(** ** C1: validateFile *)

(** C1. [ModelLoader.validateFile(file)] returns true exactly when the
    lower-cased name of the file ends with '.glb', '.gltf' or '.stl' and
    its size is at most 50*1024*1024 bytes; a file without a supported
    extension makes it throw an error whose message starts with
    'Unsupported file format', and a file with a supported extension and a
    larger size makes it throw an error whose message starts with 'File too
    large'. *)
Theorem validateFile_spec (file : File) :
  (ModelLoaderStatic.validateFile file = Normal true
   <-> has_supported_extension file /\ at_most_50MB file)
  /\ (~ has_supported_extension file ->
      exists msg, ModelLoaderStatic.validateFile file = Throw (Error msg)
                  /\ JsString.startsWith msg "Unsupported file format" = true)
  /\ (has_supported_extension file /\ ~ at_most_50MB file ->
      exists msg, ModelLoaderStatic.validateFile file = Throw (Error msg)
                  /\ JsString.startsWith msg "File too large" = true).
Proof.
  unfold ModelLoaderStatic.validateFile, at_most_50MB.
  pose proof (isSupported_iff file) as Hsup.
  destruct (existsb _ ModelLoaderStatic.supportedExtensions) eqn:Hex; simpl.
  - assert (Hyes : has_supported_extension file) by (now apply Hsup).
    unfold ModelLoaderStatic.maxSize.
    destruct (N.ltb_spec (50 * 1024 * 1024) (size file)) as [Hbig|Hsmall].
    + split; [split|split].
      * discriminate.
      * intros [_ Hle]. lia.
      * intros Hno. contradiction.
      * intros _. eexists. split; reflexivity.
    + split; [split|split].
      * intros _. split; assumption.
      * reflexivity.
      * intros Hno. contradiction.
      * intros [_ Hno]. contradiction.
  - assert (Hno : ~ has_supported_extension file).
    { intros Hyes. apply Hsup in Hyes. discriminate. }
    split; [split|split].
    + discriminate.
    + intros [Hyes _]. contradiction.
    + intros _. eexists. split; reflexivity.
    + intros [Hyes _]. contradiction.
Qed.

(** ** C3: the format dispatch of ModelLoader.loadModel *)

Lemma last_char_append (s suffix : string) :
  suffix <> EmptyString -> last_char (s ++ suffix) = last_char suffix.
Proof.
  intros Hne. induction s as [|c s IH]; simpl; [reflexivity|].
  rewrite IH. destruct (s ++ suffix) eqn:Happ; [|reflexivity].
  destruct s; simpl in Happ; [contradiction | discriminate].
Qed.

Lemma ends_with_last_char (s suffix : string) :
  suffix <> EmptyString -> ends_with s suffix -> last_char s = last_char suffix.
Proof.
  intros Hne [front ->]. now apply last_char_append.
Qed.

(** A name that ends with '.stl' ends with neither '.glb' nor '.gltf'. *)
Lemma stl_is_not_gltf (s : string) :
  ends_with s ".stl" -> ~ (ends_with s ".glb" \/ ends_with s ".gltf").
Proof.
  intros Hstl [H|H];
    apply ends_with_last_char in Hstl; try discriminate;
    apply ends_with_last_char in H; try discriminate;
    rewrite Hstl in H; discriminate.
Qed.

Lemma loadGLTF_calls (file : File) (w : World) (c : Call) :
  can_issue (ModelLoader.loadGLTF file w) c ->
  c = ReadAsArrayBuffer file \/ exists data, c = GLTFParse data.
Proof.
  intros H. cbn in H. destruct H as [H|(o & w' & H)]; [now left|].
  destruct o as [data|e]; cbn in H; [|contradiction].
  destruct H as [H|(o & w'' & H)]; [right; eauto|].
  destruct o as [[parsed|e]|e]; cbn in H; try contradiction.
  destruct (gltf_scene parsed); cbn in H; contradiction.
Qed.

Lemma loadSTL_calls (file : File) (w : World) (c : Call) :
  can_issue (ModelLoader.loadSTL file w) c ->
  c = ReadAsArrayBuffer file \/ exists data, c = STLParse data.
Proof.
  intros H. cbn in H. destruct H as [H|(o & w' & H)]; [now left|].
  destruct o as [data|e]; cbn in H; [|contradiction].
  destruct H as [H|(o & w'' & H)]; [right; eauto|].
  destruct o; cbn in H; contradiction.
Qed.

(** C3. [ModelLoader.loadModel(file)] dispatches on the extension of the
    lower-cased file name: on '.glb' or '.gltf' it is [loadGLTF(file)],
    which hands the bytes read to the glTF parser and never calls the STL
    parser; on '.stl' it is [loadSTL(file)], which hands them to the STL
    parser and never calls the glTF parser; on any other name it throws
    'Unsupported file format: <name>' at once, leaving the world (and so
    the trace of calls) as it was. *)
Theorem loadModel_dispatches_on_extension (file : File) :
  let fileName := JsString.toLowerCase (name file) in
  (ends_with fileName ".glb" \/ ends_with fileName ".gltf" ->
   forall w : World,
     ModelLoader.loadModel file w = ModelLoader.loadGLTF file w
     /\ (forall data, can_issue (ModelLoader.loadModel file w) (GLTFParse data))
     /\ (forall data, ~ can_issue (ModelLoader.loadModel file w) (STLParse data)))
  /\ (ends_with fileName ".stl" ->
      forall w : World,
        ModelLoader.loadModel file w = ModelLoader.loadSTL file w
        /\ (forall data, can_issue (ModelLoader.loadModel file w) (STLParse data))
        /\ (forall data, ~ can_issue (ModelLoader.loadModel file w) (GLTFParse data)))
  /\ (~ has_supported_extension file ->
      forall w : World,
        ModelLoader.loadModel file w
        = Finished w (Throw (Error ("Unsupported file format: " ++ fileName)))).
Proof.
  intros fileName. unfold ModelLoader.loadModel. fold fileName.
  split; [|split].
  - intros Hext w.
    assert (Hb : JsString.endsWith fileName ".glb" || JsString.endsWith fileName ".gltf" = true).
    { rewrite Bool.orb_true_iff, !endsWith_ends_with. exact Hext. }
    rewrite Hb. split; [reflexivity|split].
    + intros data. cbn. right. exists (Fulfilled data), w. cbn. now left.
    + intros data H. apply loadGLTF_calls in H. destruct H as [H|[d H]]; discriminate.
  - intros Hext w.
    assert (Hb : JsString.endsWith fileName ".glb" || JsString.endsWith fileName ".gltf" = false).
    { apply Bool.not_true_is_false. rewrite Bool.orb_true_iff, !endsWith_ends_with.
      now apply stl_is_not_gltf. }
    apply endsWith_ends_with in Hext. rewrite Hb, Hext. split; [reflexivity|split].
    + intros data. cbn. right. exists (Fulfilled data), w. cbn. now left.
    + intros data H. apply loadSTL_calls in H. destruct H as [H|[d H]]; discriminate.
  - intros Hno w. unfold has_supported_extension in Hno. fold fileName in Hno.
    destruct (JsString.endsWith fileName ".glb") eqn:H1.
    { exfalso. apply Hno. left. now apply endsWith_ends_with. }
    destruct (JsString.endsWith fileName ".gltf") eqn:H2.
    { exfalso. apply Hno. right. left. now apply endsWith_ends_with. }
    destruct (JsString.endsWith fileName ".stl") eqn:H3.
    { exfalso. apply Hno. right. right. now apply endsWith_ends_with. }
    reflexivity.
Qed.

(** ** Symbolic execution *)

(** Take a world apart into its fields, so that updates compute. *)
Ltac open_world w :=
  destruct w as [w_viewer w_ar w_model w_active w_webxr w_ios w_button w_loading
                 w_error w_video w_body w_videos w_listeners w_nav w_next w_trace];
  destruct w_viewer as [w_scene w_shown w_lights w_xr_on w_xr_session w_loop];
  destruct w_ar as [w_session w_space w_source w_placed w_reticle w_supported];
  destruct w_nav as [w_agent w_xr w_orientation];
  simpl in *; subst.

(** The same, for a world met at a later resumption: the fields get fresh
    names. *)
Ltac open_next_world w :=
  destruct w as [[? ? ? ? ? ?] [? ? ? ? ? ?] ? ? ? ? ? ? ? ? ? ? ? [? ? ?] ? ?];
  simpl in *.

(** Case analysis on a variable the goal branches on. *)
Ltac split_on_variable :=
  match goal with
  | |- context [match ?x with _ => _ end] => is_var x; destruct x
  end.

(** ** Loading a model: what a run of WebGLARApp.loadModel comes to *)

Lemma validated_name (file : File) :
  ModelLoaderStatic.validateFile file = Normal true ->
  is_gltf_name file = true \/ is_stl_name file = true.
Proof.
  intros Hv.
  assert (Hext : has_supported_extension file).
  { apply isSupported_iff. unfold ModelLoaderStatic.validateFile in Hv.
    destruct (existsb _ ModelLoaderStatic.supportedExtensions); [reflexivity|].
    discriminate. }
  unfold is_stl_name, is_gltf_name.
  destruct Hext as [H|[H|H]]; apply endsWith_ends_with in H; rewrite H;
    destruct (JsString.endsWith _ ".glb"); destruct (JsString.endsWith _ ".gltf");
    simpl; auto.
Qed.

(** Every run of the loading pipeline fails in one of the listed ways,
    stalls, or succeeds. *)
Lemma load_fails_or_succeeds (env : Oracle) (file : File) :
  (exists e, load_failure env file e)
  \/ (exists e, load_stalls env file e)
  \/ (exists anims ty, load_success env file anims ty).
Proof.
  destruct (ModelLoaderStatic.validateFile file) as [[|]|e|] eqn:Hv.
  - destruct (validated_name file Hv) as [Hg|Hs];
      destruct (env (ReadAsArrayBuffer file)) as [data|e] eqn:Hr.
    + destruct (env (GLTFParse data)) as [[parsed|e]|e] eqn:Hp.
      * destruct (gltf_scene parsed) eqn:Hscene.
        -- right. right. do 2 eexists. eapply gltf_loaded; eassumption.
        -- left. eexists. eapply gltf_without_scene; eassumption.
      * right. left. eexists. eapply gltf_parser_throws; eassumption.
      * left. eexists. eapply gltf_unparsable; eassumption.
    + left. eexists. eapply gltf_unreadable; eassumption.
    + destruct (env (STLParse data)) as [[]|e] eqn:Hp.
      * right. right. do 2 eexists. eapply stl_loaded; eassumption.
      * left. eexists. eapply stl_unparsable; eassumption.
    + left. eexists. eapply stl_unreadable; eassumption.
  - exfalso. unfold ModelLoaderStatic.validateFile in Hv.
    destruct (negb _); [discriminate|]. destruct (N.ltb _ _); discriminate.
  - left. exists e. now apply refused.
  - exfalso. unfold ModelLoaderStatic.validateFile in Hv.
    destruct (negb _); [discriminate|]. destruct (N.ltb _ _); discriminate.
Qed.

Lemma loadModel_gltf (file : File) :
  is_gltf_name file = true -> ModelLoader.loadModel file = ModelLoader.loadGLTF file.
Proof.
  unfold is_gltf_name, ModelLoader.loadModel. cbv zeta. now intros ->.
Qed.

Lemma loadModel_stl (file : File) :
  is_stl_name file = true -> ModelLoader.loadModel file = ModelLoader.loadSTL file.
Proof.
  unfold is_stl_name, is_gltf_name, ModelLoader.loadModel. cbv zeta.
  intros H. apply Bool.andb_true_iff in H. destruct H as [H1 H2].
  apply Bool.negb_true_iff in H1. now rewrite H1, H2.
Qed.

Lemma trace_record_events (evs : list Event) (w : World) :
  trace (record_events evs w) = (rev evs ++ trace w)%list.
Proof.
  revert w. induction evs as [|e evs IH]; intros w; simpl.
  - reflexivity.
  - unfold record_events in IH. rewrite IH. simpl. now rewrite <- app_assoc.
Qed.

(** Recording events changes nothing but the trace. *)
Lemma record_events_frame (evs : list Event) (w : World) :
  record_events evs w = set_trace (rev evs ++ trace w)%list w.
Proof.
  revert w. induction evs as [|e evs IH]; intros w; simpl.
  - now destruct w.
  - unfold record_events in IH. rewrite IH. unfold record_event, set_trace. simpl.
    now rewrite <- app_assoc.
Qed.

(** A failed load: the error reaches the [catch], which shows it.  The
    world in which this happens is the one the load started in, but for
    the 'Loading model...' banner and the hidden error box when the file
    had passed validation, and for the calls recorded. *)
Lemma loadModel_failed_run (env : Oracle) (file : File) (e : Exn) (w : World) :
  load_failure env file e ->
  exists (w0 : World) (calls : list Event),
    (w0 = w \/ w0 = hideError (showLoading "Loading model..." w))
    /\ shown calls = []
    /\ NoDup (issued calls)
    /\ run env (loadModel file w)
       = (hideLoading (showError ("Failed to load model: " ++ render_message e)
                         (record_events calls w0)),
          Normal tt).
Proof.
  intros Hfail. unfold loadModel.
  destruct Hfail as [e Hv|e Hv Hn Hr|data e Hv Hn Hr Hp|data parsed Hv Hn Hr Hp Hscene
                    |e Hv Hn Hr|data e Hv Hn Hr Hp].
  - exists w, []. split; [now left|]. split; [reflexivity|]. split; [constructor|].
    rewrite Hv. reflexivity.
  - exists (hideError (showLoading "Loading model..." w)).
    exists [Entered loadGLTF_;
            Issued (ReadAsArrayBuffer file); Resumed (ReadAsArrayBuffer file) false].
    split; [now right|]. split; [reflexivity|].
    split; [repeat constructor; simpl; intuition discriminate|].
    rewrite Hv, (loadModel_gltf file Hn). open_world w.
    vm_compute. rewrite Hr. vm_compute. reflexivity.
  - exists (hideError (showLoading "Loading model..." w)).
    exists [Entered loadGLTF_;
            Issued (ReadAsArrayBuffer file); Resumed (ReadAsArrayBuffer file) true;
            Issued (GLTFParse data); Resumed (GLTFParse data) false].
    split; [now right|]. split; [reflexivity|].
    split; [repeat constructor; simpl; intuition discriminate|].
    rewrite Hv, (loadModel_gltf file Hn). open_world w.
    vm_compute. rewrite Hr. vm_compute. rewrite Hp. vm_compute. reflexivity.
  - exists (hideError (showLoading "Loading model..." w)).
    exists [Entered loadGLTF_;
            Issued (ReadAsArrayBuffer file); Resumed (ReadAsArrayBuffer file) true;
            Issued (GLTFParse data); Resumed (GLTFParse data) true].
    split; [now right|]. split; [reflexivity|].
    split; [repeat constructor; simpl; intuition discriminate|].
    rewrite Hv, (loadModel_gltf file Hn). destruct parsed as [scene anims].
    cbn in Hscene. subst scene. open_world w.
    vm_compute. rewrite Hr. vm_compute. rewrite Hp. vm_compute. reflexivity.
  - exists (hideError (showLoading "Loading model..." w)).
    exists [Entered loadSTL_;
            Issued (ReadAsArrayBuffer file); Resumed (ReadAsArrayBuffer file) false].
    split; [now right|]. split; [reflexivity|].
    split; [repeat constructor; simpl; intuition discriminate|].
    rewrite Hv, (loadModel_stl file Hn). open_world w.
    vm_compute. rewrite Hr. vm_compute. reflexivity.
  - exists (hideError (showLoading "Loading model..." w)).
    exists [Entered loadSTL_;
            Issued (ReadAsArrayBuffer file); Resumed (ReadAsArrayBuffer file) true;
            Issued (STLParse data); Resumed (STLParse data) false].
    split; [now right|]. split; [reflexivity|].
    split; [repeat constructor; simpl; intuition discriminate|].
    rewrite Hv, (loadModel_stl file Hn). open_world w.
    vm_compute. rewrite Hr. vm_compute. rewrite Hp. vm_compute. reflexivity.
Qed.

(** A successful load: the new model, a fresh object, is displayed in the
    world the loader leaves. *)
Lemma loadModel_succeeded_run
      (env : Oracle) (file : File) (anims : list string) (ty : ModelType) (w : World) :
  load_success env file anims ty ->
  exists calls : list Event,
    shown calls = []
    /\ NoDup (issued calls)
    /\ run env (loadModel file w)
       = (display_result
            (mkLoadResult (mkObject (nextUuid w) ModelRoot) anims ty)
            (set_nextUuid (S (nextUuid w))
               (record_events calls (hideError (showLoading "Loading model..." w)))),
          Normal tt).
Proof.
  intros Hok. unfold loadModel.
  destruct Hok as [data parsed Hv Hn Hr Hp Hscene|data Hv Hn Hr Hp].
  - exists [Entered loadGLTF_;
            Issued (ReadAsArrayBuffer file); Resumed (ReadAsArrayBuffer file) true;
            Issued (GLTFParse data); Resumed (GLTFParse data) true].
    split; [reflexivity|].
    split; [repeat constructor; simpl; intuition discriminate|].
    rewrite Hv, (loadModel_gltf file Hn). destruct parsed as [scene anims].
    cbn in Hscene. subst scene. cbn [gltf_animations]. open_world w.
    destruct w_webxr; [|destruct w_ios];
      vm_compute; rewrite Hr; vm_compute; rewrite Hp; vm_compute; reflexivity.
  - exists [Entered loadSTL_;
            Issued (ReadAsArrayBuffer file); Resumed (ReadAsArrayBuffer file) true;
            Issued (STLParse data); Resumed (STLParse data) true].
    split; [reflexivity|].
    split; [repeat constructor; simpl; intuition discriminate|].
    rewrite Hv, (loadModel_stl file Hn). open_world w.
    destruct w_webxr; [|destruct w_ios];
      vm_compute; rewrite Hr; vm_compute; rewrite Hp; vm_compute; reflexivity.
Qed.


(** ** C9: a failed load leaves the displayed model alone *)

(** C9. When [WebGLARApp.loadModel] fails, by a validation error, a read
    failure or a parse failure, the application's [currentModel] and the
    viewer (its scene and its own [currentModel]) are as they were before
    the load: the previous model is removed only once the new one has been
    parsed.  What changes is the error box, which shows the failure.  (A
    parse failure is one the parser reports, one [loadSTL] catches, or a
    glTF without a scene.) *)
Theorem failed_load_keeps_displayed_model
        (env : Oracle) (file : File) (e : Exn) (w : World) :
  load_failure env file e ->
  let w' := fst (run env (loadModel file w)) in
  currentModel w' = currentModel w
  /\ modelViewer w' = modelViewer w
  /\ arMode w' = arMode w
  /\ errorDiv w' = Div.mk ("Failed to load model: " ++ render_message e) "block".
Proof.
  intros Hfail w'. subst w'.
  destruct (loadModel_failed_run env file e w Hfail) as (w0 & calls & Hw0 & _ & _ & Hrun).
  rewrite Hrun, record_events_frame.
  destruct Hw0 as [-> | ->]; repeat split; reflexivity.
Qed.

Lemma failed_load_keeps_displayed_model_witness :
  load_failure broken_gltf duck
    (Error "Failed to parse glTF file: THREE.GLTFLoader: Unsupported asset. glTF versions >=2.0 are supported.")
  /\ let w' := fst (run broken_gltf (loadModel duck (with_model android_phone))) in
     currentModel w' = currentModel (with_model android_phone)
     /\ modelViewer w' = modelViewer (with_model android_phone)
     /\ arMode w' = arMode (with_model android_phone)
     /\ errorDiv w'
        = Div.mk ("Failed to load model: "
                  ++ render_message
                       (Error "Failed to parse glTF file: THREE.GLTFLoader: Unsupported asset. glTF versions >=2.0 are supported."))
                 "block".
Proof.
  assert (H : load_failure broken_gltf duck
                (Error "Failed to parse glTF file: THREE.GLTFLoader: Unsupported asset. glTF versions >=2.0 are supported.")).
  { apply (gltf_unparsable broken_gltf duck []
             (Error "THREE.GLTFLoader: Unsupported asset. glTF versions >=2.0 are supported."));
      reflexivity. }
  split; [exact H|].
  exact (failed_load_keeps_displayed_model broken_gltf duck _ (with_model android_phone) H).
Defined.

(** ** C10: entering AR without a model *)

(** C10. When [currentModel] is null, [enterAR] shows 'Please load a 3D
    model first' and returns: it suspends at no call, it enters neither
    [startARSession] nor [startARSimulation], and but for the error box
    (and the ghost trace) the world is as it was; in particular
    [isARActive], the AR button, the viewer and the AR helper are
    unchanged. *)
Theorem enterAR_without_model (w : World) :
  currentModel w = None ->
  exists w' : World,
    enterAR w = Finished w' (Normal tt)
    /\ w' = showError "Please load a 3D model first" (record_event (Entered enterAR_) w)
    /\ happened w w' [Entered enterAR_; ShowError "Please load a 3D model first"]
    /\ errorDiv w' = Div.mk "Please load a 3D model first" "block"
    /\ isARActive w' = isARActive w
    /\ arButton w' = arButton w
    /\ modelViewer w' = modelViewer w
    /\ arMode w' = arMode w
    /\ currentModel w' = None
    /\ loadingDiv w' = loadingDiv w
    /\ body_ar_mode w' = body_ar_mode w
    /\ arVideoElement w' = arVideoElement w.
Proof.
  intros Hnone. eexists. split.
  - unfold enterAR. cbn. rewrite Hnone. reflexivity.
  - split; [reflexivity|]. unfold happened. cbn.
    repeat split; try reflexivity; assumption.
Qed.

Lemma enterAR_without_model_witness :
  currentModel (started laptop) = None
  /\ exists w' : World,
      enterAR (started laptop) = Finished w' (Normal tt)
      /\ w' = showError "Please load a 3D model first"
                (record_event (Entered enterAR_) (started laptop))
      /\ happened (started laptop) w'
           [Entered enterAR_; ShowError "Please load a 3D model first"]
      /\ errorDiv w' = Div.mk "Please load a 3D model first" "block"
      /\ isARActive w' = isARActive (started laptop)
      /\ arButton w' = arButton (started laptop)
      /\ modelViewer w' = modelViewer (started laptop)
      /\ arMode w' = arMode (started laptop)
      /\ currentModel w' = None
      /\ loadingDiv w' = loadingDiv (started laptop)
      /\ body_ar_mode w' = body_ar_mode (started laptop)
      /\ arVideoElement w' = arVideoElement (started laptop).
Proof.
  split; [reflexivity|].
  exact (enterAR_without_model (started laptop) eq_refl).
Defined.

(** ** A click while AR is active *)


(** ** Entering AR: what a run of enterAR comes to *)


(** The device does not support AR: [startARSession] throws before any
    call, and the [catch] of [enterAR] shows the reason. *)
Lemma enterAR_unsupported (env : Oracle) (w : World) (r : LoadResult) :
  currentModel w = Some r ->
  hasWebXR w = true ->
  ARMode.isARSupported (arMode w) = false ->
  run env (enterAR w)
  = (hideLoading
       (showError "AR failed: AR not supported on this device"
          (record_events [Entered enterAR_; Entered startARSession_]
             (showLoading "Starting AR session..." w))),
     Normal tt).
Proof.
  intros Hm Hx Hs. open_world w.
  vm_compute. reflexivity.
Qed.


(** The user grants the camera: the simulation starts. *)
Lemma enterAR_camera_granted (env : Oracle) (w : World) (r : LoadResult) (stream : MediaStream) :
  currentModel w = Some r ->
  hasWebXR w = false ->
  env (GetUserMedia "environment") = Fulfilled stream ->
  let w' := fst (run env (enterAR w)) in
  happened w w'
    ([Entered enterAR_; Entered startARSimulation_;
      Issued (GetUserMedia "environment");
      Resumed (GetUserMedia "environment") true;
      ShowError (garbled_pictograph ++ " iOS AR Simulation: Camera active! Move your device to view the model. The model appears on a virtual surface.")]
     ++ (if hasDeviceOrientationEvent (navigator w) then [EnableDeviceOrientation] else []))%list
  /\ isARActive w' = true
  /\ Button.textContent (arButton w') = "Exit AR Simulation"
  /\ arVideoElement w' = Some stream.
Proof.
  intros Hm Hx He w'. subst w'. open_world w.
  unfold happened.
  destruct w_orientation;
    vm_compute; rewrite He; vm_compute; repeat split; reflexivity.
Qed.

(** ** C5: the fallback simulation *)

Lemma display_result_button (result : LoadResult) (w : World) :
  hasWebXR w = false ->
  (isIOS w = true ->
   arButton (display_result result w)
   = Button.mk false "AR Simulation" "iOS AR simulation mode (no WebXR)")
  /\ (isIOS w = false -> arButton (display_result result w) = arButton w).
Proof.
  intros Hx. open_world w. split; intros ->; reflexivity.
Qed.

Lemma click_without_webxr_calls (w : World) (r : LoadResult) (c : Call) :
  currentModel w = Some r ->
  hasWebXR w = false ->
  isARActive w = false ->
  can_issue (onARButtonClick w) c ->
  c = GetUserMedia "environment" \/ c = Microtask.
Proof.
  intros Hm Hx Ha H. open_world w. vm_compute in H.
  destruct H as [H|[(o & w' & H)|H]]; [now left| |contradiction].
  destruct o as [stream|e]; vm_compute in H.
  - destruct H as [H|(o & w'' & H)]; [now right|].
    destruct w'' as [? ? ? ? ? ? ? ? ? ? ? ? ? [? ? orientation] ? ?].
    destruct orientation; vm_compute in H; contradiction.
  - destruct H as [H|(o & w'' & H)]; [now right|].
    destruct w'' as [? ? ? ? ? ? ? ? ? ? ? ? ? [? ? orientation] ? ?].
    destruct orientation; vm_compute in H; contradiction.
Qed.

Lemma click_without_webxr_run (env : Oracle) (w : World) (r : LoadResult) :
  currentModel w = Some r ->
  hasWebXR w = false ->
  isARActive w = false ->
  let w' := fst (run env (onARButtonClick w)) in
  isARActive w' = true
  /\ Button.textContent (arButton w') = "Exit AR Simulation"
  /\ exists evs : list Event,
      happened w w' evs
      /\ In startARSimulation_ (entries evs)
      /\ ~ In startARSession_ (entries evs)
      /\ issued evs = [GetUserMedia "environment"].
Proof.
  intros Hm Hx Ha w'. subst w'.
  destruct (env (GetUserMedia "environment")) as [stream|e] eqn:Hcam.
  - open_world w. unfold happened.
    destruct w_orientation; vm_compute; rewrite Hcam; vm_compute;
      (split; [reflexivity|]); (split; [reflexivity|]).
    + exists [Entered enterAR_; Entered startARSimulation_;
              Issued (GetUserMedia "environment");
              Resumed (GetUserMedia "environment") true;
              ShowError (garbled_pictograph ++ " iOS AR Simulation: Camera active! Move your device to view the model. The model appears on a virtual surface.");
              EnableDeviceOrientation].
      vm_compute. intuition discriminate.
    + exists [Entered enterAR_; Entered startARSimulation_;
              Issued (GetUserMedia "environment");
              Resumed (GetUserMedia "environment") true;
              ShowError (garbled_pictograph ++ " iOS AR Simulation: Camera active! Move your device to view the model. The model appears on a virtual surface.")].
      vm_compute. intuition discriminate.
  - open_world w. unfold happened.
    destruct w_orientation; vm_compute; rewrite Hcam; vm_compute;
      (split; [reflexivity|]); (split; [reflexivity|]).
    + exists [Entered enterAR_; Entered startARSimulation_;
              Issued (GetUserMedia "environment");
              Resumed (GetUserMedia "environment") false;
              ShowError (garbled_pictograph ++ " Camera access denied. Using basic AR simulation without camera.");
              Entered startBasicARSimulation_;
              ShowError (garbled_pictograph ++ " Basic AR Simulation: Move your device to view the model from different angles.");
              EnableDeviceOrientation].
      vm_compute. intuition discriminate.
    + exists [Entered enterAR_; Entered startARSimulation_;
              Issued (GetUserMedia "environment");
              Resumed (GetUserMedia "environment") false;
              ShowError (garbled_pictograph ++ " Camera access denied. Using basic AR simulation without camera.");
              Entered startBasicARSimulation_;
              ShowError (garbled_pictograph ++ " Basic AR Simulation: Move your device to view the model from different angles.")].
      vm_compute. intuition discriminate.
Qed.

(** C5, as the code has it.  On a device without WebXR AR support
    ([hasWebXR] false):
    - a successful load offers the simulation on iOS, enabling the AR
      button as 'AR Simulation', and leaves the button as it was on any
      other device;
    - when the click listener of the AR button runs with a model loaded
      and AR not active, it starts the AR simulation: it enters
      [startARSimulation], requests the camera and nothing else, never
      enters [startARSession], and ends with [isARActive] set and the
      button reading 'Exit AR Simulation'. *)
Theorem simulation_fallback (env : Oracle) (w : World) :
  hasWebXR w = false ->
  (forall file anims ty,
      load_success env file anims ty ->
      let w' := fst (run env (loadModel file w)) in
      (isIOS w = true ->
       arButton w' = Button.mk false "AR Simulation" "iOS AR simulation mode (no WebXR)")
      /\ (isIOS w = false -> arButton w' = arButton w))
  /\ (forall r,
         currentModel w = Some r ->
         isARActive w = false ->
         let w' := fst (run env (onARButtonClick w)) in
         isARActive w' = true
         /\ Button.textContent (arButton w') = "Exit AR Simulation"
         /\ (exists evs : list Event,
                happened w w' evs
                /\ In startARSimulation_ (entries evs)
                /\ ~ In startARSession_ (entries evs)
                /\ issued evs = [GetUserMedia "environment"])
         /\ (forall c, can_issue (onARButtonClick w) c ->
                       c = GetUserMedia "environment" \/ c = Microtask)).
Proof.
  intros Hx. split.
  - intros file anims ty Hok w'. subst w'.
    destruct (loadModel_succeeded_run env file anims ty w Hok) as (calls & _ & _ & Hrun).
    rewrite Hrun, record_events_frame. cbn [fst].
    match goal with
    | |- context [display_result ?r ?w0] =>
        destruct (display_result_button r w0 Hx) as [Hios Hother]
    end.
    split; intros H; [apply Hios | rewrite Hother]; auto.
  - intros r Hm Ha w'. subst w'.
    destruct (click_without_webxr_run env w r Hm Hx Ha) as (H1 & H2 & H3).
    repeat split; try assumption.
    intros c. now apply (click_without_webxr_calls w r c).
Qed.

Lemma simulation_fallback_witness :
  hasWebXR (with_model iphone) = false
  /\ (forall file anims ty,
         load_success cooperative file anims ty ->
         let w' := fst (run cooperative (loadModel file (with_model iphone))) in
         (isIOS (with_model iphone) = true ->
          arButton w' = Button.mk false "AR Simulation" "iOS AR simulation mode (no WebXR)")
         /\ (isIOS (with_model iphone) = false -> arButton w' = arButton (with_model iphone)))
  /\ (forall r,
         currentModel (with_model iphone) = Some r ->
         isARActive (with_model iphone) = false ->
         let w' := fst (run cooperative (onARButtonClick (with_model iphone))) in
         isARActive w' = true
         /\ Button.textContent (arButton w') = "Exit AR Simulation"
         /\ (exists evs : list Event,
                happened (with_model iphone) w' evs
                /\ In startARSimulation_ (entries evs)
                /\ ~ In startARSession_ (entries evs)
                /\ issued evs = [GetUserMedia "environment"])
         /\ (forall c, can_issue (onARButtonClick (with_model iphone)) c ->
                       c = GetUserMedia "environment" \/ c = Microtask)).
Proof.
  assert (H : hasWebXR (with_model iphone) = false) by (vm_compute; reflexivity).
  split; [exact H|]. exact (simulation_fallback cooperative (with_model iphone) H).
Defined.

(** C5 as stated fails on a device that is not an iOS device: on the
    laptop without WebXR, once the support check has come back and a model
    is loaded, the AR button is disabled and reads 'AR Not Supported', and
    a click on it starts nothing. *)
Lemma no_fallback_on_laptop :
  let w := with_model laptop in
  hasWebXR w = false
  /\ isIOS w = false
  /\ (exists r, currentModel w = Some r)
  /\ arButton w = Button.mk true "AR Not Supported" "WebXR not available in this browser"
  /\ run cooperative (click_arButton w) = (w, Normal tt)
  /\ ~ In startARSimulation_ (entries (trace w)).
Proof.
  vm_compute. repeat split; try reflexivity.
  - eexists; reflexivity.
  - intuition discriminate.
Qed.

(** ** C7: errors are shown, and nothing is retried *)


(** The phone with a model loaded, and a '.glb' file that is no glTF:
    the load stalls. *)
Lemma malformed_file_stalls_the_load :
  let w := with_model android_phone in
  let w' := fst (run malformed_gltf (loadModel duck w)) in
  load_stalls malformed_gltf duck (Error "Unexpected token h in JSON at position 0")
  /\ snd (run malformed_gltf (loadModel duck w)) = Unsettled
  /\ shown (trace w') = shown (trace w)
  /\ loadingDiv w' = Div.mk "Loading model..." "block"
  /\ Div.display (errorDiv w') = "none"
  /\ modelViewer w' = modelViewer w.
Proof.
  split.
  - apply (gltf_parser_throws malformed_gltf duck []); reflexivity.
  - vm_compute. repeat split; reflexivity.
Qed.


(** ** C4: the end of a session on the phone *)

(** C4 as stated fails at the end of an AR session: the loaded model is
    still in the scene; what is removed is the reticle (and a placed clone,
    where there is one). *)
Lemma session_end_keeps_loaded_model :
  let w' := fst (run cooperative (onEndEvent 100 tapped)) in
  In 100 (endListeners tapped)
  /\ currentModel tapped = Some (mkLoadResult (mkObject 3 ModelRoot) ["Walk"] gltf)
  /\ currentModel w' = currentModel tapped
  /\ In (mkObject 3 ModelRoot) (ModelViewer.scene (modelViewer w'))
  /\ ModelViewer.scene (modelViewer w')
     = [mkObject 0 AmbientLight; mkObject 1 DirectionalLight; mkObject 2 PointLight;
        mkObject 3 ModelRoot].
Proof.
  vm_compute. repeat split; try reflexivity; auto 10.
Qed.

(** ** The scene graph: removing and adding children *)

Section SceneFacts.

Implicit Types (o x : Object3D) (l : Scene.t).

Lemma remove_In o x l : In o (Scene.remove x l) -> In o l.
Proof.
  induction l as [|c l IH]; simpl; [tauto|].
  destruct (same_object c x); simpl; intuition.
Qed.

Lemma remove_NoDup x l :
  NoDup (map uuid l) -> NoDup (map uuid (Scene.remove x l)).
Proof.
  induction l as [|c l IH]; simpl; intros Hnd; [constructor|].
  inversion Hnd as [|? ? Hnotin Hrest]; subst.
  destruct (same_object c x); [assumption|].
  simpl. constructor; [|now apply IH].
  intros Hin. apply Hnotin. apply in_map_iff in Hin. destruct Hin as (o & Ho & Hin).
  apply in_map_iff. exists o. split; [assumption|]. now apply remove_In in Hin.
Qed.

(** Where identities are distinct, [remove] leaves no child with the
    identity of the object removed. *)
Lemma remove_removes o x l :
  NoDup (map uuid l) -> In o (Scene.remove x l) -> uuid o <> uuid x.
Proof.
  induction l as [|c l IH]; simpl; intros Hnd Hin; [contradiction|].
  inversion Hnd as [|? ? Hnotin Hrest]; subst.
  unfold same_object in Hin. destruct (Nat.eqb_spec (uuid c) (uuid x)) as [Heq|Hne].
  - intros Hox. apply Hnotin. rewrite Heq, <- Hox. now apply in_map.
  - destruct Hin as [<- | Hin]; [assumption | now apply IH].
Qed.

Lemma remove_keeps o x l :
  In o l -> uuid o <> uuid x -> In o (Scene.remove x l).
Proof.
  induction l as [|c l IH]; simpl; intros Hin Hne; [contradiction|].
  unfold same_object. destruct (Nat.eqb_spec (uuid c) (uuid x)) as [Heq|Hcx].
  - destruct Hin as [<- | Hin]; [congruence | assumption].
  - destruct Hin as [<- | Hin]; [now left | right; now apply IH].
Qed.

Lemma add_In o x l : In o (Scene.add x l) <-> o = x \/ In o (Scene.remove x l).
Proof.
  unfold Scene.add. rewrite in_app_iff. simpl. intuition.
Qed.

Lemma add_NoDup x l :
  NoDup (map uuid l) -> NoDup (map uuid (Scene.add x l)).
Proof.
  intros Hnd. unfold Scene.add. rewrite map_app. simpl.
  apply NoDup_app.
  - now apply remove_NoDup.
  - repeat constructor. simpl. tauto.
  - intros u Hin [<- | []]. apply in_map_iff in Hin. destruct Hin as (o & Ho & Hin).
    now apply (remove_removes o x l Hnd Hin).
Qed.

(** The model roots among the children, when each is the viewer's current
    model or the placed clone, are at most two, and at most one when
    nothing is placed. *)
Lemma models_bounded l (current placed : option Object3D) :
  NoDup (map uuid l) ->
  (forall o, In o l -> is_model o = true -> current = Some o \/ placed = Some o) ->
  length (Scene.models l) <= 2
  /\ (placed = None -> length (Scene.models l) <= 1)
  /\ (current = None -> length (Scene.models l) <= 1).
Proof.
  intros Hnd Hmodels.
  assert (Hnd' : NoDup (Scene.models l)).
  { apply NoDup_filter. now apply NoDup_map_inv in Hnd. }
  assert (Hincl : forall candidates,
             (forall o, In o l -> is_model o = true -> In o candidates) ->
             length (Scene.models l) <= length candidates).
  { intros candidates Hc. apply NoDup_incl_length; [assumption|].
    intros o Ho. apply filter_In in Ho. destruct Ho. now apply Hc. }
  split; [|split].
  - destruct current as [m|], placed as [p|].
    + apply (Hincl [m; p]). intros o Ho Hk.
      destruct (Hmodels o Ho Hk) as [H|H]; injection H as <-; simpl; auto.
    + apply Nat.le_trans with 1; [|lia]. apply (Hincl [m]). intros o Ho Hk.
      destruct (Hmodels o Ho Hk) as [H|H]; [injection H as <-; simpl; auto|discriminate].
    + apply Nat.le_trans with 1; [|lia]. apply (Hincl [p]). intros o Ho Hk.
      destruct (Hmodels o Ho Hk) as [H|H]; [discriminate|injection H as <-; simpl; auto].
    + apply Nat.le_trans with 0; [|lia]. apply (Hincl []). intros o Ho Hk.
      destruct (Hmodels o Ho Hk) as [H|H]; discriminate.
  - intros ->. destruct current as [m|].
    + apply (Hincl [m]). intros o Ho Hk.
      destruct (Hmodels o Ho Hk) as [H|H]; [injection H as <-; simpl; auto|discriminate].
    + apply Nat.le_trans with 0; [|lia]. apply (Hincl []). intros o Ho Hk.
      destruct (Hmodels o Ho Hk) as [H|H]; discriminate.
  - intros ->. destruct placed as [p|].
    + apply (Hincl [p]). intros o Ho Hk.
      destruct (Hmodels o Ho Hk) as [H|H]; [discriminate|injection H as <-; simpl; auto].
    + apply Nat.le_trans with 0; [|lia]. apply (Hincl []). intros o Ho Hk.
      destruct (Hmodels o Ho Hk) as [H|H]; discriminate.
Qed.

End SceneFacts.

(** ** C4: when the loaded model leaves the scene *)

Lemma display_result_scene (result : LoadResult) (w : World) :
  scene_of (display_result result w)
  = Scene.add (model result) (remove_if_set (shown_model w) (scene_of w))
  /\ shown_model (display_result result w) = Some (model result)
  /\ currentModel (display_result result w) = Some result
  /\ placed_model (display_result result w) = placed_model w.
Proof.
  open_world w. unfold scene_of, shown_model, placed_model, display_result.
  destruct w_shown; destruct w_webxr; destruct w_ios; repeat split; reflexivity.
Qed.

Lemma onSessionEnd_scene (w : World) :
  scene_of (onSessionEnd w)
  = remove_if_set (placed_model w)
      (remove_if_set (option_map mesh (ARMode.reticle (arMode w))) (scene_of w))
  /\ placed_model (onSessionEnd w) = None
  /\ ARMode.reticle (arMode (onSessionEnd w)) = None
  /\ shown_model (onSessionEnd w) = shown_model w
  /\ currentModel (onSessionEnd w) = currentModel w.
Proof.
  open_world w. unfold scene_of, shown_model, placed_model, onSessionEnd.
  destruct w_reticle; destruct w_placed; repeat split; reflexivity.
Qed.

(** C4, as the code has it.  A successful load removes the model that was
    displayed from the scene and displays the new one.  The end of an AR
    session removes the placed clone and the reticle from the scene, and
    nothing else: the loaded model stays the current model and, being a
    different object, stays in the scene. *)
Theorem model_leaves_scene_on_replacement_only :
  (forall env file anims ty w old,
      load_success env file anims ty ->
      shown_model w = Some old ->
      NoDup (map uuid (scene_of w)) ->
      uuid old < nextUuid w ->
      let w' := fst (run env (loadModel file w)) in
      let new := mkObject (nextUuid w) ModelRoot in
      ~ In old (scene_of w')
      /\ In new (scene_of w')
      /\ shown_model w' = Some new
      /\ currentModel w' = Some (mkLoadResult new anims ty))
  /\ (forall w,
         let w' := onSessionEnd w in
         scene_of w'
         = remove_if_set (placed_model w)
             (remove_if_set (option_map mesh (ARMode.reticle (arMode w))) (scene_of w))
         /\ placed_model w' = None
         /\ shown_model w' = shown_model w
         /\ currentModel w' = currentModel w
         /\ (forall clone,
                NoDup (map uuid (scene_of w)) ->
                placed_model w = Some clone ->
                ~ In clone (scene_of w'))
         /\ (forall loaded,
                shown_model w = Some loaded ->
                In loaded (scene_of w) ->
                (forall r, ARMode.reticle (arMode w) = Some r ->
                           uuid (mesh r) <> uuid loaded) ->
                (forall clone, placed_model w = Some clone -> uuid clone <> uuid loaded) ->
                In loaded (scene_of w'))).
Proof.
  split.
  - intros env file anims ty w old Hok Hold Hnd Hfresh w' new. subst w'.
    destruct (loadModel_succeeded_run env file anims ty w Hok) as (calls & _ & _ & Hrun).
    rewrite Hrun, record_events_frame. cbn [fst].
    match goal with
    | |- context [display_result ?r ?w0] =>
        destruct (display_result_scene r w0) as (Hscene & Hshown & Hcur & _)
    end.
    rewrite Hscene, Hshown, Hcur.
    change (shown_model _) with (shown_model w). change (scene_of _) with (scene_of w).
    rewrite Hold. cbn [remove_if_set model].
    split; [|split; [|split]]; try reflexivity.
    + intros Hin. apply add_In in Hin. destruct Hin as [Heq|Hin].
      * subst new. rewrite Heq in Hfresh. simpl in Hfresh. lia.
      * apply remove_In in Hin. now apply (remove_removes old old (scene_of w) Hnd Hin).
    + apply add_In. now left.
  - intros w w'. subst w'.
    destruct (onSessionEnd_scene w) as (Hscene & Hplaced & _ & Hshown & Hcur).
    rewrite Hscene. repeat split; try assumption.
    + intros clone Hnd Hp Hin. rewrite Hp in Hin. cbn [remove_if_set] in Hin.
      apply (remove_removes clone clone _) in Hin; [congruence|].
      destruct (ARMode.reticle (arMode w)); cbn [option_map remove_if_set];
        [now apply remove_NoDup | assumption].
    + intros loaded Hl Hin Hret Hcl.
      assert (Hin' : In loaded (remove_if_set (option_map mesh (ARMode.reticle (arMode w)))
                                  (scene_of w))).
      { destruct (ARMode.reticle (arMode w)) as [r|]; cbn [option_map remove_if_set];
          [|assumption].
        apply remove_keeps; [assumption|]. intros Heq. now apply (Hret r). }
      destruct (placed_model w) as [clone|]; cbn [remove_if_set]; [|assumption].
      apply remove_keeps; [assumption|]. intros Heq. now apply (Hcl clone).
Qed.

(** ** C8: the order of the AR session setup *)

Lemma startARSession_in_order (w : World) :
  in_order (startARSession w)
    [requests_ar_session; requests_reference_space;
     requests_reference_space; requests_hit_test_source].
Proof.
  open_world w. destruct w_supported; [|vm_compute; exact I].
  destruct w_xr; [|vm_compute; exact I].
  vm_compute. split; [reflexivity|]. split; [|intros; exact I].
  intros session w1. open_next_world w1. vm_compute.
  split; [do 2 eexists; reflexivity|]. split; [|intros e w2 [] w3; exact I].
  intros space w2. open_next_world w2. vm_compute.
  split_on_variable; [|intros; exact I].
  intros _ w3. open_next_world w3. vm_compute.
  split_on_variable; [|intros; exact I].
  split; [do 2 eexists; reflexivity|]. split; [|intros e w4 [] w5; exact I].
  intros viewerSpace w4. open_next_world w4. vm_compute.
  split; [do 2 eexists; reflexivity|]. split; [|intros e w5 [] w6; exact I].
  intros source w5. open_next_world w5. vm_compute.
  intros _ w6. open_next_world w6. vm_compute.
  split_on_variable; exact I.
Qed.

(** The setup when every call is fulfilled. *)
Lemma startARSession_run
      (env : Oracle) (w : World)
      (session : XRSession) (floor viewer : XRReferenceSpace) (source : XRHitTestSource) :
  ARMode.isARSupported (arMode w) = true ->
  xrInNavigator (navigator w) = true ->
  env (RequestSession "immersive-ar" ["hit-test"] ["dom-overlay"]) = Fulfilled session ->
  env (RequestReferenceSpace session "local-floor") = Fulfilled floor ->
  env (RequestReferenceSpace session "viewer") = Fulfilled viewer ->
  env (RequestHitTestSource session viewer) = Fulfilled source ->
  let w' := fst (run env (startARSession w)) in
  snd (run env (startARSession w)) = Normal true
  /\ happened w w'
       [Entered startARSession_;
        Issued (RequestSession "immersive-ar" ["hit-test"] ["dom-overlay"]);
        Resumed (RequestSession "immersive-ar" ["hit-test"] ["dom-overlay"]) true;
        Issued (RequestReferenceSpace session "local-floor");
        Resumed (RequestReferenceSpace session "local-floor") true;
        Issued (RequestReferenceSpace session "viewer");
        Resumed (RequestReferenceSpace session "viewer") true;
        Issued (RequestHitTestSource session viewer);
        Resumed (RequestHitTestSource session viewer) true]
  /\ ARMode.xrSession (arMode w') = Some session
  /\ ARMode.xrRefSpace (arMode w') = Some floor
  /\ ARMode.xrHitTestSource (arMode w') = Some source
  /\ endListeners w' = (endListeners w ++ [session])%list.
Proof.
  intros Hs Hn H1 H2 H3 H4 w'. subst w'. open_world w. unfold happened.
  vm_compute. rewrite H1. vm_compute. rewrite H2. vm_compute.
  rewrite H3. vm_compute. rewrite H4. vm_compute.
  repeat split; reflexivity.
Qed.

(** ** C8: the frame callback *)

Lemma placeModel_reads (hitPose : HitPose) (w : World) :
  exists w' r,
    placeModel hitPose w = Finished w' r
    /\ hit_test_reads (trace w') = hit_test_reads (trace w).
Proof.
  open_world w. destruct w_shown as [current|]; [|do 2 eexists; split; reflexivity].
  destruct hitPose; [do 2 eexists; split; reflexivity|].
  destruct w_placed, w_reticle; do 2 eexists; split; reflexivity.
Qed.

Lemma tap_to_place_reads (pose : XRPose) (sources : list (option (list bool))) (w : World) :
  exists w' r,
    tap_to_place pose sources w = Finished w' r
    /\ hit_test_reads (trace w') = hit_test_reads (trace w).
Proof.
  induction sources as [|[[|pressed buttons]|] sources IH]; cbn [tap_to_place].
  - do 2 eexists; split; reflexivity.
  - do 2 eexists; split; reflexivity.
  - destruct pressed; [apply placeModel_reads | exact IH].
  - exact IH.
Qed.

(** A frame reads the hit-test results once when the hit-test source is
    set, and not at all when it is not; [onXRFrame] never suspends. *)
Lemma onXRFrame_reads (frame : XRFrame) (w : World) :
  exists w' r,
    onXRFrame frame w = Finished w' r
    /\ hit_test_reads (trace w')
       = (match ARMode.xrHitTestSource (arMode w) with
          | Some source => [source]
          | None => []
          end ++ hit_test_reads (trace w))%list.
Proof.
  unfold onXRFrame. cbn.
  destruct (ARMode.xrHitTestSource (arMode w)) as [source|] eqn:Hsrc;
    [|do 2 eexists; split; reflexivity].
  cbn. destruct (hitTestResults frame) as [|[pose|] hits]; cbn.
  - destruct (ARMode.reticle (arMode w)); do 2 eexists; split; reflexivity.
  - destruct (ARMode.reticle (arMode w)) as [r|]; cbn;
      [|do 2 eexists; split; reflexivity].
    destruct (ARMode.xrSession (arMode w)); cbn; [|do 2 eexists; split; reflexivity].
    match goal with
    | |- context [tap_to_place pose (inputSources frame) ?w0] =>
        destruct (tap_to_place_reads pose (inputSources frame) w0) as (w' & res & Hrun & Hreads)
    end.
    exists w', res. split; [exact Hrun|]. rewrite Hreads. reflexivity.
  - do 2 eexists; split; reflexivity.
Qed.

(** ** The safety logic *)

(** Induction on a computation, at one result type: the computations
    detached along the way need no hypothesis. *)
Lemma Task_induction (A : Type) (P : Task A -> Prop) :
  (forall w r, P (Finished w r)) ->
  (forall w c k, (forall o w', P (k o w')) -> P (Awaiting w c k)) ->
  (forall c d t, P t -> P (Spawned c d t)) ->
  forall t, P t.
Proof.
  intros HF HA HS. fix go 1. intros [w r|w c k|c d t].
  - apply HF.
  - apply HA. intros o w'. apply go.
  - apply HS. apply go.
Qed.

Section SafetyRules.

Variable Inv : World -> Prop.
Variable Seg : World -> World -> Prop.


Lemma safe_mono {A : Type} (Q Q' : World -> World -> Completion A -> Prop) (t : Task A) :
  (forall s w r, Q s w r -> Q' s w r) ->
  forall s, safe Inv Seg Q s t -> safe Inv Seg Q' s t.
Proof.
  intros Himp. induction t as [w r|w c k IH|c d t IH] using Task_induction; intros s; cbn [safe].
  - apply Himp.
  - intros [Hs Hk]. split; [exact Hs|]. intros o w' Hw'. apply IH. now apply Hk.
  - intros [Hd Ht]. split; [exact Hd|]. now apply IH.
Qed.

Lemma safe_bind {A B : Type} (Q : World -> World -> Completion B -> Prop)
      (f : A -> Async B) (t : Task A) :
  forall s,
    safe Inv Seg
         (fun s' w r =>
            match r with
            | Normal a => safe Inv Seg Q s' (f a w)
            | Throw e => Q s' w (Throw e)
            | Unsettled => Q s' w Unsettled
            end) s t ->
    safe Inv Seg Q s (Task_bind t f).
Proof.
  induction t as [w r|w c k IH|c d t IH] using Task_induction; intros s;
    cbn [safe Task_bind].
  - destruct r; auto.
  - intros [Hs Hk]. split; [exact Hs|]. intros o w' Hw'. apply IH. now apply Hk.
  - intros [Hd Ht]. split; [exact Hd|]. now apply IH.
Qed.

Lemma safe_catch {A : Type} (Q : World -> World -> Completion A -> Prop)
      (h : Exn -> Async A) (t : Task A) :
  forall s,
    safe Inv Seg
         (fun s' w r =>
            match r with
            | Normal a => Q s' w (Normal a)
            | Throw e => safe Inv Seg Q s' (h e w)
            | Unsettled => Q s' w Unsettled
            end) s t ->
    safe Inv Seg Q s (Task_catch t h).
Proof.
  induction t as [w r|w c k IH|c d t IH] using Task_induction; intros s;
    cbn [safe Task_catch].
  - destruct r; auto.
  - intros [Hs Hk]. split; [exact Hs|]. intros o w' Hw'. apply IH. now apply Hk.
  - intros [Hd Ht]. split; [exact Hd|]. now apply IH.
Qed.

Lemma safe_attempt {A : Type} (Q : World -> World -> Completion (Completion A) -> Prop)
      (t : Task A) :
  forall s,
    safe Inv Seg
         (fun s' w r =>
            match r with
            | Unsettled => Q s' w Unsettled
            | _ => Q s' w (Normal r)
            end) s t ->
    safe Inv Seg Q s (Task_attempt t).
Proof.
  induction t as [w r|w c k IH|c d t IH] using Task_induction; intros s;
    cbn [safe Task_attempt].
  - destruct r; auto.
  - intros [Hs Hk]. split; [exact Hs|]. intros o w' Hw'. apply IH. now apply Hk.
  - intros [Hd Ht]. split; [exact Hd|]. now apply IH.
Qed.

(** A call that is not awaited: the callee is safe on its own, and the
    caller goes on from where the callee suspended or finished. *)
Lemma safe_spawn (Q : World -> World -> Completion unit -> Prop) (t : Task unit) :
  forall s,
    safe Inv Seg (settled Inv Seg) s t ->
    (forall w, Inv w -> Seg s w -> Q s w (Normal tt)) ->
    safe Inv Seg Q s (Task_spawn t).
Proof.
  induction t as [w r|w c k IH|c d t IH] using Task_induction; intros s;
    cbn [safe Task_spawn].
  - intros [Hi Hs] HQ. now apply HQ.
  - intros [[Hi Hs] Hk] HQ. split; [exact Hk|]. now apply HQ.
  - intros [Hd Ht] HQ. split; [exact Hd|]. now apply IH.
Qed.

(** What a safe handler leaves to the event loop. *)
Lemma install_stable {A : Type} (t : Task A) :
  forall s others,
    safe Inv Seg (settled Inv Seg) s t ->
    Forall (resumable Inv Seg) others ->
    stable Inv Seg (install t others) /\ Seg s (world (install t others)).
Proof.
  induction t as [w r|w c k IH|c d t IH] using Task_induction; intros s others;
    cbn [safe install].
  - intros [Hi Hs] Ho. split; [split|]; assumption.
  - intros [[Hi Hs] Hk] Ho. split; [split|]; try assumption.
    constructor; [|assumption].
    intros o w' Hw'. cbn [resume]. apply safe_bind.
    apply (safe_mono (settled Inv Seg)); [|now apply Hk].
    intros s' w0 [a|e|] H; exact H.
  - intros [Hd Ht] Ho. apply IH; [assumption|].
    constructor; [|assumption]. exact Hd.
Qed.

End SafetyRules.

(** ** What the stretches of code of the application preserve *)

Lemma extends_app (older newer evs : list Event) :
  extends older newer evs -> newer = (evs ++ older)%list.
Proof.
  induction 1 as [|e tr evs _ IH]; simpl; [reflexivity | now rewrite IH].
Qed.

Lemma hit_test_ready_app (evs older : list Event) :
  hit_test_ready older -> hit_test_ready (evs ++ older).
Proof.
  intros (session & space & Hin). exists session, space.
  apply in_or_app. now right.
Qed.

Lemma reads_after_ready_app (evs older : list Event) :
  reads_after_ready older ->
  (hit_test_reads evs = [] \/ hit_test_ready older) ->
  reads_after_ready (evs ++ older).
Proof.
  intros Hold Hreads. induction evs as [|e evs IH]; simpl; [assumption|].
  destruct e; simpl in Hreads |- *;
    try (apply IH; assumption).
  destruct Hreads as [Hreads|Hready]; [discriminate|].
  split; [now apply hit_test_ready_app | apply IH; now right].
Qed.

(** The trace part of the invariant, over a stretch of code that records
    [evs]: it reads hit-test results only where a source was set, and
    sets a source only where a request for one was fulfilled. *)
Lemma reads_ok_step (s w : World) (evs : list Event) :
  reads_ok s ->
  extends (trace s) (trace w) evs ->
  (hit_test_reads evs = [] \/ ARMode.xrHitTestSource (arMode s) <> None) ->
  (ARMode.xrHitTestSource (arMode w) = ARMode.xrHitTestSource (arMode s)
   \/ ARMode.xrHitTestSource (arMode w) = None
   \/ hit_test_ready evs) ->
  reads_ok w.
Proof.
  intros [Hready Horder] Hext Hreads Hsource. apply extends_app in Hext.
  unfold reads_ok. rewrite Hext. split.
  - intros Hset. destruct Hsource as [Hsame|[Hnone|Hnew]].
    + apply hit_test_ready_app. apply Hready. now rewrite <- Hsame.
    + contradiction.
    + destruct Hnew as (session & space & Hin). exists session, space.
      apply in_or_app. now left.
  - apply reads_after_ready_app; [assumption|].
    destruct Hreads as [Hnone|Hset]; [now left | right; now apply Hready].
Qed.

(** The scene part of the invariant, over a stretch of code that leaves
    the scene and the references to models alone. *)
Lemma scene_ok_frame (s w : World) :
  scene_ok s ->
  scene_of w = scene_of s ->
  shown_model w = shown_model s ->
  placed_model w = placed_model s ->
  currentModel w = currentModel s ->
  scene_ok w.
Proof.
  unfold scene_ok. intros H -> -> -> ->. exact H.
Qed.

(** ... that adds an object that is not a model root. *)
Lemma scene_ok_add_other (s w : World) (x : Object3D) :
  scene_ok s ->
  scene_of w = Scene.add x (scene_of s) ->
  is_model x = false ->
  shown_model w = shown_model s ->
  placed_model w = placed_model s ->
  currentModel w = currentModel s ->
  scene_ok w.
Proof.
  unfold scene_ok. intros (Hnd & Hmodels & Hcur & Hplaced) -> Hx -> -> ->.
  split; [now apply add_NoDup|]. split; [|split; assumption].
  intros o Hin Ho. apply add_In in Hin. destruct Hin as [-> | Hin]; [congruence|].
  apply Hmodels; [now apply remove_In in Hin | assumption].
Qed.

(** Once the current model is cleared, the scene holds no model root. *)
Lemma cleared_scene (s : World) :
  scene_ok s ->
  NoDup (map uuid (ModelViewer.scene (ModelViewer.clearCurrentModel (modelViewer s))))
  /\ forall o,
      In o (ModelViewer.scene (ModelViewer.clearCurrentModel (modelViewer s))) ->
      is_model o = false.
Proof.
  unfold scene_ok. intros (Hnd & Hmodels & _ & _).
  unfold ModelViewer.clearCurrentModel, shown_model, scene_of in *.
  destruct (ModelViewer.currentModel (modelViewer s)) as [current|]; cbn.
  - split; [now apply remove_NoDup|]. intros o Hin.
    destruct (is_model o) eqn:Ho; [|reflexivity].
    pose proof (Hmodels o (remove_In _ _ _ Hin) Ho) as H. injection H as <-.
    exfalso. now apply (remove_removes current current _ Hnd Hin).
  - split; [assumption|]. intros o Hin.
    destruct (is_model o) eqn:Ho; [|reflexivity].
    pose proof (Hmodels o Hin Ho). discriminate.
Qed.

(** ... that displays a loaded model in place of the current one. *)
Lemma scene_ok_display (s w : World) (result : LoadResult) :
  scene_ok s ->
  scene_of w
  = Scene.add (model result)
      (ModelViewer.scene (ModelViewer.clearCurrentModel (modelViewer s))) ->
  shown_model w = Some (model result) ->
  placed_model w = placed_model s ->
  currentModel w = Some result ->
  scene_ok w.
Proof.
  intros Hs Hscene Hshown Hplaced Hcur.
  destruct (cleared_scene s Hs) as [Hnd' Hnone].
  destruct Hs as (_ & _ & _ & Hnothing).
  unfold scene_ok. rewrite Hscene, Hshown, Hplaced, Hcur.
  split; [now apply add_NoDup|]. split; [|split; [reflexivity | assumption]].
  intros o Hin Ho. apply add_In in Hin. destruct Hin as [-> | Hin]; [reflexivity|].
  apply remove_In in Hin. rewrite (Hnone o Hin) in Ho. discriminate.
Qed.

(** ... that removes the reticle. *)
Lemma scene_ok_end (s w : World) (ring : option Object3D) :
  scene_ok s ->
  scene_of w = remove_if_set (placed_model s) (remove_if_set ring (scene_of s)) ->
  shown_model w = shown_model s ->
  placed_model w = None ->
  currentModel w = currentModel s ->
  scene_ok w.
Proof.
  unfold scene_ok. intros (Hnd & Hmodels & Hcur & Hplaced) -> -> -> ->.
  rewrite Hplaced. cbn [remove_if_set].
  assert (Hring : NoDup (map uuid (remove_if_set ring (scene_of s)))
                  /\ forall o, In o (remove_if_set ring (scene_of s)) -> In o (scene_of s)).
  { destruct ring; cbn [remove_if_set]; split; eauto using remove_NoDup, remove_In. }
  destruct Hring as [Hnd' Hsub].
  split; [assumption|]. split; [|split; [assumption | reflexivity]].
  intros o Hin Ho. apply Hmodels; [now apply Hsub | assumption].
Qed.

Lemma no_reentry_quiet (s w : World) (evs : list Event) :
  extends (trace s) (trace w) evs -> quiet evs -> no_reentry s w.
Proof.
  intros Hext Hq _. now exists evs.
Qed.

Lemma no_reentry_inactive (s w : World) :
  isARActive s = false -> no_reentry s w.
Proof.
  intros Hoff Hon. congruence.
Qed.

(** ** Walking through a computation *)

Ltac monad_unfold :=
  unfold update, complete, attempt, spawn, void, await, yield, awaitAsync, entered, allocate;
  cbn [bind ret raise catch get put Monad_Async MonadExc_Async MonadState_Async
       safe Task_bind Task_catch Task_attempt Task_spawn].

Lemma no_reentry_more (s w w' : World) (evs : list Event) :
  no_reentry s w -> extends (trace w) (trace w') evs -> quiet evs -> no_reentry s w'.
Proof.
  intros Hsw Hext Hq Hon. destruct (Hsw Hon) as (evs0 & Hext0 & Hq0).
  exists (evs ++ evs0)%list. split.
  - clear Hq Hq0 Hsw. induction Hext; simpl; [assumption | now constructor].
  - unfold quiet in *. clear Hext Hext0.
    induction evs as [|[] evs IH]; simpl in *; try (now apply IH); try assumption.
    apply Bool.andb_true_iff in Hq. destruct Hq as [Hc Hq].
    apply Bool.andb_true_iff. split; [assumption | now apply IH].
Qed.

(** The end of a stretch of code, by what it did to the scene, to the
    hit-test source and to the trace since a world [x] known to be in
    order. *)
Ltac scene_leaf x W Hs :=
  first
    [ apply (scene_ok_frame x W (proj1 Hs)); reflexivity
    | eapply (scene_ok_display x W _ (proj1 Hs)); reflexivity
    | eapply (scene_ok_add_other x W _ (proj1 Hs)); reflexivity
    | eapply (scene_ok_end x W _ (proj1 Hs)); reflexivity ].

Ltac reads_leaf x W Hs :=
  eapply (reads_ok_step x W _ (proj2 Hs));
  [ simpl; repeat constructor
  | first [ left; reflexivity | right; congruence ]
  | first [ left; reflexivity
          | right; left; reflexivity
          | right; right; do 2 eexists; simpl; eauto 10 ] ].

Ltac seg_leaf :=
  first
    [ apply no_reentry_inactive; assumption
    | eapply no_reentry_quiet; [ simpl; repeat constructor | reflexivity ]
    | eapply no_reentry_more; [ eassumption | simpl; repeat constructor | reflexivity ] ].

Ltac inv_leaf :=
  match goal with
  | Hs : app_ok ?x |- app_ok ?W =>
      split; [ scene_leaf x W Hs | reads_leaf x W Hs ]
  end.

(** A stretch of code that leaves the scene, the references to models and
    the hit-test source alone, reads no hit-test results and requests
    neither a session nor the camera. *)
Lemma settle_frame (s w w' : World) (evs : list Event) :
  app_ok w -> no_reentry s w ->
  scene_of w' = scene_of w ->
  shown_model w' = shown_model w ->
  placed_model w' = placed_model w ->
  currentModel w' = currentModel w ->
  ARMode.xrHitTestSource (arMode w') = ARMode.xrHitTestSource (arMode w) ->
  extends (trace w) (trace w') evs ->
  hit_test_reads evs = [] ->
  quiet evs ->
  app_ok w' /\ no_reentry s w'.
Proof.
  intros Hw Hsw H1 H2 H3 H4 H5 Hext Hreads Hq. split; [split|].
  - apply (scene_ok_frame w _ (proj1 Hw)); assumption.
  - apply (reads_ok_step w _ evs (proj2 Hw)); auto.
  - now apply (no_reentry_more s w _ evs).
Qed.

Lemma exitAR_ok (s w : World) :
  app_ok w -> no_reentry s w -> app_ok (exitAR w) /\ no_reentry s (exitAR w).
Proof.
  intros Hw Hsw.
  assert (Hevs : exists evs, extends (trace w) (trace (exitAR w)) evs
                             /\ hit_test_reads evs = [] /\ quiet evs).
  { clear. open_world w. unfold exitAR, endARSession.
    destruct w_webxr; [destruct w_session|destruct w_video]; cbn;
      eexists; (split; [repeat constructor|]); split; reflexivity. }
  destruct Hevs as (evs & Hext & Hreads & Hq).
  apply (settle_frame s w _ evs); try assumption;
    clear; open_world w; unfold exitAR, endARSession;
    (destruct w_webxr; [destruct w_session | destruct w_video]); reflexivity.
Qed.

Lemma startBasicARSimulation_ok (s w : World) :
  app_ok w -> no_reentry s w ->
  app_ok (startBasicARSimulation w) /\ no_reentry s (startBasicARSimulation w).
Proof.
  intros Hw Hsw.
  assert (Hevs : exists evs, extends (trace w) (trace (startBasicARSimulation w)) evs
                             /\ hit_test_reads evs = [] /\ quiet evs).
  { clear. open_world w. unfold startBasicARSimulation.
    destruct w_orientation; cbn;
      eexists; (split; [repeat constructor|]); split; reflexivity. }
  destruct Hevs as (evs & Hext & Hreads & Hq).
  apply (settle_frame s w _ evs); try assumption;
    clear; open_world w; unfold startBasicARSimulation;
    destruct w_orientation; reflexivity.
Qed.

Lemma onSessionEnd_ok (s w : World) :
  app_ok w -> no_reentry s w ->
  app_ok (onSessionEnd w) /\ no_reentry s (onSessionEnd w).
Proof.
  intros Hw Hsw.
  destruct (onSessionEnd_scene w) as (Hscene & Hplaced & _ & Hshown & Hcur).
  assert (Htrace : ARMode.xrHitTestSource (arMode (onSessionEnd w)) = None
                   /\ extends (trace w) (trace (onSessionEnd w)) [Entered onSessionEnd_]).
  { clear. open_world w. unfold onSessionEnd.
    destruct w_reticle, w_placed; cbn; split; try reflexivity; repeat constructor. }
  destruct Htrace as [Hsource Hext].
  split; [split|].
  - now apply (scene_ok_end w _ (option_map mesh (ARMode.reticle (arMode w))) (proj1 Hw)).
  - apply (reads_ok_step w _ [Entered onSessionEnd_] (proj2 Hw)); auto.
  - now apply (no_reentry_more s w _ [Entered onSessionEnd_]).
Qed.

Ltac leaf :=
  lazymatch goal with
  | |- app_ok (exitAR _) /\ _ => apply exitAR_ok; [ inv_leaf | seg_leaf ]
  | |- app_ok (startBasicARSimulation _) /\ _ =>
      apply startBasicARSimulation_ok; [ inv_leaf | seg_leaf ]
  | |- app_ok (onSessionEnd _) /\ _ => apply onSessionEnd_ok; [ inv_leaf | seg_leaf ]
  | |- app_ok _ /\ no_reentry _ _ => split; [ inv_leaf | seg_leaf ]
  end.

Ltac walk_step :=
  first
    [ progress monad_unfold
    | lazymatch goal with
      | |- safe _ _ _ _ (Task_catch _ _) => apply safe_catch
      | |- safe _ _ _ _ (Task_bind _ _) => apply safe_bind
      | |- safe _ _ _ _ (Task_attempt _) => apply safe_attempt
      | |- safe _ _ _ _ (Task_spawn _) =>
          apply safe_spawn; [ | let Hi := fresh "Hi" in
                                let Hg := fresh "Hg" in intros ? Hi Hg ]
      | |- safe _ _ _ _ (match ?x with _ => _ end) => destruct x eqn:?
      | |- safe _ _ _ _ ((match ?x with _ => _ end) _) => destruct x eqn:?
      | |- settled _ _ _ _ _ => unfold settled; leaf
      | |- (_ /\ _) /\ (forall _ _, _ -> _) =>
          split; [ leaf | let Hw := fresh "Hw" in intros ? ? Hw ]
      | |- (forall _ _, _ -> _) /\ _ =>
          split; [ let Hw := fresh "Hw" in intros ? ? Hw | ]
      | |- match ?x with _ => _ end => destruct x eqn:?
      end ].

Ltac walk := repeat walk_step.

(** ** The handlers are safe

    Each is started in the middle of a stretch of code begun in [s], in a
    world [w] that is in order. *)

Lemma no_reentry_refl (s : World) : no_reentry s s.
Proof.
  intros _. exists []. split; [constructor | reflexivity].
Qed.

Lemma loadModel_safe (file : File) (s w : World) :
  app_ok w -> no_reentry s w ->
  safe app_ok no_reentry (settled app_ok no_reentry) s (loadModel file w).
Proof.
  intros Hw Hsw.
  unfold loadModel, ModelLoader.loadModel, ModelLoader.loadGLTF, ModelLoader.loadSTL,
    GLTFLoader_parse.
  walk.
Qed.

Lemma onFileChosen_safe (file : option File) (s w : World) :
  app_ok w -> no_reentry s w ->
  safe app_ok no_reentry (settled app_ok no_reentry) s (onFileChosen file w).
Proof.
  intros Hw Hsw. unfold onFileChosen. destruct file as [f|].
  - unfold spawn. apply safe_spawn; [now apply loadModel_safe|].
    intros w' Hi Hg. split; assumption.
  - walk.
Qed.

Lemma checkWebXRSupport_safe (s w : World) :
  app_ok w -> no_reentry s w ->
  safe app_ok no_reentry (settled app_ok no_reentry) s (checkWebXRSupport w).
Proof.
  intros Hw Hsw. unfold checkWebXRSupport, WebXRUtils.checkWebXRSupport.
  walk.
Qed.

Lemma checkARSupport_safe (s w : World) :
  app_ok w -> no_reentry s w ->
  safe app_ok no_reentry (settled app_ok no_reentry) s (void checkARSupport w).
Proof.
  intros Hw Hsw. unfold checkARSupport.
  walk.
Qed.

Lemma init_safe (s w : World) :
  app_ok w -> no_reentry s w ->
  safe app_ok no_reentry (settled app_ok no_reentry) s (init w).
Proof.
  intros Hw Hsw. unfold init. monad_unfold.
  apply safe_bind. apply safe_spawn; [now apply checkARSupport_safe|].
  intros w1 Hi Hg. apply safe_spawn; [now apply checkWebXRSupport_safe|].
  intros w2 Hi' Hg'. split; assumption.
Qed.

Lemma onEndEvent_safe (session : XRSession) (s w : World) :
  app_ok w -> no_reentry s w ->
  safe app_ok no_reentry (settled app_ok no_reentry) s (onEndEvent session w).
Proof.
  intros Hw Hsw. unfold onEndEvent. walk.
Qed.

Lemma startARSimulation_safe (s w : World) :
  app_ok w -> isARActive s = false ->
  safe app_ok no_reentry (settled app_ok no_reentry) s (startARSimulation w).
Proof.
  intros Hw Hoff. unfold startARSimulation, setupCameraBackground.
  walk.
Qed.

Lemma enterAR_safe (s w : World) :
  app_ok w -> isARActive s = false ->
  safe app_ok no_reentry (settled app_ok no_reentry) s (enterAR w).
Proof.
  intros Hw Hoff.
  unfold enterAR, startARSession, requestARSession, setupXRSession, setupARLighting,
    createReticle, setupHitTest, addEndListener, startARSimulation, setupCameraBackground.
  walk.
Qed.

Lemma click_arButton_safe (s : World) :
  app_ok s ->
  safe app_ok no_reentry (settled app_ok no_reentry) s (click_arButton s).
Proof.
  intros Hs. unfold click_arButton, onARButtonClick. monad_unfold.
  destruct (Button.disabled (arButton s)); [walk|].
  destruct (isARActive s) eqn:Hactive; [walk|].
  apply safe_spawn; [now apply enterAR_safe|].
  intros w Hi Hg. split; assumption.
Qed.

Lemma placeModel_safe (pose : XRPose) (s w : World) :
  app_ok w -> no_reentry s w ->
  safe app_ok no_reentry (settled app_ok no_reentry) s (placeModel (PoseOfHit pose) w).
Proof.
  intros Hw Hsw. unfold placeModel, setFromMatrixPosition, set_reticle_visible. walk.
Qed.

Lemma tap_to_place_safe (pose : XRPose) (sources : list (option (list bool))) (s w : World) :
  app_ok w -> no_reentry s w ->
  safe app_ok no_reentry (settled app_ok no_reentry) s (tap_to_place pose sources w).
Proof.
  intros Hw Hsw.
  induction sources as [|[[|pressed buttons]|] sources IH]; cbn [tap_to_place].
  - walk.
  - walk.
  - destruct pressed; [now apply placeModel_safe | exact IH].
  - exact IH.
Qed.

Lemma onXRFrame_safe (frame : XRFrame) (s : World) :
  app_ok s ->
  safe app_ok no_reentry (settled app_ok no_reentry) s (onXRFrame frame s).
Proof.
  intros Hs. unfold onXRFrame, set_reticle_visible. monad_unfold.
  destruct (ARMode.xrHitTestSource (arMode s)) as [source|] eqn:Hsource; [|walk].
  walk.
  apply tap_to_place_safe; [inv_leaf | seg_leaf].
Qed.

Lemma animationLoopCallback_safe (frame : option XRFrame) (s : World) :
  app_ok s ->
  safe app_ok no_reentry (settled app_ok no_reentry) s (animationLoopCallback frame s).
Proof.
  intros Hs. unfold animationLoopCallback. destruct frame as [f|].
  - now apply onXRFrame_safe.
  - walk.
Qed.

(** ** Every reachable state of the event loop is in order *)

Lemma initial_world_ok (nav : Navigator) (button : Button.t) (loading error : Div.t) :
  app_ok (initial_world nav button loading error).
Proof.
  split; [split; [|split; [|split]]|split].
  - cbn. repeat constructor; simpl; intuition discriminate.
  - cbn. intros o [<-|[<-|[<-|[]]]]; discriminate.
  - reflexivity.
  - reflexivity.
  - cbn. congruence.
  - exact I.
Qed.

Lemma boot_stable (nav : Navigator) (button : Button.t) (loading error : Div.t) :
  stable app_ok no_reentry (boot nav button loading error).
Proof.
  unfold boot.
  apply (install_stable app_ok no_reentry _ (initial_world nav button loading error)).
  - apply init_safe; [apply initial_world_ok | apply no_reentry_refl].
  - constructor.
Qed.

(** One turn of the event loop keeps the system in order, and requests no
    session and no camera while AR is active. *)
Lemma step_stable (sys sys' : System) :
  stable app_ok no_reentry sys ->
  step sys sys' ->
  stable app_ok no_reentry sys' /\ no_reentry (world sys) (world sys').
Proof.
  intros [Hw Hp] Hstep. destruct Hstep as [sys file|sys|sys frame Hloop|sys session Hin|w before p after o];
    unfold dispatch; cbn [world pending] in *.
  - apply install_stable; [|assumption].
    apply onFileChosen_safe; [assumption | apply no_reentry_refl].
  - apply install_stable; [|assumption]. now apply click_arButton_safe.
  - apply install_stable; [|assumption]. now apply animationLoopCallback_safe.
  - apply install_stable; [|assumption].
    apply onEndEvent_safe; [assumption | apply no_reentry_refl].
  - apply Forall_app in Hp. destruct Hp as [Hbefore Hrest].
    inversion Hrest as [|? ? Hthis Hafter]; subst.
    apply install_stable; [now apply Hthis|].
    apply Forall_app. now split.
Qed.

Lemma reachable_stable (nav : Navigator) (button : Button.t) (loading error : Div.t)
      (sys : System) :
  reachable nav button loading error sys -> stable app_ok no_reentry sys.
Proof.
  induction 1 as [|s s' _ IH Hstep].
  - apply boot_stable.
  - now apply (step_stable s s').
Qed.

(** ** The scenarios are reachable *)

Section Scenarios.

Variables (nav : Navigator) (button : Button.t) (loading error : Div.t).



End Scenarios.



(** ** C2: the models in the scene *)





(** ** C6: no re-entry while AR is active *)





(** ** C8: the AR session setup and the frame callback *)

(** C8. [startARSession] makes its platform calls in a fixed order, each
    only once the one before has been fulfilled, whatever the answers and
    whatever happens in between: the request for an 'immersive-ar' session
    with 'hit-test' required, the request for a reference space (the
    floor's), a second one (the viewer's), the request for a hit-test
    source; after a rejection it makes no further call.  When all are
    fulfilled, the trace of a run shows each call resumed before the next
    is issued, and the session, the reference space and the hit-test
    source are stored.  The frame callback never suspends; it reads the
    hit-test results once when the hit-test source is set and not at all
    otherwise.  And in every reachable state, every reading of hit-test
    results in the trace comes after the fulfilment of a request for a
    hit-test source. *)
Theorem session_setup_is_ordered :
  (forall w : World,
      in_order (startARSession w)
        [requests_ar_session; requests_reference_space;
         requests_reference_space; requests_hit_test_source])
  /\ (forall (env : Oracle) (w : World) (session : XRSession)
             (floor viewer : XRReferenceSpace) (source : XRHitTestSource),
         ARMode.isARSupported (arMode w) = true ->
         xrInNavigator (navigator w) = true ->
         env (RequestSession "immersive-ar" ["hit-test"] ["dom-overlay"]) = Fulfilled session ->
         env (RequestReferenceSpace session "local-floor") = Fulfilled floor ->
         env (RequestReferenceSpace session "viewer") = Fulfilled viewer ->
         env (RequestHitTestSource session viewer) = Fulfilled source ->
         let w' := fst (run env (startARSession w)) in
         happened w w'
           [Entered startARSession_;
            Issued (RequestSession "immersive-ar" ["hit-test"] ["dom-overlay"]);
            Resumed (RequestSession "immersive-ar" ["hit-test"] ["dom-overlay"]) true;
            Issued (RequestReferenceSpace session "local-floor");
            Resumed (RequestReferenceSpace session "local-floor") true;
            Issued (RequestReferenceSpace session "viewer");
            Resumed (RequestReferenceSpace session "viewer") true;
            Issued (RequestHitTestSource session viewer);
            Resumed (RequestHitTestSource session viewer) true]
         /\ ARMode.xrSession (arMode w') = Some session
         /\ ARMode.xrRefSpace (arMode w') = Some floor
         /\ ARMode.xrHitTestSource (arMode w') = Some source)
  /\ (forall frame w,
         exists w' r,
           onXRFrame frame w = Finished w' r
           /\ hit_test_reads (trace w')
              = (match ARMode.xrHitTestSource (arMode w) with
                 | Some source => [source]
                 | None => []
                 end ++ hit_test_reads (trace w))%list)
  /\ (forall nav button loading error sys,
         reachable nav button loading error sys ->
         reads_after_ready (trace (world sys))
         /\ (ARMode.xrHitTestSource (arMode (world sys)) <> None ->
             hit_test_ready (trace (world sys)))).
Proof.
  split; [exact startARSession_in_order|]. split; [|split].
  - intros env w session floor viewer source Hs Hn H1 H2 H3 H4 w'. subst w'.
    destruct (startARSession_run env w session floor viewer source Hs Hn H1 H2 H3 H4)
      as (_ & Hev & Hse & Hsp & Hso & _).
    repeat split; assumption.
  - exact onXRFrame_reads.
  - intros nav button loading error sys Hreach.
    destruct (reachable_stable nav button loading error sys Hreach)
      as [[_ [Hready Horder]] _].
    split; assumption.
Qed.

(** * Further properties *)

(** ** The loader: validation, dispatch and the formats listed *)

Lemma supported_name_is_read (file : File) (w : World) :
  has_supported_extension file ->
  suspends_at (ModelLoader.loadModel file w) (ReadAsArrayBuffer file).
Proof.
  intros Hext.
  assert (Hname : is_gltf_name file = true \/ is_stl_name file = true).
  { unfold is_stl_name, is_gltf_name.
    destruct Hext as [H|[H|H]]; apply endsWith_ends_with in H; rewrite H;
      destruct (JsString.endsWith _ ".glb"); destruct (JsString.endsWith _ ".gltf");
      simpl; auto. }
  destruct Hname as [H|H].
  - rewrite (loadModel_gltf file H). do 2 eexists. reflexivity.
  - rewrite (loadModel_stl file H). do 2 eexists. reflexivity.
Qed.

Lemma validateFile_cases (file : File) :
  (has_supported_extension file /\
   (ModelLoaderStatic.validateFile file = Normal true
    \/ ModelLoaderStatic.validateFile file = Throw (Error "File too large. Maximum size: 50MB")))
  \/ (~ has_supported_extension file /\
      ModelLoaderStatic.validateFile file
      = Throw (Error "Unsupported file format. Supported formats: .glb, .gltf, .stl")).
Proof.
  pose proof (isSupported_iff file) as Hsup.
  unfold ModelLoaderStatic.validateFile.
  destruct (existsb _ ModelLoaderStatic.supportedExtensions); cbn [negb].
  - left. split; [now apply Hsup|].
    destruct (ModelLoaderStatic.maxSize <? size file)%N; auto.
  - right. split; [|reflexivity]. intros H. apply Hsup in H. discriminate.
Qed.

(** X1. [ModelLoader.validateFile] and [ModelLoader.loadModel] agree on
    the names they take.  A file that [validateFile] accepts is read by
    [loadModel]: the 'Unsupported file format: ...' branch of [loadModel]
    is out of reach behind [validateFile].  [loadModel] throws
    'Unsupported file format: <name>' exactly when [validateFile] throws
    its own 'Unsupported file format' error.  The size limit is
    [validateFile]'s alone: a file it refuses as too large, [loadModel]
    would read. *)
Theorem validateFile_and_loadModel_agree (file : File) (w : World) :
  (ModelLoaderStatic.validateFile file = Normal true ->
   suspends_at (ModelLoader.loadModel file w) (ReadAsArrayBuffer file))
  /\ (ModelLoader.loadModel file w
      = Finished w (Throw (Error ("Unsupported file format: "
                                  ++ JsString.toLowerCase (name file))))
      <-> ModelLoaderStatic.validateFile file
          = Throw (Error "Unsupported file format. Supported formats: .glb, .gltf, .stl"))
  /\ (ModelLoaderStatic.validateFile file = Throw (Error "File too large. Maximum size: 50MB") ->
      suspends_at (ModelLoader.loadModel file w) (ReadAsArrayBuffer file)).
Proof.
  destruct (validateFile_cases file) as [[Hext Hv]|[Hno Hv]].
  - pose proof (supported_name_is_read file w Hext) as (w0 & k & Hload).
    split; [intros _; now exists w0, k|]. split; [|intros _; now exists w0, k].
    rewrite Hload. split; [discriminate|]. destruct Hv as [-> | ->]; discriminate.
  - rewrite Hv. split; [discriminate|]. split; [|discriminate].
    split; [reflexivity|]. intros _.
    unfold has_supported_extension in Hno. unfold ModelLoader.loadModel.
    destruct (JsString.endsWith _ ".glb") eqn:H1.
    { exfalso. apply Hno. left. now apply endsWith_ends_with. }
    destruct (JsString.endsWith _ ".gltf") eqn:H2.
    { exfalso. apply Hno. right. left. now apply endsWith_ends_with. }
    destruct (JsString.endsWith _ ".stl") eqn:H3.
    { exfalso. apply Hno. right. right. now apply endsWith_ends_with. }
    reflexivity.
Qed.

Lemma toLowerCase_append (a b : string) :
  JsString.toLowerCase (a ++ b) = JsString.toLowerCase a ++ JsString.toLowerCase b.
Proof.
  induction a as [|c a IH]; simpl; [reflexivity | now rewrite IH].
Qed.

(** X2. The formats [ModelLoader.getSupportedFormats()] lists are the
    ones [validateFile] accepts: a file is accepted exactly when its
    lower-cased name ends with the extension of a listed format and its
    size is at most 50MB; and a file named by any stem followed by a
    listed extension, within the size limit, is accepted and then read by
    [loadModel]. *)
Theorem advertised_formats_are_accepted (file : File) :
  (ModelLoaderStatic.validateFile file = Normal true
   <-> (exists format, In format getSupportedFormats
                       /\ ends_with (JsString.toLowerCase (name file)) (extension format))
       /\ (size file <= 50 * 1024 * 1024)%N)
  /\ (forall format stem bytes w,
         In format getSupportedFormats ->
         (bytes <= 50 * 1024 * 1024)%N ->
         let named := mkFile (stem ++ extension format) bytes in
         ModelLoaderStatic.validateFile named = Normal true
         /\ suspends_at (ModelLoader.loadModel named w) (ReadAsArrayBuffer named)).
Proof.
  assert (Hlisted : forall f : File,
             has_supported_extension f
             <-> exists format, In format getSupportedFormats
                                /\ ends_with (JsString.toLowerCase (name f)) (extension format)).
  { intros f. unfold has_supported_extension, getSupportedFormats. split.
    - intros [H|[H|H]];
        [ exists (mkFormat ".glb" "Binary glTF")
        | exists (mkFormat ".gltf" "glTF JSON")
        | exists (mkFormat ".stl" "STL (3D Printing)") ];
        (split; [simpl; auto | exact H]).
    - intros (format & [<-|[<-|[<-|[]]]] & H); simpl in H; auto. }
  assert (Haccept : forall f : File,
             ModelLoaderStatic.validateFile f = Normal true
             <-> has_supported_extension f /\ (size f <= 50 * 1024 * 1024)%N).
  { intros f. pose proof (isSupported_iff f) as Hsup.
    unfold ModelLoaderStatic.validateFile, ModelLoaderStatic.maxSize.
    destruct (existsb _ ModelLoaderStatic.supportedExtensions); cbn [negb].
    - destruct (N.ltb_spec (50 * 1024 * 1024) (size f)).
      + split; [discriminate|]. intros [_ H']. lia.
      + split; [|reflexivity]. intros _. split; [now apply Hsup | assumption].
    - split; [discriminate|]. intros [H' _]. apply Hsup in H'. discriminate. }
  split.
  - rewrite Haccept, Hlisted. reflexivity.
  - intros format stem bytes w Hin Hsize named.
    assert (Hext : has_supported_extension named).
    { apply Hlisted. exists format. split; [assumption|].
      exists (JsString.toLowerCase stem). subst named. cbn [name].
      rewrite toLowerCase_append. f_equal.
      destruct Hin as [<-|[<-|[<-|[]]]]; reflexivity. }
    split; [apply Haccept; now split | now apply supported_name_is_read].
Qed.

(** ** The support check *)

(** Evaluate, leaving the tests on strings as they stand. *)
Ltac crunch :=
  cbv -[JsString.test_alternatives_i JsString.toLowerCase JsString.endsWith
        substring String.append render_message message_or].

Ltac crunch_with H := crunch; rewrite H.

Lemma checkWebXRSupport_run (env : Oracle) (w : World) :
  exists (support : WebXRUtils.Support) (evs : list Event),
    run env (WebXRUtils.checkWebXRSupport w) = (record_events evs w, Normal support)
    /\ run env (checkWebXRSupport w) = (apply_support support (record_events evs w), Normal tt)
    /\ shown evs = []
    /\ (truthy (WebXRUtils.ar support) = true <-> ar_is_reported env (navigator w))
    /\ (xrInNavigator (navigator w) = false ->
        evs = []
        /\ support = WebXRUtils.mkSupport false None None "WebXR not available in this browser")
    /\ (forall e, xrInNavigator (navigator w) = true ->
                  env (IsSessionSupported "immersive-ar") = Rejected e ->
                  support = WebXRUtils.mkSupport false None None
                              ("WebXR check failed: " ++ render_message e))
    /\ (forall a e, xrInNavigator (navigator w) = true ->
                    env (IsSessionSupported "immersive-ar") = Fulfilled a ->
                    env (IsSessionSupported "immersive-vr") = Rejected e ->
                    support = WebXRUtils.mkSupport false None None
                                ("WebXR check failed: " ++ render_message e)).
Proof.
  unfold ar_is_reported.
  destruct (xrInNavigator (navigator w)) eqn:Hxr.
  - destruct (env (IsSessionSupported "immersive-ar")) as [a|e] eqn:Ha.
    + destruct (env (IsSessionSupported "immersive-vr")) as [v|e] eqn:Hv.
      * exists (WebXRUtils.mkSupport (a || v) (Some a) (Some v)
                  (if a || v then "WebXR supported" else "No XR sessions supported")).
        exists [Issued (IsSessionSupported "immersive-ar");
                Resumed (IsSessionSupported "immersive-ar") true;
                Issued (IsSessionSupported "immersive-vr");
                Resumed (IsSessionSupported "immersive-vr") true].
        split; [|split; [|split; [reflexivity|split; [|split; [|split]]]]];
          try discriminate.
        -- open_world w. crunch_with Ha. crunch_with Hv. destruct a, v; reflexivity.
        -- open_world w. crunch_with Ha. crunch_with Hv.
           destruct a, v, w_ios, w_model,
             (JsString.test_alternatives_i ["Mobi"; "Android"] w_agent); reflexivity.
        -- destruct a; simpl; split; try discriminate; eauto.
           intros (_ & H & _). discriminate.
      * exists (WebXRUtils.mkSupport false None None
                  ("WebXR check failed: " ++ render_message e)).
        exists [Issued (IsSessionSupported "immersive-ar");
                Resumed (IsSessionSupported "immersive-ar") true;
                Issued (IsSessionSupported "immersive-vr");
                Resumed (IsSessionSupported "immersive-vr") false].
        split; [|split; [|split; [reflexivity|split; [|split; [|split]]]]];
          try discriminate.
        -- open_world w. crunch_with Ha. crunch_with Hv. reflexivity.
        -- open_world w. crunch_with Ha. crunch_with Hv.
           destruct w_ios, w_model,
             (JsString.test_alternatives_i ["Mobi"; "Android"] w_agent); reflexivity.
        -- simpl. split; [discriminate|]. intros (_ & _ & vr & H). discriminate.
        -- intros a' e' _ _ H. now injection H as <-.
    + exists (WebXRUtils.mkSupport false None None
                ("WebXR check failed: " ++ render_message e)).
      exists [Issued (IsSessionSupported "immersive-ar");
              Resumed (IsSessionSupported "immersive-ar") false].
      split; [|split; [|split; [reflexivity|split; [|split; [|split]]]]];
        try discriminate.
      * open_world w. crunch_with Ha. reflexivity.
      * open_world w. crunch_with Ha.
        destruct w_ios, w_model,
          (JsString.test_alternatives_i ["Mobi"; "Android"] w_agent); reflexivity.
      * simpl. split; [discriminate|]. intros (_ & H & _). discriminate.
      * intros e' _ H. now injection H as <-.
  - exists (WebXRUtils.mkSupport false None None "WebXR not available in this browser"), [].
    split; [|split; [|split; [reflexivity|split; [|split; [|split]]]]];
      try discriminate.
    + open_world w. reflexivity.
    + open_world w. crunch.
      destruct w_ios, w_model,
        (JsString.test_alternatives_i ["Mobi"; "Android"] w_agent); reflexivity.
    + simpl. split; [discriminate|]. intros (H & _). discriminate.
    + split; reflexivity.
Qed.

(** X3. [WebXRUtils.checkWebXRSupport] always resolves: whatever the
    platform answers, its promise is fulfilled with a support object and
    never rejected; it shows nothing and leaves the world as it was but
    for the calls recorded.  It reports AR ([ar] truthy) exactly when
    [navigator] has 'xr' and both probes are answered, the first with
    true: where the VR probe is rejected it reports no support, also when
    the AR probe had said true.  Without 'xr' it makes no call. *)
Theorem checkWebXRSupport_always_resolves (env : Oracle) (w : World) :
  exists (support : WebXRUtils.Support) (evs : list Event),
    run env (WebXRUtils.checkWebXRSupport w) = (record_events evs w, Normal support)
    /\ shown evs = []
    /\ (truthy (WebXRUtils.ar support) = true <-> ar_is_reported env (navigator w))
    /\ (xrInNavigator (navigator w) = false ->
        evs = []
        /\ support = WebXRUtils.mkSupport false None None "WebXR not available in this browser")
    /\ (forall a e, xrInNavigator (navigator w) = true ->
                    env (IsSessionSupported "immersive-ar") = Fulfilled a ->
                    env (IsSessionSupported "immersive-vr") = Rejected e ->
                    support = WebXRUtils.mkSupport false None None
                                ("WebXR check failed: " ++ render_message e)).
Proof.
  destruct (checkWebXRSupport_run env w) as (support & evs & H1 & _ & H3 & H4 & H5 & _ & H7).
  exists support, evs. repeat split; try assumption; try (now apply H4); now apply H5.
Qed.

Lemma apply_support_effect (support : WebXRUtils.Support) (w : World) :
  let w' := apply_support support w in
  hasWebXR w' = truthy (WebXRUtils.ar support)
  /\ (truthy (WebXRUtils.ar support) = true ->
      Button.disabled (arButton w') = false
      /\ Button.textContent (arButton w') = "Enter AR Mode"
      /\ trace w' = trace w)
  /\ (truthy (WebXRUtils.ar support) = false ->
      Button.textContent (arButton w')
      = (if isIOS w
         then match currentModel w with
              | Some _ => "AR Simulation"
              | None => "Load Model First"
              end
         else "AR Not Supported")
      /\ Button.disabled (arButton w')
         = negb (isIOS w && match currentModel w with Some _ => true | None => false end)
      /\ trace w'
         = ((if JsString.test_alternatives_i ["Mobi"; "Android"] (userAgent (navigator w))
             then [ShowError ("AR Debug: " ++ WebXRUtils.reason support ++ ". Device: "
                              ++ substring 0 50 (userAgent (navigator w)) ++ "...")]
             else []) ++ trace w)%list)
  /\ modelViewer w' = modelViewer w
  /\ arMode w' = arMode w
  /\ currentModel w' = currentModel w
  /\ isARActive w' = isARActive w.
Proof.
  destruct w as [[? ? ? ? ? ?] [? ? ? ? ? ?] w_model ? ? w_ios ? ? ? ? ? ? ? [w_agent ? ?] ? ?].
  unfold apply_support.
  destruct (truthy (WebXRUtils.ar support)); crunch.
  - repeat split; intros; try discriminate; repeat split; reflexivity.
  - destruct w_ios, w_model,
      (JsString.test_alternatives_i ["Mobi"; "Android"] w_agent);
      repeat split; intros; try discriminate; repeat split; reflexivity.
Qed.

Lemma shown_app (a b : list Event) : shown (a ++ b) = (shown a ++ shown b)%list.
Proof.
  induction a as [|[] a IH]; simpl; rewrite ?IH; reflexivity.
Qed.

(** Events that show no message, on top of a trace. *)
Lemma shown_silent (evs older : list Event) :
  shown evs = [] -> shown (rev evs ++ older) = shown older.
Proof.
  intros H. rewrite shown_app.
  assert (Hrev : shown (rev evs) = []).
  { induction evs as [|e evs IH]; [reflexivity|]. simpl rev. rewrite shown_app.
    destruct e; simpl in H; try discriminate; rewrite (IH H); reflexivity. }
  now rewrite Hrev.
Qed.

Lemma startsWith_append (front rest : string) :
  JsString.startsWith (front ++ rest) front = true.
Proof.
  unfold JsString.startsWith. induction front as [|c front IH]; simpl.
  - now destruct rest.
  - destruct (ascii_dec c c); [exact IH | contradiction].
Qed.

(** X4. What the support check of the application leaves.  It never
    throws.  [hasWebXR] is set exactly when AR is reported, and then the
    button is enabled as 'Enter AR Mode'.  Otherwise the button reads
    'AR Simulation' and is enabled on an iOS device with a model loaded,
    reads 'Load Model First' and is disabled on an iOS device without
    one, and reads 'AR Not Supported' and is disabled elsewhere.  The
    [catch] branch is never taken: the button never reads 'AR Check
    Failed', and a message shown by the check is an 'AR Debug: ' message.
    The viewer, the AR helper, the model and [isARActive] are as they
    were. *)
Theorem support_check_sets_the_button (env : Oracle) (w : World) :
  let w' := fst (run env (checkWebXRSupport w)) in
  snd (run env (checkWebXRSupport w)) = Normal tt
  /\ (hasWebXR w' = true <-> ar_is_reported env (navigator w))
  /\ (hasWebXR w' = true ->
      Button.disabled (arButton w') = false
      /\ Button.textContent (arButton w') = "Enter AR Mode")
  /\ (hasWebXR w' = false ->
      Button.textContent (arButton w')
      = (if isIOS w
         then match currentModel w with
              | Some _ => "AR Simulation"
              | None => "Load Model First"
              end
         else "AR Not Supported")
      /\ Button.disabled (arButton w')
         = negb (isIOS w && match currentModel w with Some _ => true | None => false end))
  /\ Button.textContent (arButton w') <> "AR Check Failed"
  /\ (forall msg, In msg (shown (trace w')) ->
                  In msg (shown (trace w)) \/ JsString.startsWith msg "AR Debug: " = true)
  /\ modelViewer w' = modelViewer w
  /\ arMode w' = arMode w
  /\ currentModel w' = currentModel w
  /\ isARActive w' = isARActive w.
Proof.
  intros w'. subst w'.
  destruct (checkWebXRSupport_run env w) as (support & evs & _ & Hrun & Hshown & Har & _).
  rewrite Hrun. cbn [fst snd].
  destruct (apply_support_effect support (record_events evs w))
    as (Hx & Hyes & Hno & Hviewer & Hmode & Hmodel & Hactive).
  rewrite record_events_frame in *. cbn [isIOS currentModel set_trace navigator trace] in *.
  rewrite Hx.
  split; [reflexivity|]. split; [exact Har|].
  split; [intros H; destruct (Hyes H) as (H1 & H2 & _); now split|].
  split; [intros H; destruct (Hno H) as (H1 & H2 & _); now split|].
  split; [|split; [|repeat split; assumption]].
  - destruct (truthy (WebXRUtils.ar support)) eqn:Ht.
    + destruct (Hyes eq_refl) as (_ & -> & _). discriminate.
    + destruct (Hno eq_refl) as (-> & _).
      destruct (isIOS w); [destruct (currentModel w)|]; discriminate.
  - intros msg Hin.
    pose proof (shown_silent evs (trace w) Hshown) as Hold.
    destruct (truthy (WebXRUtils.ar support)) eqn:Ht.
    + destruct (Hyes eq_refl) as (_ & _ & Htr). rewrite Htr, Hold in Hin. now left.
    + destruct (Hno eq_refl) as (_ & _ & Htr). rewrite Htr in Hin.
      destruct (JsString.test_alternatives_i _ _); simpl in Hin.
      * destruct Hin as [<-|Hin]; [right; apply (startsWith_append "AR Debug: ")|].
        rewrite Hold in Hin. now left.
      * rewrite Hold in Hin. now left.
Qed.

(** ** An AR session from start to end *)

(** Take a world apart, leaving the goal as it stands. *)
Ltac open_world_in_hyps w :=
  destruct w as [w_viewer w_ar w_model w_active w_webxr w_ios w_button w_loading
                 w_error w_video w_body w_videos w_listeners w_nav w_next w_trace];
  destruct w_viewer as [w_scene w_shown w_lights w_xr_on w_xr_session w_loop];
  destruct w_ar as [w_session w_space w_source w_placed w_reticle w_supported];
  destruct w_nav as [w_agent w_xr w_orientation];
  simpl in * |-; subst.

(** Evaluate the world a run ends in, once, and put it in place of the
    run. *)
Ltac run_by_vm :=
  match goal with
  | |- context [fst ?result] =>
      let W := fresh "W" in
      let Hrun := fresh "Hrun" in
      evar (W : World);
      assert (Hrun : fst result = W);
      [ subst W; vm_compute; reflexivity | rewrite Hrun; subst W; clear Hrun ]
  end.

Lemma remove_absent (x : Object3D) (l : Scene.t) :
  ~ In (uuid x) (map uuid l) -> Scene.remove x l = l.
Proof.
  induction l as [|c l IH]; simpl; [reflexivity|]. intros H.
  unfold same_object. destruct (Nat.eqb_spec (uuid c) (uuid x)) as [Heq|Hne].
  - exfalso. apply H. now left.
  - f_equal. apply IH. intros Hin. apply H. now right.
Qed.

(** Adding a new object and removing it again gives the scene back. *)
Lemma remove_add_fresh (x : Object3D) (l : Scene.t) :
  ~ In (uuid x) (map uuid l) -> Scene.remove x (Scene.add x l) = l.
Proof.
  intros H. unfold Scene.add. rewrite (remove_absent x l H).
  induction l as [|c l IH]; simpl.
  - unfold same_object. now rewrite Nat.eqb_refl.
  - unfold same_object in *. destruct (Nat.eqb_spec (uuid c) (uuid x)) as [Heq|Hne].
    + exfalso. apply H. now left.
    + f_equal. apply IH. intros Hin. apply H. now right.
Qed.

(** Entering AR when the platform grants everything. *)
Lemma enterAR_started
      (env : Oracle) (w : World) (r : LoadResult)
      (session : XRSession) (floor viewer : XRReferenceSpace) (source : XRHitTestSource) :
  currentModel w = Some r ->
  hasWebXR w = true ->
  xrInNavigator (navigator w) = true ->
  arMode w = idle_helper ->
  env (RequestSession "immersive-ar" ["hit-test"] ["dom-overlay"]) = Fulfilled session ->
  env (RequestReferenceSpace session "local-floor") = Fulfilled floor ->
  env (RequestReferenceSpace session "viewer") = Fulfilled viewer ->
  env (RequestHitTestSource session viewer) = Fulfilled source ->
  let ring := mkObject (nextUuid w) ReticleMesh in
  let w1 := fst (run env (enterAR w)) in
  isARActive w1 = true
  /\ ModelViewer.animationLoop (modelViewer w1) = Some ARFrameLoop
  /\ arMode w1
     = ARMode.mk (Some session) (Some floor) (Some source) None
                 (Some (mkReticle ring false)) true
  /\ scene_of w1 = Scene.add ring (scene_of w)
  /\ endListeners w1 = (endListeners w ++ [session])%list
  /\ hasWebXR w1 = true
  /\ shown_model w1 = shown_model w
  /\ currentModel w1 = currentModel w
  /\ Button.textContent (arButton w1) = "Exit AR"
  /\ body_ar_mode w1 = true
  /\ Div.display (loadingDiv w1) = "none"
  /\ shown (trace w1) = shown (trace w).
Proof.
  intros Hm Hx Hn Hidle H1 H2 H3 H4 ring w1. subst ring w1.
  unfold idle_helper, scene_of, shown_model in *. open_world w.
  injection Hidle as -> -> -> -> -> ->.
  match goal with
  | |- context [fst (run env (enterAR ?x))] =>
      evar (W : World);
      assert (Hrun : fst (run env (enterAR x)) = W);
      [ subst W; vm_compute; rewrite H1; vm_compute; rewrite H2; vm_compute;
        rewrite H3; vm_compute; rewrite H4; vm_compute; reflexivity
      | rewrite Hrun; subst W ]
  end.
  repeat split; reflexivity.
Qed.

(** Leaving AR: [exitAR] ends the session, and the session's 'end' event
    runs [onSessionEnd]. *)
Lemma exitAR_then_end (env : Oracle) (w : World) (session : XRSession) (r : Reticle) :
  hasWebXR w = true ->
  ARMode.xrSession (arMode w) = Some session ->
  ARMode.reticle (arMode w) = Some r ->
  ARMode.placedModel (arMode w) = None ->
  let w2 := fst (run env (onEndEvent session (exitAR w))) in
  trace w2 = (Entered onSessionEnd_ :: SessionEnd session :: Entered exitAR_ :: trace w)
  /\ isARActive w2 = false
  /\ ModelViewer.animationLoop (modelViewer w2) = None
  /\ ModelViewer.xr_enabled (modelViewer w2) = false
  /\ arMode w2 = ARMode.mk None None None None None (ARMode.isARSupported (arMode w))
  /\ scene_of w2 = Scene.remove (mesh r) (scene_of w)
  /\ shown_model w2 = shown_model w
  /\ currentModel w2 = currentModel w
  /\ body_ar_mode w2 = false
  /\ Button.textContent (arButton w2) = "Enter AR Mode".
Proof.
  intros Hx Hs Hr Hp w2. subst w2. unfold scene_of, shown_model.
  open_world_in_hyps w. run_by_vm.
  repeat split; reflexivity.
Qed.

(** X5. An AR session from start to end.  With a model loaded, the
    helper idle and every request granted, [enterAR] ends with the
    session held, the reticle, a new object, in the scene, the frame loop
    installed and an 'end' listener on the session.  [exitAR] then calls
    [end()] on that session, and once the session's 'end' event has run
    [onSessionEnd] the scene and the helper are exactly as before the
    session; the frame loop is off, [isARActive] is false and the button
    reads 'Enter AR Mode' again. *)
Theorem ar_session_round_trip
        (env : Oracle) (w : World) (r : LoadResult)
        (session : XRSession) (floor viewer : XRReferenceSpace) (source : XRHitTestSource) :
  currentModel w = Some r ->
  hasWebXR w = true ->
  xrInNavigator (navigator w) = true ->
  arMode w = idle_helper ->
  ~ In (nextUuid w) (map uuid (scene_of w)) ->
  env (RequestSession "immersive-ar" ["hit-test"] ["dom-overlay"]) = Fulfilled session ->
  env (RequestReferenceSpace session "local-floor") = Fulfilled floor ->
  env (RequestReferenceSpace session "viewer") = Fulfilled viewer ->
  env (RequestHitTestSource session viewer) = Fulfilled source ->
  let ring := mkObject (nextUuid w) ReticleMesh in
  let w1 := fst (run env (enterAR w)) in
  let w2 := fst (run env (onEndEvent session (exitAR w1))) in
  (isARActive w1 = true
   /\ ModelViewer.animationLoop (modelViewer w1) = Some ARFrameLoop
   /\ ARMode.xrSession (arMode w1) = Some session
   /\ ARMode.reticle (arMode w1) = Some (mkReticle ring false)
   /\ In ring (scene_of w1)
   /\ In session (endListeners w1))
  /\ (In (SessionEnd session) (trace w2)
      /\ isARActive w2 = false
      /\ ModelViewer.animationLoop (modelViewer w2) = None
      /\ ModelViewer.xr_enabled (modelViewer w2) = false
      /\ arMode w2 = arMode w
      /\ scene_of w2 = scene_of w
      /\ shown_model w2 = shown_model w
      /\ currentModel w2 = currentModel w
      /\ body_ar_mode w2 = false
      /\ Button.textContent (arButton w2) = "Enter AR Mode").
Proof.
  intros Hm Hx Hn Hidle Hfresh H1 H2 H3 H4 ring w1 w2.
  pose proof (enterAR_started env w r session floor viewer source Hm Hx Hn Hidle H1 H2 H3 H4)
    as Hentered.
  cbv zeta in Hentered. fold ring in Hentered. fold w1 in Hentered. clearbody w1.
  destruct Hentered as (Ha & Hloop & Hmode & Hscene & Hlisten & Hx1 & Hshown & Hcur & _).
  assert (Hs1 : ARMode.xrSession (arMode w1) = Some session) by now rewrite Hmode.
  assert (Hr1 : ARMode.reticle (arMode w1) = Some (mkReticle ring false)) by now rewrite Hmode.
  assert (Hp1 : ARMode.placedModel (arMode w1) = None) by now rewrite Hmode.
  pose proof (exitAR_then_end env w1 session _ Hx1 Hs1 Hr1 Hp1) as Hleft.
  cbv zeta in Hleft. fold w2 in Hleft. clearbody w2.
  destruct Hleft
    as (Htr & Hoff & Hloop2 & Hxr & Hmode2 & Hscene2 & Hshown2 & Hcur2 & Hbody & Htext).
  split; repeat split; try assumption; try congruence.
  - rewrite Hscene. apply add_In. now left.
  - rewrite Hlisten. apply in_or_app. right. now left.
  - rewrite Htr. simpl. auto.
  - rewrite Hmode2, Hmode, Hidle. reflexivity.
  - rewrite Hscene2, Hscene. cbn [mesh]. now apply remove_add_fresh.
Qed.

(** The phone with a model loaded, on a platform that grants every
    request. *)
Lemma ar_session_round_trip_witness :
  let w := with_model android_phone in
  ~ In (nextUuid w) (map uuid (scene_of w))
  /\ arMode w = idle_helper
  /\ let ring := mkObject (nextUuid w) ReticleMesh in
     let w1 := fst (run cooperative (enterAR w)) in
     let w2 := fst (run cooperative (onEndEvent 100 (exitAR w1))) in
     (isARActive w1 = true
      /\ ModelViewer.animationLoop (modelViewer w1) = Some ARFrameLoop
      /\ ARMode.xrSession (arMode w1) = Some 100
      /\ ARMode.reticle (arMode w1) = Some (mkReticle ring false)
      /\ In ring (scene_of w1)
      /\ In 100 (endListeners w1))
     /\ (In (SessionEnd 100) (trace w2)
         /\ isARActive w2 = false
         /\ ModelViewer.animationLoop (modelViewer w2) = None
         /\ ModelViewer.xr_enabled (modelViewer w2) = false
         /\ arMode w2 = arMode w
         /\ scene_of w2 = scene_of w
         /\ shown_model w2 = shown_model w
         /\ currentModel w2 = currentModel w
         /\ body_ar_mode w2 = false
         /\ Button.textContent (arButton w2) = "Enter AR Mode").
Proof.
  assert (Hfresh : ~ In (nextUuid (with_model android_phone))
                        (map uuid (scene_of (with_model android_phone)))).
  { vm_compute. intuition discriminate. }
  assert (Hm : currentModel (with_model android_phone)
               = Some (mkLoadResult (mkObject 3 ModelRoot) ["Walk"] gltf))
    by (vm_compute; reflexivity).
  assert (Hx : hasWebXR (with_model android_phone) = true) by (vm_compute; reflexivity).
  assert (Hn : xrInNavigator (navigator (with_model android_phone)) = true)
    by (vm_compute; reflexivity).
  assert (Hidle : arMode (with_model android_phone) = idle_helper)
    by (vm_compute; reflexivity).
  split; [exact Hfresh|]. split; [exact Hidle|].
  exact (ar_session_round_trip cooperative (with_model android_phone)
           (mkLoadResult (mkObject 3 ModelRoot) ["Walk"] gltf) 100 200 201 300
           Hm Hx Hn Hidle Hfresh eq_refl eq_refl eq_refl eq_refl).
Defined.

(** X6. A session that is granted but whose setup then fails is not
    ended.  When a reference space or the hit-test source is refused,
    [enterAR] shows 'AR failed: ' with the reason and leaves [isARActive]
    and the frame loop as they were; but [arMode.xrSession] keeps the
    session, no [end()] is called on it and no 'end' listener is put on
    it, and where the failure comes after [createReticle] the reticle
    stays in the scene and [renderer.xr.enabled] stays set. *)
Theorem failed_session_setup_leaves_the_session_open
      (env : Oracle) (w : World) (r : LoadResult) (session : XRSession)
      (created : bool) (e : Exn) :
  currentModel w = Some r ->
  hasWebXR w = true ->
  ARMode.isARSupported (arMode w) = true ->
  xrInNavigator (navigator w) = true ->
  env (RequestSession "immersive-ar" ["hit-test"] ["dom-overlay"]) = Fulfilled session ->
  setup_failure env session created e ->
  let ring := mkObject (nextUuid w) ReticleMesh in
  let w' := fst (run env (enterAR w)) in
  errorDiv w' = Div.mk ("AR failed: " ++ render_message e) "block"
  /\ Div.display (loadingDiv w') = "none"
  /\ isARActive w' = isARActive w
  /\ ModelViewer.animationLoop (modelViewer w') = ModelViewer.animationLoop (modelViewer w)
  /\ ARMode.xrSession (arMode w') = Some session
  /\ ARMode.xrHitTestSource (arMode w') = ARMode.xrHitTestSource (arMode w)
  /\ endListeners w' = endListeners w
  /\ (exists evs, trace w' = (evs ++ trace w)%list /\ ends_no_session evs)
  /\ ARMode.reticle (arMode w')
     = (if created then Some (mkReticle ring false) else ARMode.reticle (arMode w))
  /\ scene_of w' = (if created then Scene.add ring (scene_of w) else scene_of w)
  /\ ModelViewer.xr_enabled (modelViewer w')
     = (if created then true else ModelViewer.xr_enabled (modelViewer w)).
Proof.
  intros Hm Hx Hs Hn H1 Hfail ring w'. subst ring w'. unfold scene_of.
  destruct Hfail as [e H2|floor e H2 H3|floor viewer e H2 H3 H4]; open_world_in_hyps w.
  - match goal with
    | |- context [fst ?result] =>
        evar (W : World);
        assert (Hrun : fst result = W);
        [ subst W; vm_compute; rewrite H1; vm_compute; rewrite H2; vm_compute; reflexivity
        | rewrite Hrun; subst W; clear Hrun ]
    end.
    repeat split; try reflexivity.
    exists [ShowError ("AR failed: " ++ render_message e);
            Resumed (RequestReferenceSpace session "local-floor") false;
            Issued (RequestReferenceSpace session "local-floor");
            Resumed (RequestSession "immersive-ar" ["hit-test"] ["dom-overlay"]) true;
            Issued (RequestSession "immersive-ar" ["hit-test"] ["dom-overlay"]);
            Entered startARSession_; Entered enterAR_].
    split; [reflexivity|]. intros s Hin. simpl in Hin. intuition discriminate.
  - match goal with
    | |- context [fst ?result] =>
        evar (W : World);
        assert (Hrun : fst result = W);
        [ subst W; vm_compute; rewrite H1; vm_compute; rewrite H2; vm_compute;
          rewrite H3; vm_compute; reflexivity
        | rewrite Hrun; subst W; clear Hrun ]
    end.
    repeat split; try reflexivity.
    exists [ShowError ("AR failed: " ++ render_message e);
            Resumed (RequestReferenceSpace session "viewer") false;
            Issued (RequestReferenceSpace session "viewer");
            Resumed (RequestReferenceSpace session "local-floor") true;
            Issued (RequestReferenceSpace session "local-floor");
            Resumed (RequestSession "immersive-ar" ["hit-test"] ["dom-overlay"]) true;
            Issued (RequestSession "immersive-ar" ["hit-test"] ["dom-overlay"]);
            Entered startARSession_; Entered enterAR_].
    split; [reflexivity|]. intros s Hin. simpl in Hin. intuition discriminate.
  - match goal with
    | |- context [fst ?result] =>
        evar (W : World);
        assert (Hrun : fst result = W);
        [ subst W; vm_compute; rewrite H1; vm_compute; rewrite H2; vm_compute;
          rewrite H3; vm_compute; rewrite H4; vm_compute; reflexivity
        | rewrite Hrun; subst W; clear Hrun ]
    end.
    repeat split; try reflexivity.
    exists [ShowError ("AR failed: " ++ render_message e);
            Resumed (RequestHitTestSource session viewer) false;
            Issued (RequestHitTestSource session viewer);
            Resumed (RequestReferenceSpace session "viewer") true;
            Issued (RequestReferenceSpace session "viewer");
            Resumed (RequestReferenceSpace session "local-floor") true;
            Issued (RequestReferenceSpace session "local-floor");
            Resumed (RequestSession "immersive-ar" ["hit-test"] ["dom-overlay"]) true;
            Issued (RequestSession "immersive-ar" ["hit-test"] ["dom-overlay"]);
            Entered startARSession_; Entered enterAR_].
    split; [reflexivity|]. intros s Hin. simpl in Hin. intuition discriminate.
Qed.

(** The phone with a model loaded, on a platform that refuses the
    hit-test source. *)
Lemma failed_session_setup_leaves_the_session_open_witness :
  let w := with_model android_phone in
  let e := Error "Hit test is not supported." in
  setup_failure hit_test_refused 100 true e
  /\ let ring := mkObject (nextUuid w) ReticleMesh in
     let w' := fst (run hit_test_refused (enterAR w)) in
     errorDiv w' = Div.mk ("AR failed: " ++ render_message e) "block"
     /\ Div.display (loadingDiv w') = "none"
     /\ isARActive w' = isARActive w
     /\ ModelViewer.animationLoop (modelViewer w') = ModelViewer.animationLoop (modelViewer w)
     /\ ARMode.xrSession (arMode w') = Some 100
     /\ ARMode.xrHitTestSource (arMode w') = ARMode.xrHitTestSource (arMode w)
     /\ endListeners w' = endListeners w
     /\ (exists evs, trace w' = (evs ++ trace w)%list /\ ends_no_session evs)
     /\ ARMode.reticle (arMode w')
        = (if true then Some (mkReticle ring false) else ARMode.reticle (arMode w))
     /\ scene_of w' = (if true then Scene.add ring (scene_of w) else scene_of w)
     /\ ModelViewer.xr_enabled (modelViewer w')
        = (if true then true else ModelViewer.xr_enabled (modelViewer w)).
Proof.
  assert (Hfail : setup_failure hit_test_refused 100 true (Error "Hit test is not supported.")).
  { apply (source_refused hit_test_refused 100 200 201); reflexivity. }
  assert (Hm : currentModel (with_model android_phone)
               = Some (mkLoadResult (mkObject 3 ModelRoot) ["Walk"] gltf))
    by (vm_compute; reflexivity).
  assert (Hx : hasWebXR (with_model android_phone) = true) by (vm_compute; reflexivity).
  assert (Hs : ARMode.isARSupported (arMode (with_model android_phone)) = true)
    by (vm_compute; reflexivity).
  assert (Hn : xrInNavigator (navigator (with_model android_phone)) = true)
    by (vm_compute; reflexivity).
  split; [exact Hfail|].
  exact (failed_session_setup_leaves_the_session_open hit_test_refused
           (with_model android_phone)
           (mkLoadResult (mkObject 3 ModelRoot) ["Walk"] gltf) 100 true
           (Error "Hit test is not supported.")
           Hm Hx Hs Hn eq_refl Hfail).
Defined.

(** ** The simulation from start to end, and frames *)

Lemma remove_element_last (stream : MediaStream) (elements : list MediaStream) :
  ~ In stream elements -> remove_element stream (elements ++ [stream]) = elements.
Proof.
  induction elements as [|e elements IH]; simpl; intros H.
  - now rewrite Nat.eqb_refl.
  - destruct (Nat.eqb_spec e stream) as [Heq|Hne].
    + exfalso. apply H. now left.
    + f_equal. apply IH. intros Hin. apply H. now right.
Qed.

(** The simulation with the camera granted. *)
Lemma enterAR_simulation_started
      (env : Oracle) (w : World) (r : LoadResult) (stream : MediaStream) :
  currentModel w = Some r ->
  hasWebXR w = false ->
  env (GetUserMedia "environment") = Fulfilled stream ->
  let w1 := fst (run env (enterAR w)) in
  isARActive w1 = true
  /\ hasWebXR w1 = false
  /\ arVideoElement w1 = Some stream
  /\ body_videos w1 = (body_videos w ++ [stream])%list
  /\ body_ar_mode w1 = true
  /\ Div.display (errorDiv w1) = "block"
  /\ modelViewer w1 = modelViewer w
  /\ arMode w1 = arMode w
  /\ currentModel w1 = currentModel w
  /\ issued (trace w1) = (GetUserMedia "environment" :: issued (trace w)).
Proof.
  intros Hm Hx Hcam w1. subst w1. open_world_in_hyps w.
  destruct w_orientation.
  - match goal with
    | |- context [fst ?result] =>
        evar (W : World);
        assert (Hrun : fst result = W);
        [ subst W; vm_compute; rewrite Hcam; vm_compute; reflexivity
        | rewrite Hrun; subst W; clear Hrun ]
    end.
    repeat split; reflexivity.
  - match goal with
    | |- context [fst ?result] =>
        evar (W : World);
        assert (Hrun : fst result = W);
        [ subst W; vm_compute; rewrite Hcam; vm_compute; reflexivity
        | rewrite Hrun; subst W; clear Hrun ]
    end.
    repeat split; reflexivity.
Qed.

(** Leaving the simulation. *)
Lemma exitAR_simulation (w : World) (stream : MediaStream) :
  hasWebXR w = false ->
  arVideoElement w = Some stream ->
  let w2 := exitAR w in
  trace w2 = (StopTracks stream :: Entered exitAR_ :: trace w)
  /\ arVideoElement w2 = None
  /\ body_videos w2 = remove_element stream (body_videos w)
  /\ isARActive w2 = false
  /\ body_ar_mode w2 = false
  /\ Div.display (errorDiv w2) = "none"
  /\ Button.textContent (arButton w2) = "AR Simulation"
  /\ modelViewer w2 = modelViewer w
  /\ arMode w2 = arMode w
  /\ currentModel w2 = currentModel w.
Proof.
  intros Hx Hv w2. subst w2. open_world_in_hyps w.
  repeat split; reflexivity.
Qed.

(** X7. The simulation from start to end.  Without WebXR, with a
    model loaded and the camera granted, [enterAR] ends with the camera's
    video element appended to the body and [isARActive] set.  [exitAR]
    then stops the tracks of the stream, removes the video element, so
    that the body holds the videos it held before, hides the error box
    and the 'ar-mode' class, and leaves the button reading 'AR
    Simulation'; the children of the scene, the viewer's and the
    application's references to the model, the renderer's XR state and the
    AR helper are as they were before the simulation.  The model itself is
    not put back: whatever position and scale the loader had given it, the
    simulation sets them to (0, -0.5, 0) and 0.3, and [exitAR] to (0, 0, 0)
    and 1, which is where the model was only if it was there before. *)
Theorem simulation_round_trip
        (env : Oracle) (w : World) (r : LoadResult) (stream : MediaStream) :
  currentModel w = Some r ->
  hasWebXR w = false ->
  env (GetUserMedia "environment") = Fulfilled stream ->
  ~ In stream (body_videos w) ->
  let w1 := fst (run env (enterAR w)) in
  let w2 := exitAR w1 in
  (isARActive w1 = true
   /\ arVideoElement w1 = Some stream
   /\ In stream (body_videos w1)
   /\ body_ar_mode w1 = true)
  /\ (In (StopTracks stream) (trace w2)
      /\ arVideoElement w2 = None
      /\ body_videos w2 = body_videos w
      /\ isARActive w2 = false
      /\ body_ar_mode w2 = false
      /\ Div.display (errorDiv w2) = "none"
      /\ Button.textContent (arButton w2) = "AR Simulation"
      /\ modelViewer w2 = modelViewer w
      /\ arMode w2 = arMode w
      /\ currentModel w2 = currentModel w)
  /\ (forall loaded : Placement.t,
         let simulated := Placement.startARSimulation (Some loaded) in
         let left := Placement.exitAR (hasWebXR w1) simulated in
         simulated = Some Placement.on_surface
         /\ left = Some Placement.at_origin
         /\ (left = Some loaded <-> loaded = Placement.at_origin)).
Proof.
  intros Hm Hx Hcam Hfresh w1 w2.
  pose proof (enterAR_simulation_started env w r stream Hm Hx Hcam) as Hentered.
  cbv zeta in Hentered. fold w1 in Hentered. clearbody w1.
  destruct Hentered as (Ha & Hx1 & Hv & Hvideos & Hbody & _ & Hviewer & Hmode & Hcur & _).
  pose proof (exitAR_simulation w1 stream Hx1 Hv) as Hleft.
  cbv zeta in Hleft. fold w2 in Hleft. clearbody w2.
  destruct Hleft as (Htr & Hv2 & Hvideos2 & Hoff & Hbody2 & Herr & Htext & Hviewer2 & Hmode2 & Hcur2).
  split; [|split].
  - repeat split; try assumption.
    rewrite Hvideos. apply in_or_app. right. now left.
  - repeat split; try assumption; try congruence.
    + rewrite Htr. now left.
    + rewrite Hvideos2, Hvideos. now apply remove_element_last.
  - intros loaded simulated left. subst simulated left. rewrite Hx1.
    cbn [Placement.startARSimulation Placement.exitAR].
    split; [reflexivity|]. split; [reflexivity|].
    split; [intros H; now injection H | intros ->; reflexivity].
Qed.

(** The iPhone with a model loaded and the camera granted. *)
Lemma simulation_round_trip_witness :
  let w := with_model iphone in
  hasWebXR w = false
  /\ ~ In 400 (body_videos w)
  /\ let w1 := fst (run cooperative (enterAR w)) in
     let w2 := exitAR w1 in
     (isARActive w1 = true
      /\ arVideoElement w1 = Some 400
      /\ In 400 (body_videos w1)
      /\ body_ar_mode w1 = true)
     /\ (In (StopTracks 400) (trace w2)
         /\ arVideoElement w2 = None
         /\ body_videos w2 = body_videos w
         /\ isARActive w2 = false
         /\ body_ar_mode w2 = false
         /\ Div.display (errorDiv w2) = "none"
         /\ Button.textContent (arButton w2) = "AR Simulation"
         /\ modelViewer w2 = modelViewer w
         /\ arMode w2 = arMode w
         /\ currentModel w2 = currentModel w)
     /\ (forall loaded : Placement.t,
            let simulated := Placement.startARSimulation (Some loaded) in
            let left := Placement.exitAR (hasWebXR w1) simulated in
            simulated = Some Placement.on_surface
            /\ left = Some Placement.at_origin
            /\ (left = Some loaded <-> loaded = Placement.at_origin)).
Proof.
  assert (Hfresh : ~ In 400 (body_videos (with_model iphone))).
  { vm_compute. tauto. }
  assert (Hm : currentModel (with_model iphone)
               = Some (mkLoadResult (mkObject 3 ModelRoot) ["Walk"] gltf))
    by (vm_compute; reflexivity).
  assert (Hx : hasWebXR (with_model iphone) = false) by (vm_compute; reflexivity).
  split; [exact Hx|]. split; [exact Hfresh|].
  exact (simulation_round_trip cooperative (with_model iphone)
           (mkLoadResult (mkObject 3 ModelRoot) ["Walk"] gltf) 400
           Hm Hx eq_refl Hfresh).
Defined.

Lemma tap_to_place_decides (pose : XRPose) (sources : list (option (list bool))) (w : World) :
  Forall has_primary_button sources ->
  tap_to_place pose sources w
  = if existsb primary_pressed sources then placeModel (PoseOfHit pose) w
    else Finished w (Normal tt).
Proof.
  induction 1 as [|[[|pressed buttons]|] sources Hfirst _ IH]; cbn [tap_to_place existsb primary_pressed].
  - reflexivity.
  - now contradiction Hfirst.
  - destruct pressed; [reflexivity | exact IH].
  - exact IH.
Qed.

(** X8. What a frame does in a running session (hit-test source,
    session and reticle set, every gamepad with a button).  Only the
    first hit-test result counts.  Without results the reticle is hidden;
    with a first result that has no pose nothing changes; with a pose the
    reticle is shown.  No frame changes the viewer, its scene included, or
    places a clone: when a primary button is pressed and a model is
    loaded, [placeModel] clones the model and throws a [TypeError] at
    [setFromMatrixPosition] (the matrix of the pose is a [Float32Array]),
    before the clone is added; the error leaves the frame callback and the
    reticle stays shown.  A press without a model loaded does nothing
    more. *)
Theorem frame_moves_the_reticle
        (frame : XRFrame) (w : World)
        (source : XRHitTestSource) (session : XRSession) (r : Reticle) :
  ARMode.xrHitTestSource (arMode w) = Some source ->
  ARMode.xrSession (arMode w) = Some session ->
  ARMode.reticle (arMode w) = Some r ->
  Forall has_primary_button (inputSources frame) ->
  exists w' : World,
    onXRFrame frame w
    = Finished w'
        (match hitTestResults frame, shown_model w with
         | Some _ :: _, Some _ =>
             if existsb primary_pressed (inputSources frame)
             then Throw (TypeError "12") else Normal tt
         | _, _ => Normal tt
         end)
    /\ modelViewer w' = modelViewer w
    /\ placed_model w' = placed_model w
    /\ match hitTestResults frame with
       | [] => ARMode.reticle (arMode w') = Some (mkReticle (mesh r) false)
       | None :: _ => arMode w' = arMode w
       | Some _ :: _ => ARMode.reticle (arMode w') = Some (mkReticle (mesh r) true)
       end
    /\ entries (trace w')
       = (match hitTestResults frame with
          | Some _ :: _ =>
              if existsb primary_pressed (inputSources frame) then [placeModel_] else []
          | _ => []
          end ++ entries (trace w))%list
    /\ nextUuid w'
       = match hitTestResults frame, shown_model w with
         | Some _ :: _, Some _ =>
             if existsb primary_pressed (inputSources frame)
             then S (nextUuid w) else nextUuid w
         | _, _ => nextUuid w
         end.
Proof.
  intros Hsource Hsession Hreticle Hbuttons.
  unfold onXRFrame. cbn [bind get Monad_Async MonadState_Async Task_bind].
  rewrite Hsource. cbn [update record_event Task_bind bind Monad_Async].
  destruct (hitTestResults frame) as [|[pose|] hits].
  - unfold set_reticle_visible, placed_model, shown_model.
    cbn. rewrite Hreticle. eexists. split; [reflexivity|]. cbn. auto 6.
  - unfold set_reticle_visible, placed_model, shown_model, scene_of.
    cbn. rewrite Hreticle. cbn. rewrite Hsession.
    rewrite (tap_to_place_decides pose _ _ Hbuttons).
    destruct (existsb primary_pressed (inputSources frame)).
    + unfold placeModel, setFromMatrixPosition. cbn.
      destruct (ModelViewer.currentModel (modelViewer w)) as [current|] eqn:Hcur; cbn;
        eexists; (split; [reflexivity|]); cbn; auto 6.
    + destruct (ModelViewer.currentModel (modelViewer w));
        eexists; (split; [reflexivity|]); cbn; auto 6.
  - unfold shown_model. eexists. split; [reflexivity|]. cbn. auto 6.
Qed.

(** The phone in AR and a frame with a hit while the screen is tapped. *)
Lemma frame_moves_the_reticle_witness :
  let w := in_ar in
  let r := mkReticle (mkObject 4 ReticleMesh) false in
  ARMode.xrHitTestSource (arMode w) = Some 300
  /\ ARMode.reticle (arMode w) = Some r
  /\ Forall has_primary_button (inputSources tap_frame)
  /\ exists w' : World,
      onXRFrame tap_frame w
      = Finished w'
          (match hitTestResults tap_frame, shown_model w with
           | Some _ :: _, Some _ =>
               if existsb primary_pressed (inputSources tap_frame)
               then Throw (TypeError "12") else Normal tt
           | _, _ => Normal tt
           end)
      /\ modelViewer w' = modelViewer w
      /\ placed_model w' = placed_model w
      /\ match hitTestResults tap_frame with
         | [] => ARMode.reticle (arMode w') = Some (mkReticle (mesh r) false)
         | None :: _ => arMode w' = arMode w
         | Some _ :: _ => ARMode.reticle (arMode w') = Some (mkReticle (mesh r) true)
         end
      /\ entries (trace w')
         = (match hitTestResults tap_frame with
            | Some _ :: _ =>
                if existsb primary_pressed (inputSources tap_frame) then [placeModel_] else []
            | _ => []
            end ++ entries (trace w))%list
      /\ nextUuid w'
         = match hitTestResults tap_frame, shown_model w with
           | Some _ :: _, Some _ =>
               if existsb primary_pressed (inputSources tap_frame)
               then S (nextUuid w) else nextUuid w
           | _, _ => nextUuid w
           end.
Proof.
  assert (Hbuttons : Forall has_primary_button (inputSources tap_frame)).
  { repeat constructor. discriminate. }
  assert (Hsource : ARMode.xrHitTestSource (arMode in_ar) = Some 300)
    by (vm_compute; reflexivity).
  assert (Hsession : ARMode.xrSession (arMode in_ar) = Some 100)
    by (vm_compute; reflexivity).
  assert (Hreticle : ARMode.reticle (arMode in_ar)
                     = Some (mkReticle (mkObject 4 ReticleMesh) false))
    by (vm_compute; reflexivity).
  split; [exact Hsource|]. split; [exact Hreticle|]. split; [exact Hbuttons|].
  exact (frame_moves_the_reticle tap_frame in_ar 300 100
           (mkReticle (mkObject 4 ReticleMesh) false)
           Hsource Hsession Hreticle Hbuttons).
Defined.

(** X9. When the platform ends the session, the 'end' listener clears
    the helper but not the application: [isARActive], the button and the
    frame loop stay as they were.  Where AR was active, the next click on
    the button therefore is [exitAR], which finds no session to end and
    only resets the application; a session is requested again at the
    click after. *)
Theorem platform_end_is_noticed_at_the_next_click (session : XRSession) (w : World) :
  exists w1 : World,
    onEndEvent session w = Finished w1 (Normal tt)
    /\ ARMode.xrSession (arMode w1) = None
    /\ ARMode.xrHitTestSource (arMode w1) = None
    /\ isARActive w1 = isARActive w
    /\ arButton w1 = arButton w
    /\ body_ar_mode w1 = body_ar_mode w
    /\ ModelViewer.animationLoop (modelViewer w1) = ModelViewer.animationLoop (modelViewer w)
    /\ (isARActive w = true ->
        hasWebXR w = true ->
        let w2 := exitAR w1 in
        onARButtonClick w1 = Finished w2 (Normal tt)
        /\ trace w2 = Entered exitAR_ :: trace w1
        /\ isARActive w2 = false
        /\ Button.textContent (arButton w2) = "Enter AR Mode"
        /\ body_ar_mode w2 = false
        /\ ModelViewer.animationLoop (modelViewer w2) = None).
Proof.
  open_world_in_hyps w.
  destruct w_reticle, w_placed, w_active, w_webxr;
    eexists; (split; [vm_compute; reflexivity|]); vm_compute;
    repeat split; try reflexivity; discriminate.
Qed.

(** ** The single-page version *)

Lemma one_model_frame (s w : World) :
  one_model s ->
  scene_of w = scene_of s ->
  shown_model w = shown_model s ->
  one_model w.
Proof.
  unfold one_model. intros H -> ->. exact H.
Qed.

Lemma one_model_display (s w : World) (new : Object3D) :
  one_model s ->
  scene_of w = Scene.add new (ModelViewer.scene (ModelViewer.clearCurrentModel (modelViewer s))) ->
  shown_model w = Some new ->
  one_model w.
Proof.
  unfold one_model. intros (Hnd & Hmodels) -> ->.
  assert (Hcleared :
            NoDup (map uuid (ModelViewer.scene (ModelViewer.clearCurrentModel (modelViewer s))))
            /\ forall o,
                In o (ModelViewer.scene (ModelViewer.clearCurrentModel (modelViewer s))) ->
                is_model o = false).
  { unfold ModelViewer.clearCurrentModel, shown_model, scene_of in *.
    destruct (ModelViewer.currentModel (modelViewer s)) as [current|]; cbn.
    - split; [now apply remove_NoDup|]. intros o Hin.
      destruct (is_model o) eqn:Ho; [|reflexivity].
      pose proof (Hmodels o (remove_In _ _ _ Hin) Ho) as H. injection H as <-.
      exfalso. now apply (remove_removes current current _ Hnd Hin).
    - split; [assumption|]. intros o Hin.
      destruct (is_model o) eqn:Ho; [|reflexivity].
      pose proof (Hmodels o Hin Ho). discriminate. }
  destruct Hcleared as [Hnd' Hnone].
  split; [now apply add_NoDup|].
  intros o Hin Ho. apply add_In in Hin. destruct Hin as [-> | Hin]; [reflexivity|].
  apply remove_In in Hin. rewrite (Hnone o Hin) in Ho. discriminate.
Qed.

(** ... that clears the current model. *)
Lemma one_model_cleared (s w : World) :
  one_model s ->
  scene_of w = ModelViewer.scene (ModelViewer.clearCurrentModel (modelViewer s)) ->
  shown_model w
  = ModelViewer.currentModel (ModelViewer.clearCurrentModel (modelViewer s)) ->
  one_model w.
Proof.
  unfold one_model. intros (Hnd & Hmodels) -> ->.
  unfold ModelViewer.clearCurrentModel, shown_model, scene_of in *.
  destruct (ModelViewer.currentModel (modelViewer s)) as [current|] eqn:Hcur; cbn.
  - split; [now apply remove_NoDup|]. intros o Hin Ho.
    pose proof (Hmodels o (remove_In _ _ _ Hin) Ho) as H. injection H as <-.
    exfalso. now apply (remove_removes current current _ Hnd Hin).
  - rewrite Hcur. split; [assumption|]. intros o Hin Ho. exact (Hmodels o Hin Ho).
Qed.

Ltac simple_leaf :=
  match goal with
  | Hs : one_model ?x |- one_model ?W /\ any_stretch _ _ =>
      split; [ first [ apply (one_model_frame x W Hs); reflexivity
                     | eapply (one_model_display x W _ Hs); reflexivity
                     | apply (one_model_cleared x W Hs); reflexivity ]
             | exact I ]
  end.

Ltac simple_walk_step :=
  first
    [ progress monad_unfold
    | lazymatch goal with
      | |- safe _ _ _ _ (Task_catch _ _) => apply safe_catch
      | |- safe _ _ _ _ (Task_bind _ _) => apply safe_bind
      | |- safe _ _ _ _ (Task_attempt _) => apply safe_attempt
      | |- safe _ _ _ _ (Task_spawn _) =>
          apply safe_spawn; [ | let Hi := fresh "Hi" in
                                let Hg := fresh "Hg" in intros ? Hi Hg ]
      | |- safe _ _ _ _ (match ?x with _ => _ end) => destruct x eqn:?
      | |- safe _ _ _ _ ((match ?x with _ => _ end) _) => destruct x eqn:?
      | |- settled _ _ _ _ _ => unfold settled; simple_leaf
      | |- (_ /\ _) /\ (forall _ _, _ -> _) =>
          split; [ simple_leaf | let Hw := fresh "Hw" in intros ? ? Hw ]
      | |- (forall _ _, _ -> _) /\ _ =>
          split; [ let Hw := fresh "Hw" in intros ? ? Hw | ]
      | |- match ?x with _ => _ end => destruct x eqn:?
      end ].

Ltac simple_walk := repeat simple_walk_step.

Lemma SimpleApp_loadModel_safe (file : File) (s w : World) :
  one_model w ->
  safe one_model any_stretch (settled one_model any_stretch) s (SimpleApp.loadModel file w).
Proof.
  intros Hw. unfold SimpleApp.loadModel, ModelViewer_loadModel, GLTFLoader_parse.
  simple_walk.
Qed.

Lemma SimpleApp_checkARSupport_safe (s w : World) :
  one_model w ->
  safe one_model any_stretch (settled one_model any_stretch) s (SimpleApp.checkARSupport w).
Proof.
  intros Hw. unfold SimpleApp.checkARSupport.
  simple_walk.
Qed.

Lemma initial_world_one_model (nav : Navigator) (button : Button.t) (loading error : Div.t) :
  one_model (initial_world nav button loading error).
Proof.
  split.
  - cbn. repeat constructor; simpl; intuition discriminate.
  - cbn. intros o [<-|[<-|[<-|[]]]]; discriminate.
Qed.

Lemma SimpleApp_reachable_stable
      (nav : Navigator) (button : Button.t) (loading error : Div.t) (sys : System) :
  SimpleApp.reachable nav button loading error sys -> stable one_model any_stretch sys.
Proof.
  induction 1 as [|s s' _ IH Hstep].
  - unfold SimpleApp.boot.
    apply (install_stable one_model any_stretch _ (initial_world nav button loading error)).
    + apply SimpleApp_checkARSupport_safe, initial_world_one_model.
    + constructor.
  - destruct IH as [Hw Hp].
    destruct Hstep as [sys file|w before p after o]; unfold dispatch; cbn [world pending] in *.
    + apply (install_stable one_model any_stretch _ (world sys)); [|assumption].
      unfold SimpleApp.onFileChosen. destruct file as [f|].
      * unfold spawn. apply safe_spawn; [now apply SimpleApp_loadModel_safe|].
        intros w' Hi Hg. split; assumption.
      * split; [assumption | exact I].
    + apply Forall_app in Hp. destruct Hp as [Hbefore Hrest].
      inversion Hrest as [|? ? Hthis Hafter]; subst.
      apply (install_stable one_model any_stretch _ w); [now apply Hthis|].
      apply Forall_app. now split.
Qed.

(** X10. The single-page version shows at most one model.  In every
    reachable state of its event loop, loads in flight included, no
    object is in the scene twice, every model root in the scene is the
    viewer's [currentModel], so there is at most one, and none when
    [currentModel] is null. *)
Theorem simple_viewer_shows_one_model
        (nav : Navigator) (button : Button.t) (loading error : Div.t) (sys : System) :
  SimpleApp.reachable nav button loading error sys ->
  let w := world sys in
  NoDup (map uuid (scene_of w))
  /\ (forall o, In o (scene_of w) -> is_model o = true -> shown_model w = Some o)
  /\ length (Scene.models (scene_of w)) <= 1
  /\ (shown_model w = None -> Scene.models (scene_of w) = []).
Proof.
  intros Hreach w. subst w.
  destruct (SimpleApp_reachable_stable nav button loading error sys Hreach)
    as [[Hnd Hmodels] _].
  assert (Hmodels' : forall o, In o (scene_of (world sys)) -> is_model o = true ->
                               shown_model (world sys) = Some o \/ @None Object3D = Some o).
  { intros o Hin Ho. left. now apply Hmodels. }
  destruct (models_bounded _ _ None Hnd Hmodels') as (_ & H1 & _).
  repeat split; try assumption; [now apply H1|].
  intros Hnone.
  destruct (Scene.models (scene_of (world sys))) as [|o rest] eqn:Hlist; [reflexivity|].
  assert (Hin : In o (Scene.models (scene_of (world sys)))) by (rewrite Hlist; now left).
  apply filter_In in Hin. destruct Hin as [Hin Ho].
  rewrite (Hmodels o Hin Ho) in Hnone. discriminate.
Qed.

Lemma simple_settle_newest_reachable
      (nav : Navigator) (button : Button.t) (loading error : Div.t)
      (env : Oracle) (n : nat) (sys : System) :
  SimpleApp.reachable nav button loading error sys ->
  SimpleApp.reachable nav button loading error (drain env n sys).
Proof.
  revert sys. induction n as [|n IH]; intros sys Hsys; simpl; [exact Hsys|].
  apply IH. destruct sys as [w [|p rest]]; [exact Hsys|].
  eapply SimpleApp.reach_step; [exact Hsys|]. apply (SimpleApp.step_settle w [] p rest).
Qed.

Lemma simple_with_second_model_reachable :
  SimpleApp.reachable laptop page_button hidden_box hidden_box simple_with_second_model.
Proof.
  unfold simple_with_second_model, simple_with_model, simple_started.
  apply simple_settle_newest_reachable.
  eapply SimpleApp.reach_step; [|apply SimpleApp.step_file].
  apply simple_settle_newest_reachable.
  eapply SimpleApp.reach_step; [|apply SimpleApp.step_file].
  apply simple_settle_newest_reachable. apply SimpleApp.reach_boot.
Qed.

(** The single-page version after two loads. *)
Lemma simple_viewer_shows_one_model_witness :
  let w := world simple_with_second_model in
  NoDup (map uuid (scene_of w))
  /\ (forall o, In o (scene_of w) -> is_model o = true -> shown_model w = Some o)
  /\ length (Scene.models (scene_of w)) <= 1
  /\ (shown_model w = None -> Scene.models (scene_of w) = []).
Proof.
  exact (simple_viewer_shows_one_model laptop page_button hidden_box hidden_box
           simple_with_second_model simple_with_second_model_reachable).
Defined.

Lemma matches_gltf_iff (fileName : string) :
  SimpleApp.matches_gltf fileName = true
  <-> ends_with fileName ".glb" \/ ends_with fileName ".gltf".
Proof.
  unfold SimpleApp.matches_gltf. now rewrite Bool.orb_true_iff, !endsWith_ends_with.
Qed.

(** X11. [SimpleApp.loadModel].  A file whose lower-cased name ends
    with neither '.glb' nor '.gltf' (an '.stl' file, for one) is refused
    at once, with no call made.  Otherwise the file is read and parsed as
    glTF, with no limit on its size.
    - A failed read, and a failure the parser reports, leave the viewer as
      it was and show 'Failed to load model: ' followed by the message of
      the reason, 'undefined' when the reason has none (the reader rejects
      with its error event).
    - A glTF without a scene fails after the current model has been
      cleared: the model that was shown is gone from the scene, none is
      current, and the [TypeError] is shown.
    - When the parser throws, the promise of the viewer is never settled:
      [loadModel] is not resumed, nothing is shown, the viewer is as it
      was and the 'Loading model...' banner stays.
    - A successful parse replaces the current model by the new object and
      hides both boxes. *)
Theorem simple_loadModel_outcomes (env : Oracle) (file : File) (w : World) :
  let fileName := JsString.toLowerCase (name file) in
  let w' := fst (run env (SimpleApp.loadModel file w)) in
  let completion := snd (run env (SimpleApp.loadModel file w)) in
  (~ (ends_with fileName ".glb" \/ ends_with fileName ".gltf") ->
   SimpleApp.loadModel file w
   = Finished
       (hideLoading
          (showError
             "Failed to load model: Only glTF (.glb, .gltf) files supported in simple version"
             w))
       (Normal tt))
  /\ (ends_with fileName ".glb" \/ ends_with fileName ".gltf" ->
      (forall e,
          env (ReadAsArrayBuffer file) = Rejected e ->
          completion = Normal tt
          /\ modelViewer w' = modelViewer w
          /\ errorDiv w' = Div.mk ("Failed to load model: " ++ render_message e) "block"
          /\ (message e = None ->
              Div.textContent (errorDiv w') = "Failed to load model: undefined")
          /\ Div.display (loadingDiv w') = "none"
          /\ issued (trace w') = ReadAsArrayBuffer file :: issued (trace w))
      /\ (forall data e,
             env (ReadAsArrayBuffer file) = Fulfilled data ->
             env (GLTFParse data) = Rejected e ->
             completion = Normal tt
             /\ modelViewer w' = modelViewer w
             /\ errorDiv w' = Div.mk ("Failed to load model: " ++ render_message e) "block"
             /\ Div.display (loadingDiv w') = "none"
             /\ issued (trace w')
                = GLTFParse data :: ReadAsArrayBuffer file :: issued (trace w))
      /\ (forall data animations,
             env (ReadAsArrayBuffer file) = Fulfilled data ->
             env (GLTFParse data) = Fulfilled (Parsed (mkGLTF false animations)) ->
             completion = Normal tt
             /\ modelViewer w' = ModelViewer.clearCurrentModel (modelViewer w)
             /\ scene_of w' = remove_if_set (shown_model w) (scene_of w)
             /\ shown_model w' = None
             /\ errorDiv w'
                = Div.mk ("Failed to load model: "
                          ++ render_message (TypeError "updateWorldMatrix")) "block"
             /\ Div.display (loadingDiv w') = "none"
             /\ issued (trace w')
                = GLTFParse data :: ReadAsArrayBuffer file :: issued (trace w))
      /\ (forall data e,
             env (ReadAsArrayBuffer file) = Fulfilled data ->
             env (GLTFParse data) = Fulfilled (Threw e) ->
             completion = Unsettled
             /\ modelViewer w' = modelViewer w
             /\ shown (trace w') = shown (trace w)
             /\ Div.display (errorDiv w') = "none"
             /\ loadingDiv w' = Div.mk "Loading model..." "block"
             /\ issued (trace w')
                = GLTFParse data :: ReadAsArrayBuffer file :: issued (trace w))
      /\ (forall data animations,
             env (ReadAsArrayBuffer file) = Fulfilled data ->
             env (GLTFParse data) = Fulfilled (Parsed (mkGLTF true animations)) ->
             let new := mkObject (nextUuid w) ModelRoot in
             completion = Normal tt
             /\ scene_of w' = Scene.add new (remove_if_set (shown_model w) (scene_of w))
             /\ shown_model w' = Some new
             /\ Div.display (errorDiv w') = "none"
             /\ Div.display (loadingDiv w') = "none"
             /\ shown (trace w') = shown (trace w)
             /\ issued (trace w')
                = GLTFParse data :: ReadAsArrayBuffer file :: issued (trace w))).
Proof.
  intros fileName w' completion. subst fileName w' completion. split.
  - intros Hno. unfold SimpleApp.loadModel.
    destruct (SimpleApp.matches_gltf (JsString.toLowerCase (name file))) eqn:Hmatch.
    + exfalso. apply Hno. now apply matches_gltf_iff.
    + reflexivity.
  - intros Hyes. apply matches_gltf_iff in Hyes.
    unfold SimpleApp.loadModel. rewrite Hyes. cbn [negb].
    unfold scene_of, shown_model. split; [|split; [|split; [|split]]].
    + intros e Hr. open_world_in_hyps w.
      match goal with
      | |- context [run env ?task] =>
          evar (W : (World * Completion unit)%type);
          assert (Hrun : run env task = W);
          [ subst W; vm_compute; rewrite Hr; vm_compute; reflexivity
          | rewrite Hrun; subst W; clear Hrun ]
      end.
      split; [reflexivity|]. split; [reflexivity|]. split; [reflexivity|].
      split; [|split; reflexivity].
      intros Hnone. destruct e as [m]. cbn in Hnone. rewrite Hnone. reflexivity.
    + intros data e Hr Hp. open_world_in_hyps w.
      match goal with
      | |- context [run env ?task] =>
          evar (W : (World * Completion unit)%type);
          assert (Hrun : run env task = W);
          [ subst W; vm_compute; rewrite Hr; vm_compute; rewrite Hp; vm_compute; reflexivity
          | rewrite Hrun; subst W; clear Hrun ]
      end.
      repeat split; reflexivity.
    + intros data animations Hr Hp. open_world_in_hyps w.
      destruct w_shown;
        match goal with
        | |- context [run env ?task] =>
            evar (W : (World * Completion unit)%type);
            assert (Hrun : run env task = W);
            [ subst W; vm_compute; rewrite Hr; vm_compute; rewrite Hp;
              vm_compute; reflexivity
            | rewrite Hrun; subst W; clear Hrun ]
        end;
        repeat split; reflexivity.
    + intros data e Hr Hp. open_world_in_hyps w.
      match goal with
      | |- context [run env ?task] =>
          evar (W : (World * Completion unit)%type);
          assert (Hrun : run env task = W);
          [ subst W; vm_compute; rewrite Hr; vm_compute; rewrite Hp; vm_compute; reflexivity
          | rewrite Hrun; subst W; clear Hrun ]
      end.
      repeat split; reflexivity.
    + intros data animations Hr Hp. open_world_in_hyps w.
      destruct w_shown;
        match goal with
        | |- context [run env ?task] =>
            evar (W : (World * Completion unit)%type);
            assert (Hrun : run env task = W);
            [ subst W; vm_compute; rewrite Hr; vm_compute; rewrite Hp;
              vm_compute; reflexivity
            | rewrite Hrun; subst W; clear Hrun ]
        end;
        repeat split; reflexivity.
Qed.

(** The single-page version with a model shown, and a glTF file without
    a scene: the model shown is gone. *)
Lemma sceneless_file_clears_the_model :
  let sys := drain sceneless_gltf 3
               (dispatch (SimpleApp.onFileChosen (Some duck)) simple_with_model) in
  shown_model (world simple_with_model) = Some (mkObject 3 ModelRoot)
  /\ Scene.models (scene_of (world simple_with_model)) = [mkObject 3 ModelRoot]
  /\ shown_model (world sys) = None
  /\ Scene.models (scene_of (world sys)) = []
  /\ errorDiv (world sys)
     = Div.mk ("Failed to load model: " ++ render_message (TypeError "updateWorldMatrix"))
              "block".
Proof.
  vm_compute. repeat split; reflexivity.
Qed.

(** X12. [SimpleApp.checkARSupport] enables the AR button only when
    [navigator] has 'xr' and the probe answers true; in every other case
    [disabled] is as the page had it.  The text tells the cases apart;
    when the probe is rejected nothing handles the rejection and the
    button is as it was.  The title and the viewer are untouched. *)
Theorem simple_checkARSupport_button (env : Oracle) (w : World) :
  let w' := fst (run env (SimpleApp.checkARSupport w)) in
  let supported :=
    xrInNavigator (navigator w) = true
    /\ env (IsSessionSupported "immersive-ar") = Fulfilled true in
  (supported ->
   Button.disabled (arButton w') = false
   /\ Button.textContent (arButton w') = "AR Available (use dev server)")
  /\ (~ supported -> Button.disabled (arButton w') = Button.disabled (arButton w))
  /\ (xrInNavigator (navigator w) = false ->
      Button.textContent (arButton w') = "WebXR Not Available")
  /\ (xrInNavigator (navigator w) = true ->
      env (IsSessionSupported "immersive-ar") = Fulfilled false ->
      Button.textContent (arButton w') = "AR Not Supported")
  /\ (forall e, xrInNavigator (navigator w) = true ->
                env (IsSessionSupported "immersive-ar") = Rejected e ->
                arButton w' = arButton w /\ errorDiv w' = errorDiv w)
  /\ Button.title (arButton w') = Button.title (arButton w)
  /\ modelViewer w' = modelViewer w.
Proof.
  intros w' supported. subst w' supported.
  destruct (xrInNavigator (navigator w)) eqn:Hxr.
  - destruct (env (IsSessionSupported "immersive-ar")) as [[|]|e] eqn:Ha;
      open_world_in_hyps w;
      match goal with
      | |- context [fst ?result] =>
          evar (W : World);
          assert (Hrun : fst result = W);
          [ subst W; vm_compute; rewrite Ha; vm_compute; reflexivity
          | rewrite Hrun; subst W; clear Hrun ]
      end;
      repeat split; intros; try reflexivity; try discriminate;
        try (match goal with H : _ /\ _ |- _ => destruct H; discriminate end);
        try (match goal with H : ~ _ |- _ => exfalso; apply H; split; reflexivity end).
  - open_world_in_hyps w.
    repeat split; intros; try reflexivity; try discriminate;
      try (match goal with H : _ /\ _ |- _ => destruct H; discriminate end).
Qed.

(** ** The lights *)

Section LightingFacts.

Import Lighting.

Implicit Types (k : ObjectKind) (v : Number) (lights : list Light).

Lemma set_intensity_again k v v' lights :
  set_intensity k v (set_intensity k v' lights) = set_intensity k v lights.
Proof.
  induction lights as [|l lights IH]; simpl; [reflexivity|].
  destruct (has_type k l) eqn:Hk; simpl.
  - unfold has_type in *. cbn [object]. now rewrite Hk.
  - now rewrite Hk, IH.
Qed.

Lemma has_type_unique k k' (l : Light) :
  has_type k l = true -> has_type k' l = true -> k = k'.
Proof.
  unfold has_type. destruct (kind (object l)), k, k'; congruence.
Qed.

Lemma set_intensity_swap k k' v v' lights :
  k <> k' ->
  set_intensity k v (set_intensity k' v' lights)
  = set_intensity k' v' (set_intensity k v lights).
Proof.
  intros Hne. induction lights as [|l lights IH]; simpl; [reflexivity|].
  destruct (has_type k l) eqn:Hk, (has_type k' l) eqn:Hk'; simpl.
  - exfalso. apply Hne. now apply (has_type_unique k k' l).
  - unfold has_type in *. cbn [object]. now rewrite Hk, Hk'.
  - unfold has_type in *. cbn [object]. now rewrite Hk, Hk'.
  - now rewrite Hk, Hk', IH.
Qed.

Lemma set_intensity_objects k v lights :
  map object (set_intensity k v lights) = map object lights.
Proof.
  induction lights as [|l lights IH]; simpl; [reflexivity|].
  destruct (has_type k l); simpl; [reflexivity | now rewrite IH].
Qed.

Lemma set_intensity_others k v lights (l : Light) :
  has_type k l = false -> In l lights -> In l (set_intensity k v lights).
Proof.
  intros Hl. induction lights as [|l' lights IH]; simpl; [tauto|].
  intros [-> | Hin].
  - rewrite Hl. now left.
  - destruct (has_type k l'); [now right | right; now apply IH].
Qed.

End LightingFacts.

(** X13. The end of a session puts the lights back.  Where the lights
    are as [resetLighting] leaves them, as the lights of
    [ModelViewer.setupLighting] are, [setupARLighting] followed by
    [resetLighting] gives them back, whatever the blend mode of the
    session and also when [setupARLighting] throws for want of a session.
    [setupARLighting] changes intensities only, and only of the first
    ambient and the first directional light. *)
Theorem lighting_round_trip (xrSession : option string) (lights : list Lighting.Light) :
  Lighting.resetLighting lights = lights ->
  Lighting.resetLighting (fst (Lighting.setupARLighting xrSession lights)) = lights
  /\ map Lighting.object (fst (Lighting.setupARLighting xrSession lights))
     = map Lighting.object lights
  /\ (forall l, In l lights ->
                Lighting.has_type AmbientLight l = false ->
                Lighting.has_type DirectionalLight l = false ->
                In l (fst (Lighting.setupARLighting xrSession lights))).
Proof.
  intros Hreset. unfold Lighting.setupARLighting.
  assert (Hne : DirectionalLight <> AmbientLight) by discriminate.
  assert (Hambient :
            Lighting.resetLighting
              (Lighting.set_intensity AmbientLight (Lighting.decimal 3%Z 10%positive) lights) = lights).
  { unfold Lighting.resetLighting in *. now rewrite set_intensity_again. }
  split; [|split].
  - destruct xrSession as [mode|]; [|exact Hambient].
    destruct (String.eqb mode "additive"); [|exact Hambient].
    cbn [fst]. unfold Lighting.resetLighting in *.
    rewrite (set_intensity_swap AmbientLight DirectionalLight) by congruence.
    rewrite set_intensity_again.
    rewrite set_intensity_again. exact Hreset.
  - destruct xrSession as [mode|]; [destruct (String.eqb mode "additive")|];
      cbn [fst]; now rewrite ?set_intensity_objects.
  - intros l Hin Ha Hd.
    destruct xrSession as [mode|]; [destruct (String.eqb mode "additive")|];
      cbn [fst]; repeat apply set_intensity_others; assumption.
Qed.

(** The lights of [ModelViewer.setupLighting] under an additive
    session. *)
Lemma lighting_round_trip_witness :
  Lighting.resetLighting Lighting.setupLighting = Lighting.setupLighting
  /\ Lighting.resetLighting
       (fst (Lighting.setupARLighting (Some "additive") Lighting.setupLighting))
     = Lighting.setupLighting
  /\ map Lighting.object
         (fst (Lighting.setupARLighting (Some "additive") Lighting.setupLighting))
     = map Lighting.object Lighting.setupLighting
  /\ (forall l, In l Lighting.setupLighting ->
                Lighting.has_type AmbientLight l = false ->
                Lighting.has_type DirectionalLight l = false ->
                In l (fst (Lighting.setupARLighting (Some "additive") Lighting.setupLighting))).
Proof.
  split; [reflexivity|].
  apply (lighting_round_trip (Some "additive") Lighting.setupLighting). reflexivity.
Defined.

(** ** The session requests of WebXRUtils *)

Section SessionRequests.

Import WebXRUtilsStatic.

Lemma requestSession_outcomes
      (env : Oracle) (w : World) (mode prefix : string) (init : SessionInit) :
  let request :=
    RequestSession mode (features (requiredFeatures init)) (features (optionalFeatures init)) in
  let task :=
    Task_catch (Task_bind (requestSession mode init w) (fun session => ret session))
               (fun error => raise (Error (prefix ++ render_message error))) in
  (xrInNavigator (navigator w) = true ->
   (forall c, can_issue task c <-> c = request)
   /\ (forall session,
          env request = Fulfilled session ->
          run env task
          = (record_events [Issued request; Resumed request true] w, Normal session))
   /\ (forall e,
          env request = Rejected e ->
          run env task
          = (record_events [Issued request; Resumed request false] w,
             Throw (Error (prefix ++ render_message e)))))
  /\ (xrInNavigator (navigator w) = false ->
      (forall c, ~ can_issue task c)
      /\ exists msg, task = Finished w (Throw (Error (prefix ++ msg)))).
Proof.
  intros request task. subst task. unfold requestSession.
  cbn [bind get Monad_Async MonadState_Async Task_bind].
  destruct (xrInNavigator (navigator w)); (split; [|discriminate]) || (split; [discriminate|]);
    intros _.
  - fold request. cbn. split; [|split].
    + intros c. split.
      * intros [H|(o & w' & H)]; [now symmetry|]. destruct o; cbn in H; contradiction.
      * intros ->. now left.
    + intros session ->. reflexivity.
    + intros e ->. reflexivity.
  - cbn. split; [tauto|]. eexists. reflexivity.
Qed.

(** X14. [WebXRUtils.requestARSession] and [requestVRSession].  Each
    asks for one session, of the mode it names; a feature list the
    caller's options give replaces the default list as a whole (an AR
    caller who gives [requiredFeatures] loses 'hit-test' unless it lists
    it), a key given as [undefined] removes it.  A session granted is
    returned; a refusal is rethrown as an [Error] under 'Failed to request
    AR session: ' or 'Failed to request VR session: '.  Without
    [navigator.xr] no call is made and the same kind of error is thrown.
    With empty options every feature asked for is one that
    [getXRSupportedFeatures()] lists. *)
Theorem session_requests_merge_options_and_wrap_errors
        (env : Oracle) (w : World) (options : SessionInit) :
  let ar :=
    RequestSession "immersive-ar"
      (requested ["hit-test"] (requiredFeatures options))
      (requested ["dom-overlay"; "light-estimation"] (optionalFeatures options)) in
  let vr :=
    RequestSession "immersive-vr"
      (requested [] (requiredFeatures options))
      (requested ["local-floor"; "bounded-floor"; "hand-tracking"]
                 (optionalFeatures options)) in
  (xrInNavigator (navigator w) = true ->
   ((forall c, can_issue (requestARSession options w) c <-> c = ar)
    /\ (forall session,
           env ar = Fulfilled session ->
           run env (requestARSession options w)
           = (record_events [Issued ar; Resumed ar true] w, Normal session))
    /\ (forall e,
           env ar = Rejected e ->
           run env (requestARSession options w)
           = (record_events [Issued ar; Resumed ar false] w,
              Throw (Error ("Failed to request AR session: " ++ render_message e)))))
   /\ ((forall c, can_issue (requestVRSession options w) c <-> c = vr)
       /\ (forall session,
              env vr = Fulfilled session ->
              run env (requestVRSession options w)
              = (record_events [Issued vr; Resumed vr true] w, Normal session))
       /\ (forall e,
              env vr = Rejected e ->
              run env (requestVRSession options w)
              = (record_events [Issued vr; Resumed vr false] w,
                 Throw (Error ("Failed to request VR session: " ++ render_message e))))))
  /\ (xrInNavigator (navigator w) = false ->
      (forall c, ~ can_issue (requestARSession options w) c)
      /\ (forall c, ~ can_issue (requestVRSession options w) c)
      /\ (exists msg,
             requestARSession options w
             = Finished w (Throw (Error ("Failed to request AR session: " ++ msg))))
      /\ (exists msg,
             requestVRSession options w
             = Finished w (Throw (Error ("Failed to request VR session: " ++ msg)))))
  /\ (requiredFeatures options = Absent ->
      optionalFeatures options = Absent ->
      forall mode r o feature,
        (ar = RequestSession mode r o \/ vr = RequestSession mode r o) ->
        (In feature r -> In feature (required getXRSupportedFeatures))
        /\ (In feature o -> In feature (optional getXRSupportedFeatures))).
Proof.
  intros ar vr. subst ar vr. split; [|split].
  - intros Hxr. split.
    + destruct options as [[| |r] [| |o]];
        exact (proj1 (requestSession_outcomes env w "immersive-ar"
                        "Failed to request AR session: " _) Hxr).
    + destruct options as [[| |r] [| |o]];
        exact (proj1 (requestSession_outcomes env w "immersive-vr"
                        "Failed to request VR session: " _) Hxr).
  - intros Hxr.
    pose proof (fun mode prefix init =>
                  proj2 (requestSession_outcomes env w mode prefix init) Hxr) as H.
    split; [|split; [|split]].
    + exact (proj1 (H "immersive-ar" "Failed to request AR session: " _)).
    + exact (proj1 (H "immersive-vr" "Failed to request VR session: " _)).
    + exact (proj2 (H "immersive-ar" "Failed to request AR session: " _)).
    + exact (proj2 (H "immersive-vr" "Failed to request VR session: " _)).
  - intros -> -> mode r o feature [H|H]; injection H as <- <- <-; cbn; intuition.
Qed.

End SessionRequests.

(** ** The listeners of window *)

Lemma remove_listener_unknown (l : Window.Listener) (ls : list Window.Listener) :
  Forall (fun l' => Window.callback l' <> Window.callback l) ls ->
  Window.remove_listener l ls = ls.
Proof.
  induction 1 as [|l' ls Hne _ IH]; simpl; [reflexivity|].
  unfold Window.same_listener. destruct (Nat.eqb_spec (Window.callback l') (Window.callback l)).
  - contradiction.
  - rewrite Bool.andb_false_r. now rewrite IH.
Qed.

Lemma existsb_unknown (l : Window.Listener) (ls : list Window.Listener) :
  Forall (fun l' => Window.callback l' <> Window.callback l) ls ->
  existsb (Window.same_listener l) ls = false.
Proof.
  induction 1 as [|l' ls Hne _ IH]; simpl; [reflexivity|].
  unfold Window.same_listener at 1.
  destruct (Nat.eqb_spec (Window.callback l) (Window.callback l')) as [Heq|_].
  - symmetry in Heq. contradiction.
  - rewrite Bool.andb_false_r. exact IH.
Qed.

Lemma functions_known_fresh (win : Window.t) (ty : string) :
  functions_known win ->
  Forall (fun l' => Window.callback l'
                    <> Window.callback (Window.mkListener ty (Window.nextFunction win)))
         (Window.listeners win).
Proof.
  unfold functions_known. apply Forall_impl. intros l H. simpl. lia.
Qed.

(** X15. [ModelViewer.dispose] clears the current model and removes no
    listener: the function it passes to [removeEventListener] is a new
    one, so the 'resize' listener of [init] stays on [window]. *)
Theorem dispose_removes_no_listener (w : World) (win : Window.t) :
  functions_known win ->
  let w' := fst (ModelViewer_dispose w win) in
  let win' := snd (ModelViewer_dispose w win) in
  Window.listeners win' = Window.listeners win
  /\ functions_known win'
  /\ shown_model w' = None
  /\ scene_of w' = remove_if_set (shown_model w) (scene_of w)
  /\ (forall old, NoDup (map uuid (scene_of w)) -> shown_model w = Some old ->
                  ~ In old (scene_of w')).
Proof.
  intros Hknown w' win'. subst w' win'. unfold ModelViewer_dispose. cbn.
  rewrite (remove_listener_unknown _ _ (functions_known_fresh win "resize" Hknown)).
  split; [reflexivity|]. split.
  { unfold functions_known in *. cbn. revert Hknown. apply Forall_impl. intros l H. lia. }
  unfold shown_model, scene_of, on_modelViewer, ModelViewer.clearCurrentModel.
  cbn [modelViewer set_modelViewer].
  destruct (ModelViewer.currentModel (modelViewer w)) as [current|] eqn:Hcur; cbn;
    rewrite ?Hcur;
    (split; [reflexivity|]); (split; [reflexivity|]); intros old Hnd H; [|discriminate].
  injection H as <-. intros Hin.
  now apply (remove_removes current current _ Hnd Hin).
Qed.

(** The window after [ModelViewer.init], and the laptop with a model
    loaded. *)
Lemma dispose_removes_no_listener_witness :
  let win := ModelViewer_init_window (Window.mk [] 0) in
  let w := with_model laptop in
  functions_known win
  /\ Window.listeners (snd (ModelViewer_dispose w win)) = [Window.mkListener "resize" 0]
  /\ let w' := fst (ModelViewer_dispose w win) in
     let win' := snd (ModelViewer_dispose w win) in
     Window.listeners win' = Window.listeners win
     /\ functions_known win'
     /\ shown_model w' = None
     /\ scene_of w' = remove_if_set (shown_model w) (scene_of w)
     /\ (forall old, NoDup (map uuid (scene_of w)) -> shown_model w = Some old ->
                     ~ In old (scene_of w')).
Proof.
  assert (H : functions_known (ModelViewer_init_window (Window.mk [] 0))).
  { repeat constructor. }
  split; [exact H|]. split; [reflexivity|].
  exact (dispose_removes_no_listener (with_model laptop) _ H).
Defined.

Lemma enableDeviceOrientation_window_adds (win : Window.t) :
  functions_known win ->
  Window.listeners (enableDeviceOrientation_window None win)
  = (Window.listeners win
     ++ [Window.mkListener "deviceorientation" (Window.nextFunction win)])%list
  /\ functions_known (enableDeviceOrientation_window None win).
Proof.
  intros Hknown. unfold enableDeviceOrientation_window, Window.addEventListener. cbn.
  rewrite (existsb_unknown _ _ (functions_known_fresh win "deviceorientation" Hknown)).
  cbn. split; [reflexivity|].
  unfold functions_known in *. cbn. apply Forall_app. split.
  - revert Hknown. apply Forall_impl. intros l H. lia.
  - repeat constructor.
Qed.

(** X16. Leaving the simulation removes no 'deviceorientation'
    listener ([exitAR] passes [undefined] for the callback), and every
    entry adds one, a new function each time: after [n] rounds [window]
    has [n] more of them, and every listener it had. *)
Theorem orientation_listeners_accumulate (n : nat) (win : Window.t) :
  functions_known win ->
  exitAR_window win = win
  /\ length (Window.listening "deviceorientation" (simulation_rounds n win))
     = n + length (Window.listening "deviceorientation" win)
  /\ (forall l, In l (Window.listeners win) ->
                In l (Window.listeners (simulation_rounds n win))).
Proof.
  intros Hknown. split; [reflexivity|].
  revert win Hknown. induction n as [|n IH]; intros win Hknown; simpl.
  - split; [reflexivity | auto].
  - destruct (enableDeviceOrientation_window_adds win Hknown) as [Hadd Hknown'].
    unfold exitAR_window at 1 2. cbn [Window.removeEventListener].
    destruct (IH _ Hknown') as [Hcount Hkeep].
    split.
    + rewrite Hcount. unfold Window.listening. rewrite Hadd, filter_app, length_app.
      cbn. lia.
    + intros l Hin. apply Hkeep. rewrite Hadd. apply in_or_app. now left.
Qed.

(** Three rounds on a window without listeners. *)
Lemma orientation_listeners_accumulate_witness :
  functions_known (Window.mk [] 0)
  /\ exitAR_window (Window.mk [] 0) = Window.mk [] 0
  /\ length (Window.listening "deviceorientation" (simulation_rounds 3 (Window.mk [] 0)))
     = 3 + length (Window.listening "deviceorientation" (Window.mk [] 0))
  /\ (forall l, In l (Window.listeners (Window.mk [] 0)) ->
                In l (Window.listeners (simulation_rounds 3 (Window.mk [] 0)))).
Proof.
  assert (H : functions_known (Window.mk [] 0)) by constructor.
  split; [exact H|]. exact (orientation_listeners_accumulate 3 (Window.mk [] 0) H).
Defined.

(** ** The meshes of a model and their materials *)

Section MaterialFacts.

Import Materials.

Lemma traverse_node (isMesh castShadow receiveShadow : bool) (slot : MaterialSlot)
      (children : list Node) (h : Heap) :
  traverse (mkNode isMesh castShadow receiveShadow slot children) h
  = (mkNode isMesh (if isMesh then true else castShadow)
            (if isMesh then true else receiveShadow) slot
            (fst (traverse_each children (if isMesh then setup_materials slot h else h))),
     snd (traverse_each children (if isMesh then setup_materials slot h else h))).
Proof.
  cbn [traverse].
  change ((fix each (nodes : list Node) (h0 : Heap) {struct nodes} : list Node * Heap :=
             match nodes with
             | [] => ([], h0)
             | n :: rest =>
                 let '(n', h1) := traverse n h0 in
                 let '(rest', h2) := each rest h1 in (n' :: rest', h2)
             end) children (if isMesh then setup_materials slot h else h))
    with (traverse_each children (if isMesh then setup_materials slot h else h)).
  now destruct (traverse_each children _).
Qed.

Lemma traverse_each_cons (n : Node) (rest : list Node) (h : Heap) :
  traverse_each (n :: rest) h
  = (fst (traverse n h) :: fst (traverse_each rest (snd (traverse n h))),
     snd (traverse_each rest (snd (traverse n h)))).
Proof.
  cbn [traverse_each]. destruct (traverse n h) as [n' h1]. cbn [fst snd].
  now destruct (traverse_each rest h1).
Qed.

(** What is read off the objects of the traversed tree, given what it is
    for one object whatever its children. *)
Lemma traverse_view {X : Type} (before after : Node -> X) :
  (forall isMesh castShadow receiveShadow slot children children',
      after (mkNode isMesh (if isMesh then true else castShadow)
                    (if isMesh then true else receiveShadow) slot children')
      = before (mkNode isMesh castShadow receiveShadow slot children)) ->
  forall (n : Node) (h : Heap),
    List.map after (nodes (fst (traverse n h))) = List.map before (nodes n).
Proof.
  intros Hview. induction n as [isMesh castShadow receiveShadow slot children IH]
    using Node_induction.
  intros h. rewrite traverse_node. cbn [fst nodes List.map]. f_equal; [apply Hview|].
  generalize (if isMesh then setup_materials slot h else h). clear h.
  induction IH as [|c rest Hc _ IHrest]; intros h; [reflexivity|].
  rewrite traverse_each_cons. cbn [fst flat_map]. rewrite !map_app.
  now rewrite Hc, IHrest.
Qed.

(** The traversal calls [setupMaterial] on the materials of the meshes,
    in order. *)
Lemma traverse_heap (n : Node) :
  forall h : Heap, snd (traverse n h) = fold_left touch (mesh_materials n) h.
Proof.
  induction n as [mesh castShadow receiveShadow slot children IH] using Node_induction.
  intros h. rewrite traverse_node. cbn [snd].
  unfold mesh_materials. cbn [nodes flat_map Materials.isMesh Materials.material].
  rewrite fold_left_app.
  assert (Hfirst : (if mesh then setup_materials slot h else h)
                   = fold_left touch (if mesh then slot_materials slot else []) h).
  { destruct mesh; [|reflexivity]. destruct slot; reflexivity. }
  rewrite <- Hfirst. generalize (if mesh then setup_materials slot h else h). clear h Hfirst.
  induction IH as [|c rest Hc _ IHrest]; intros h; [reflexivity|].
  rewrite traverse_each_cons. cbn [snd flat_map]. rewrite flat_map_app, fold_left_app.
  rewrite IHrest. f_equal. apply Hc.
Qed.


Lemma after_setup_touch (h0 h1 : Heap) (done : list MaterialId) (m : MaterialId) :
  after_setup h0 done h1 -> m < nextMaterial h0 ->
  after_setup h0 (done ++ [m]) (touch h1 m).
Proof.
  intros (Hnext & Hold & Hnew) Hm.
  assert (Hflags : is_updated (material_at h1 m) = is_updated (material_at h0 m)
                   /\ isMeshBasicMaterial (material_at h1 m)
                      = isMeshBasicMaterial (material_at h0 m)
                   /\ lambert_copy (material_at h1 m) = lambert_copy (material_at h0 m)).
  { rewrite (Hold m Hm).
    destruct (is_updated (material_at h0 m) && existsb (Nat.eqb m) done);
      repeat split; reflexivity. }
  destruct Hflags as (Hupd & Hbasic & Hcopy).
  assert (Hle : nextMaterial h0 <= nextMaterial h1) by lia.
  unfold touch, setupMaterial. fold (is_updated (material_at h1 m)). rewrite Hupd.
  set (h2 := if is_updated (material_at h0 m)
             then store m (set_needsUpdate true (material_at h1 m)) h1 else h1).
  assert (Hnext2 : nextMaterial h2 = nextMaterial h1)
    by (subst h2; destruct (is_updated (material_at h0 m)); reflexivity).
  assert (Hat2 : forall id,
             material_at h2 id
             = if (id =? m)%nat && is_updated (material_at h0 m)
               then set_needsUpdate true (material_at h1 m) else material_at h1 id).
  { intros id. subst h2. destruct (is_updated (material_at h0 m)); cbn [store material_at].
    - now rewrite andb_true_r.
    - now rewrite andb_false_r. }
  assert (Hbasic2 : isMeshBasicMaterial (material_at h2 m)
                    = isMeshBasicMaterial (material_at h0 m)).
  { rewrite Hat2, Nat.eqb_refl. cbn [andb].
    destruct (is_updated (material_at h0 m)); [|exact Hbasic].
    cbn [set_needsUpdate isMeshBasicMaterial]. exact Hbasic. }
  assert (Hcopy2 : lambert_copy (material_at h2 m) = lambert_copy (material_at h0 m)).
  { rewrite Hat2, Nat.eqb_refl. cbn [andb].
    destruct (is_updated (material_at h0 m)); [|exact Hcopy].
    rewrite <- Hcopy. reflexivity. }
  assert (Hold2 : forall id, id < nextMaterial h0 ->
             material_at h2 id
             = if is_updated (material_at h0 id) && existsb (Nat.eqb id) (done ++ [m])
               then set_needsUpdate true (material_at h0 id)
               else material_at h0 id).
  { intros id Hid. rewrite Hat2, existsb_app. cbn [existsb]. rewrite orb_false_r.
    rewrite (Hold id Hid), (Hold m Hm).
    destruct (Nat.eqb_spec id m) as [->|Hne]; cbn [andb orb].
    - rewrite orb_true_r, andb_true_r.
      destruct (is_updated (material_at h0 m)); [|reflexivity].
      destruct (existsb (Nat.eqb m) done); reflexivity.
    - now rewrite orb_false_r. }
  rewrite Hbasic2. unfold new_MeshLambertMaterial.
  change (mkMaterial false false false true false (color (material_at h2 m))
                     (map (material_at h2 m)) (transparent (material_at h2 m))
                     (opacity (material_at h2 m)))
    with (lambert_copy (material_at h2 m)).
  rewrite Hcopy2.
  unfold after_setup. rewrite filter_app, length_app. cbn [filter].
  destruct (isMeshBasicMaterial (material_at h0 m)) eqn:Hb;
    cbn [snd new_MeshLambertMaterial nextMaterial material_at store length].
  - split; [lia|]. split.
    + intros id Hid. rewrite <- (Hold2 id Hid).
      destruct (Nat.eqb_spec id (nextMaterial h2)) as [->|_]; [lia|reflexivity].
    + intros id Hid. destruct (Nat.eqb_spec id (nextMaterial h2)) as [->|Hne].
      * exists m. rewrite in_app_iff. cbn [In]. auto.
      * destruct (Hnew id) as (source & Hin & Hsb & Hsame); [lia|].
        exists source. rewrite in_app_iff. split; [auto|]. split; [exact Hsb|].
        rewrite Hat2, Hsame.
        destruct (Nat.eqb_spec id m) as [->|_]; [lia|reflexivity].
  - rewrite Hnext2. split; [lia|]. split; [exact Hold2|].
    intros id Hid. destruct (Hnew id) as (source & Hin & Hsb & Hsame); [lia|].
    exists source. rewrite in_app_iff. split; [auto|]. split; [exact Hsb|].
    rewrite Hat2, Hsame.
    destruct (Nat.eqb_spec id m) as [->|_]; [lia|reflexivity].
Qed.

Lemma after_setup_fold (h0 : Heap) (todo : list MaterialId) :
  forall (done : list MaterialId) (h1 : Heap),
    after_setup h0 done h1 ->
    Forall (fun m => m < nextMaterial h0) todo ->
    after_setup h0 (done ++ todo) (fold_left touch todo h1).
Proof.
  induction todo as [|m todo IH]; intros done h1 Hinv Hall.
  - now rewrite app_nil_r.
  - inversion Hall as [|? ? Hm Hrest]; subst. cbn [fold_left].
    replace (done ++ m :: todo)%list with ((done ++ [m]) ++ todo)%list
      by (rewrite <- app_assoc; reflexivity).
    apply IH; [|exact Hrest]. now apply after_setup_touch.
Qed.

Lemma mesh_materials_among_all (n : Node) (m : MaterialId) :
  In m (mesh_materials n) -> In m (all_materials n).
Proof.
  unfold mesh_materials, all_materials. rewrite !in_flat_map.
  intros (c & Hc & Hm). exists c. split; [exact Hc|].
  destruct (Materials.isMesh c); [exact Hm|contradiction].
Qed.

(** X17. [processModel] flags every mesh of the model and replaces no
    material: after the call the tree has the same objects in the same
    order, each with the material slot it had (the Lambert material
    [setupMaterial] returns for a basic one is dropped by the callback);
    every mesh casts and receives shadows, and an object that is no mesh
    keeps its two flags. *)
Theorem processModel_flags_every_mesh (model : Node) (h : Heap) :
  let model' := fst (processModel model h) in
  List.map Materials.isMesh (nodes model') = List.map Materials.isMesh (nodes model)
  /\ List.map Materials.material (nodes model') = List.map Materials.material (nodes model)
  /\ List.map (fun c => (Materials.castShadow c, Materials.receiveShadow c)) (nodes model')
     = List.map (fun c => if Materials.isMesh c then (true, true)
                          else (Materials.castShadow c, Materials.receiveShadow c))
                (nodes model).
Proof.
  cbv zeta. unfold processModel. repeat split.
  - apply traverse_view. reflexivity.
  - apply traverse_view. reflexivity.
  - apply (traverse_view
             (fun c => if Materials.isMesh c then (true, true)
                       else (Materials.castShadow c, Materials.receiveShadow c))
             (fun c => (Materials.castShadow c, Materials.receiveShadow c))).
    intros [|] ? ? ? ? ?; reflexivity.
Qed.

(** X18. What [processModel] does to the materials, where every
    material the tree refers to exists: a material that existed is
    unchanged, but for [needsUpdate], which is set when the material is a
    standard or Phong one held by a mesh; one new material is made for every
    mesh slot that holds a basic material (a material shared by two meshes
    is copied twice); each new material is the Lambert copy of a basic
    material of a mesh, and no object of the resulting tree refers to it. *)
Theorem processModel_marks_materials_and_drops_the_copies (model : Node) (h : Heap) :
  Forall (fun m => m < nextMaterial h) (all_materials model) ->
  let model' := fst (processModel model h) in
  let h' := snd (processModel model h) in
  (forall id, id < nextMaterial h ->
     material_at h' id
     = if is_updated (material_at h id) && existsb (Nat.eqb id) (mesh_materials model)
       then set_needsUpdate true (material_at h id)
       else material_at h id)
  /\ nextMaterial h'
     = nextMaterial h
       + length (filter (fun m => isMeshBasicMaterial (material_at h m))
                        (mesh_materials model))
  /\ (forall id, nextMaterial h <= id < nextMaterial h' ->
        ~ In id (all_materials model')
        /\ exists source, In source (mesh_materials model)
                          /\ isMeshBasicMaterial (material_at h source) = true
                          /\ material_at h' id = lambert_copy (material_at h source)).
Proof.
  intros Hall model' h'.
  assert (Hmesh : Forall (fun m => m < nextMaterial h) (mesh_materials model)).
  { rewrite Forall_forall in *. intros m Hm. apply Hall.
    now apply mesh_materials_among_all. }
  assert (Hstart : after_setup h [] h).
  { unfold after_setup. cbn [filter length existsb]. split; [lia|]. split.
    - intros id _. now rewrite andb_false_r.
    - intros id Hid. lia. }
  pose proof (after_setup_fold h (mesh_materials model) [] h Hstart Hmesh) as Hinv.
  cbn [app] in Hinv. rewrite <- traverse_heap in Hinv.
  destruct Hinv as (Hnext & Hold & Hnew).
  split; [exact Hold|]. split; [exact Hnext|].
  intros id Hid. split; [|exact (Hnew id Hid)].
  intros Hin.
  assert (Hsame : all_materials model' = all_materials model).
  { unfold all_materials. rewrite !flat_map_concat_map.
    rewrite <- !(List.map_map Materials.material slot_materials).
    subst model'. unfold processModel.
    now rewrite (traverse_view Materials.material Materials.material). }
  rewrite Hsame in Hin. rewrite Forall_forall in Hall. specialize (Hall id Hin). lia.
Qed.

(** A group holding a mesh with a basic material, a mesh with an array
    of a standard and the same basic material, and an object that is no
    mesh. *)
Lemma processModel_marks_materials_and_drops_the_copies_witness :
  let basic := mkMaterial false false true false false 7 None false (Lighting.decimal 1%Z 1%positive) in
  let standard := mkMaterial true false false false false 9 (Some 0) false (Lighting.decimal 1%Z 1%positive) in
  let h := mkHeap (fun id => match id with 1 => standard | _ => basic end) 3 in
  let model :=
    mkNode false false false NoMaterial
           [ mkNode true false false (OneMaterial 0) [];
             mkNode true false true (MaterialArray [1; 0]) [];
             mkNode false false false (OneMaterial 2) [] ] in
  Forall (fun m => m < nextMaterial h) (all_materials model)
  /\ let model' := fst (processModel model h) in
     let h' := snd (processModel model h) in
     (forall id, id < nextMaterial h ->
        material_at h' id
        = if is_updated (material_at h id) && existsb (Nat.eqb id) (mesh_materials model)
          then set_needsUpdate true (material_at h id)
          else material_at h id)
     /\ nextMaterial h'
        = nextMaterial h
          + length (filter (fun m => isMeshBasicMaterial (material_at h m))
                           (mesh_materials model))
     /\ (forall id, nextMaterial h <= id < nextMaterial h' ->
           ~ In id (all_materials model')
           /\ exists source, In source (mesh_materials model)
                             /\ isMeshBasicMaterial (material_at h source) = true
                             /\ material_at h' id = lambert_copy (material_at h source)).
Proof.
  intros basic standard h model.
  assert (Hall : Forall (fun m => m < nextMaterial h) (all_materials model))
    by (repeat constructor).
  split; [exact Hall|].
  exact (processModel_marks_materials_and_drops_the_copies model h Hall).
Defined.

End MaterialFacts.
